(** * traQ message repository: a shallow embedding of the GORM-backed store

    The development follows [repository/message_impl.go] in its two
    revisions: the current one (package [repository] on gorm.io/gorm) and the
    older one kept under [src/repository/message_impl.go] (jinzhu/gorm),
    which lives in [Module Legacy].

    The relational engine is not part of the repository.  It is represented
    by tables (lists of rows), by statements that read and write them, and by
    an environment that decides what the code cannot: the entropy behind
    [uuid.NewV4], the wall clock behind the auto-filled timestamps, and
    whether a given round-trip to the engine fails.

    What gorm makes of the calls of the repository is part of the embedding.
    A query built with [Where], [Joins], [Order], [Offset] and [Limit] and
    run by [Find], [First] or [Take] is the statement gorm generates from
    these clauses, over the rows that are not soft-deleted.  A statement
    given to [Raw] is sent as it is written, whatever clauses were set on
    the handle before.  [Preload] adds one SELECT per association after a
    query that found rows. *)

From Stdlib Require Import List ZArith NArith PArith String Bool Lia PeanoNat
  Sorted Permutation.
Import ListNotations.

Local Open Scope string_scope.
Local Open Scope list_scope.

(** ** Identifiers and time *)

(** [uuid.UUID]: a 128-bit value; [uuid.Nil] is the all-zero one. *)
Definition UUID := N.
Definition uuid_Nil : UUID := 0%N.

(** [time.Time] counted from Go's zero instant, so that the zero value of the
    type is [0]. *)
Definition Time := Z.
Definition zeroTime : Time := 0%Z.

(** ** Errors *)

Inductive error : Type :=
| ErrNilID                      (* repository.ErrNilID *)
| ErrNotFound                   (* repository.ErrNotFound *)
| ErrRecordNotFound             (* gorm.ErrRecordNotFound *)
| ErrDuplicatedKey              (* INSERT on an existing primary key *)
| ErrStorage (code : nat)       (* any other failure reported by the engine *)
| ErrTextEmpty.                 (* errors.New("text is empty"), older revision *)

Inductive Result (A : Type) : Type :=
| Ok (a : A)
| Err (e : error).
Arguments Ok {A} a.
Arguments Err {A} e.

(** Modelled from the spec: [convertError] is defined elsewhere in package
    [repository].  The spec describes it as the "translation step that maps
    substrate-specific no-rows signals to NotFound"; the older revision
    writes the same test inline ([gorm.IsRecordNotFoundError(err)] gives
    [ErrNotFound]). *)
Definition convertError (e : error) : error :=
  match e with
  | ErrRecordNotFound => ErrNotFound
  | _ => e
  end.

(** ** Rows (package [model]; fields as the repository code names them) *)

Record Message := mkMessage {
  ID : UUID;
  UserID : UUID;
  ChannelID : UUID;
  Text : string;
  CreatedAt : Time;
  UpdatedAt : Time;
  DeletedAt : option Time          (* nullable: soft delete *)
}.

Record ArchivedMessage := mkArchivedMessage {
  am_ID : UUID;
  am_MessageID : UUID;
  am_UserID : UUID;
  am_Text : string;
  am_DateTime : Time
}.

Record ChannelLatestMessage := mkChannelLatestMessage {
  clm_ChannelID : UUID;
  clm_MessageID : UUID;
  clm_DateTime : Time
}.

Record Unread := mkUnread {
  ur_UserID : UUID;
  ur_MessageID : UUID;
  ur_Noticeable : bool
}.

Record Pin := mkPin {
  pin_ID : UUID;
  pin_MessageID : UUID
}.

Record ClipFolderMessage := mkClipFolderMessage {
  cfm_FolderID : UUID;
  cfm_MessageID : UUID
}.

Record MessageStamp := mkMessageStamp {
  ms_MessageID : UUID;
  ms_StampID : UUID;
  ms_UserID : UUID;
  ms_Count : Z;                    (* Go [int] *)
  ms_CreatedAt : Time;
  ms_UpdatedAt : Time
}.

Record Channel := mkChannel {
  ch_ID : UUID;
  ch_IsPublic : bool;
  ch_IsForced : bool;
  ch_DeletedAt : option Time
}.

Record UserSubscribeChannel := mkUserSubscribeChannel {
  usc_UserID : UUID;
  usc_ChannelID : UUID
}.

(** ** The database: one list of rows per table *)

Record DB := mkDB {
  messages : list Message;
  archived_messages : list ArchivedMessage;
  channel_latest_messages : list ChannelLatestMessage;
  unreads : list Unread;
  pins : list Pin;
  clip_folder_messages : list ClipFolderMessage;
  messages_stamps : list MessageStamp;
  channels : list Channel;
  users_subscribe_channels : list UserSubscribeChannel
}.

Definition emptyDB : DB := mkDB [] [] [] [] [] [] [] [] [].

Definition with_messages (d : DB) (l : list Message) : DB :=
  mkDB l (archived_messages d) (channel_latest_messages d) (unreads d) (pins d)
       (clip_folder_messages d) (messages_stamps d) (channels d)
       (users_subscribe_channels d).

Definition with_archived (d : DB) (l : list ArchivedMessage) : DB :=
  mkDB (messages d) l (channel_latest_messages d) (unreads d) (pins d)
       (clip_folder_messages d) (messages_stamps d) (channels d)
       (users_subscribe_channels d).

Definition with_latest (d : DB) (l : list ChannelLatestMessage) : DB :=
  mkDB (messages d) (archived_messages d) l (unreads d) (pins d)
       (clip_folder_messages d) (messages_stamps d) (channels d)
       (users_subscribe_channels d).

Definition with_unreads (d : DB) (l : list Unread) : DB :=
  mkDB (messages d) (archived_messages d) (channel_latest_messages d) l (pins d)
       (clip_folder_messages d) (messages_stamps d) (channels d)
       (users_subscribe_channels d).

Definition with_pins (d : DB) (l : list Pin) : DB :=
  mkDB (messages d) (archived_messages d) (channel_latest_messages d) (unreads d) l
       (clip_folder_messages d) (messages_stamps d) (channels d)
       (users_subscribe_channels d).

Definition with_clips (d : DB) (l : list ClipFolderMessage) : DB :=
  mkDB (messages d) (archived_messages d) (channel_latest_messages d) (unreads d)
       (pins d) l (messages_stamps d) (channels d) (users_subscribe_channels d).

Definition with_stamps (d : DB) (l : list MessageStamp) : DB :=
  mkDB (messages d) (archived_messages d) (channel_latest_messages d) (unreads d)
       (pins d) (clip_folder_messages d) l (channels d)
       (users_subscribe_channels d).

(** ** Events published on the hub (package [event])

    An event carries the fields the repository puts in [hub.Fields], except
    the pointers to structs that gorm has written through after they were
    loaded ([old_message] of an update, [message] of a delete): the message
    id stands for them. *)

Inductive Event : Type :=
| MessageCreated (message_id : UUID) (message : Message) (citations : list UUID)
| MessageCited (message_id : UUID) (message : Message) (cited_ids : list UUID)
| MessageUpdated (message_id : UUID) (new_message : Message)
| MessageDeleted (message_id : UUID) (deleted_unreads : list Unread)
| MessageUnread (message_id user_id : UUID) (noticeable : bool)
| ChannelRead (channel_id user_id : UUID) (read_messages_num : nat)
| MessageStamped (message_id stamp_id user_id : UUID) (count : Z) (created_at : Time)
| MessageUnstamped (message_id stamp_id user_id : UUID).

(** ** The world a repository method runs in *)

Inductive verb := SELECT | INSERT | UPSERT | UPDATE | DELETE.
Inductive table :=
| TMessages | TArchived | TLatest | TUnreads | TPins | TClips | TStamps.

(** What the process does that is visible from outside, in order. *)
Inductive Action : Type :=
| Begin
| Commit
| Rollback
| Stmt (v : verb) (t : table)
| Publish (e : Event).

(** The environment answers what the code leaves to the outside. [rand k] is
    the [k]-th identifier drawn from [uuid.NewV4] (never [uuid.Nil]: a
    version-4 identifier has its version bits set), [clock k] the wall clock
    at the [k]-th round-trip to the engine (after Go's zero instant), and
    [fault k] whether that round-trip fails, and with which code.  [Parse]
    stands for [message.Parse(text).Citation] of package utils/message: the
    identifiers a text cites. *)
Record Env := mkEnv {
  rand : nat -> positive;
  clock : nat -> positive;
  fault : nat -> option nat;
  Parse : string -> list UUID
}.

Record World := mkWorld {
  db : DB;
  log : list Action;
  tick : nat;          (* round-trips made so far *)
  drawn : nat;         (* identifiers drawn so far *)
  env : Env
}.

Definition with_db (w : World) (d : DB) : World :=
  mkWorld d (log w) (tick w) (drawn w) (env w).

Definition record (a : Action) (w : World) : World :=
  mkWorld (db w) (log w ++ [a]) (tick w) (drawn w) (env w).

Definition next_tick (w : World) : World :=
  mkWorld (db w) (log w) (S (tick w)) (drawn w) (env w).

Definition now (w : World) : Time := Z.pos (clock (env w) (tick w)).

(** Events published so far, oldest first. *)
Fixpoint events (l : list Action) : list Event :=
  match l with
  | [] => []
  | Publish e :: l' => e :: events l'
  | _ :: l' => events l'
  end.

Definition published (w : World) : list Event := events (log w).

(** ** A state-and-error monad for repository code *)

Definition M (A : Type) : Type := World -> Result A * World.

Definition ret {A} (a : A) : M A := fun w => (Ok a, w).
Definition fail {A} (e : error) : M A := fun w => (Err e, w).

Definition bind {A B} (c : M A) (k : A -> M B) : M B :=
  fun w =>
    match c w with
    | (Ok a, w') => k a w'
    | (Err e, w') => (Err e, w')
    end.

Notation "x <- c ;; k" := (bind c (fun x => k))
  (at level 61, c at next level, right associativity).
Notation "c ;;; k" := (bind c (fun _ => k))
  (at level 61, right associativity).

(** [uuid.Must(uuid.NewV4())] *)
Definition NewV4 : M UUID :=
  fun w =>
    (Ok (N.pos (rand (env w) (drawn w))),
     mkWorld (db w) (log w) (tick w) (S (drawn w)) (env w)).

(** [repo.hub.Publish(...)]: fire and forget. *)
Definition hubPublish (e : Event) : M unit :=
  fun w => (Ok tt, record (Publish e) w).

(** One statement sent to the engine.  [run] is what the statement does to
    the tables when the engine executes it; a statement the engine rejects
    leaves the tables as they were. *)
Definition exec {A} (v : verb) (t : table)
           (run : Time -> DB -> Result A * DB) : M A :=
  fun w =>
    let w' := next_tick (record (Stmt v t) w) in
    match fault (env w) (tick w) with
    | Some c => (Err (ErrStorage c), w')
    | None =>
        match run (now w) (db w) with
        | (Ok a, d) => (Ok a, with_db w' d)
        | (Err e, _) => (Err e, w')
        end
    end.

(** [db.Transaction(func(tx) error {...})]: begin, run the body, commit when
    it returns nil, roll back when it returns an error; the error of the
    body, of BEGIN or of COMMIT is what [Transaction] returns. *)
Definition Transaction {A} (body : M A) : M A :=
  fun w =>
    match fault (env w) (tick w) with
    | Some c => (Err (ErrStorage c), next_tick w)
    | None =>
        match body (next_tick (record Begin w)) with
        | (Err e, w1) => (Err e, record Rollback (with_db w1 (db w)))
        | (Ok a, w1) =>
            match fault (env w1) (tick w1) with
            | Some c =>
                (Err (ErrStorage c),
                 next_tick (record Rollback (with_db w1 (db w))))
            | None => (Ok a, next_tick (record Commit w1))
            end
        end
    end.

Definition mapErr {A} (f : error -> error) (c : M A) : M A :=
  fun w =>
    match c w with
    | (Ok a, w') => (Ok a, w')
    | (Err e, w') => (Err (f e), w')
    end.

(** ** Statements the repository sends through gorm *)

Definition live (m : Message) : bool :=
  match DeletedAt m with None => true | Some _ => false end.

Definition hasID (id : UUID) (m : Message) : bool := N.eqb (ID m) id.

(** gorm fills a zero [CreatedAt]/[UpdatedAt] with the current time. *)
Definition autoTime (t x : Time) : Time :=
  if Z.eqb x zeroTime then t else x.

(** [tx.Create(m)] for a [*model.Message]; the filled-in struct is what the
    caller's pointer sees afterwards. *)
Definition insertMessage (m : Message) : M Message :=
  exec INSERT TMessages (fun t d =>
    if existsb (hasID (ID m)) (messages d) then (Err ErrDuplicatedKey, d)
    else
      let m' := mkMessage (ID m) (UserID m) (ChannelID m) (Text m)
                          (autoTime t (CreatedAt m)) (autoTime t (UpdatedAt m))
                          (DeletedAt m) in
      (Ok m', with_messages d (messages d ++ [m']))).

(** [First]/[Take] of a message by primary key; soft-deleted rows are
    invisible to gorm queries on a model with [DeletedAt]. *)
Definition firstMessage (id : UUID) : M Message :=
  exec SELECT TMessages (fun _ d =>
    match find (fun m => hasID id m && live m) (messages d) with
    | Some m => (Ok m, d)
    | None => (Err ErrRecordNotFound, d)
    end).

(** What UPDATE messages SET text = ?, updated_at = ? WHERE id = ? AND
    deleted_at IS NULL does to one row. *)
Definition edited (id : UUID) (text : string) (t : Time) (m : Message) : Message :=
  if hasID id m && live m
  then mkMessage (ID m) (UserID m) (ChannelID m) text (CreatedAt m) t (DeletedAt m)
  else m.

(** [tx.Model(&old).Update("text", text)] *)
Definition updateMessageText (id : UUID) (text : string) : M unit :=
  exec UPDATE TMessages (fun t d =>
    (Ok tt, with_messages d (map (edited id text t) (messages d)))).

(** What UPDATE messages SET deleted_at = ? WHERE id = ? AND deleted_at IS
    NULL does to one row. *)
Definition softDeleted (id : UUID) (t : Time) (m : Message) : Message :=
  if hasID id m && live m
  then mkMessage (ID m) (UserID m) (ChannelID m) (Text m) (CreatedAt m)
                 (UpdatedAt m) (Some t)
  else m.

(** [tx.Delete(&m)] for a message: sets [deleted_at]. *)
Definition softDeleteMessage (id : UUID) : M unit :=
  exec DELETE TMessages (fun t d =>
    (Ok tt, with_messages d (map (softDeleted id t) (messages d)))).

(** [tx.Create(&model.ArchivedMessage{...})] *)
Definition insertArchived (a : ArchivedMessage) : M unit :=
  exec INSERT TArchived (fun _ d =>
    if existsb (fun x => N.eqb (am_ID x) (am_ID a)) (archived_messages d)
    then (Err ErrDuplicatedKey, d)
    else (Ok tt, with_archived d (archived_messages d ++ [a]))).

(** [tx.Clauses(clause.OnConflict{UpdateAll: true}).Create(clm)]: the key of
    channel_latest_messages is the channel id. *)
Definition upsertedLatest (c : ChannelLatestMessage)
           (l : list ChannelLatestMessage) : list ChannelLatestMessage :=
  let same x := N.eqb (clm_ChannelID x) (clm_ChannelID c) in
  if existsb same l then map (fun x => if same x then c else x) l
  else l ++ [c].

Definition upsertLatest (c : ChannelLatestMessage) : M unit :=
  exec UPSERT TLatest (fun _ d =>
    (Ok tt, with_latest d (upsertedLatest c (channel_latest_messages d)))).

Definition unreadOf (user message : UUID) (u : Unread) : bool :=
  N.eqb (ur_UserID u) user && N.eqb (ur_MessageID u) message.

Definition unreadOfMessage (message : UUID) (u : Unread) : bool :=
  N.eqb (ur_MessageID u) message.

(** [tx.First(&u, &model.Unread{UserID: userID, MessageID: messageID})] *)
Definition firstUnread (user message : UUID) : M Unread :=
  exec SELECT TUnreads (fun _ d =>
    match find (unreadOf user message) (unreads d) with
    | Some u => (Ok u, d)
    | None => (Err ErrRecordNotFound, d)
    end).

(** [tx.Create(&model.Unread{...})]; the key is (user id, message id). *)
Definition insertUnread (u : Unread) : M unit :=
  exec INSERT TUnreads (fun _ d =>
    if existsb (unreadOf (ur_UserID u) (ur_MessageID u)) (unreads d)
    then (Err ErrDuplicatedKey, d)
    else (Ok tt, with_unreads d (unreads d ++ [u]))).

(** What UPDATE unreads SET noticeable = ? WHERE user_id = ? AND
    message_id = ? does to one row. *)
Definition renoticed (user message : UUID) (noticeable : bool) (x : Unread)
  : Unread :=
  if unreadOf user message x
  then mkUnread (ur_UserID x) (ur_MessageID x) noticeable
  else x.

(** [tx.Model(&u).Update("noticeable", noticeable)] *)
Definition updateUnreadNoticeable (u : Unread) (noticeable : bool) : M unit :=
  exec UPDATE TUnreads (fun _ d =>
    (Ok tt,
     with_unreads d
       (map (renoticed (ur_UserID u) (ur_MessageID u) noticeable) (unreads d)))).

(** [tx.Find(&unreads, &model.Unread{MessageID: messageID})] *)
Definition findUnreads (message : UUID) : M (list Unread) :=
  exec SELECT TUnreads (fun _ d =>
    (Ok (filter (unreadOfMessage message) (unreads d)), d)).

(** [tx.Delete(model.Unread{}, &model.Unread{MessageID: messageID})] *)
Definition deleteUnreads (message : UUID) : M unit :=
  exec DELETE TUnreads (fun _ d =>
    (Ok tt,
     with_unreads d
       (filter (fun u => negb (unreadOfMessage message u)) (unreads d)))).

(** [tx.Delete(model.Pin{}, &model.Pin{MessageID: messageID})] *)
Definition deletePins (message : UUID) : M unit :=
  exec DELETE TPins (fun _ d =>
    (Ok tt,
     with_pins d
       (filter (fun p => negb (N.eqb (pin_MessageID p) message)) (pins d)))).

(** [tx.Delete(model.ClipFolderMessage{}, &model.ClipFolderMessage{MessageID: messageID})] *)
Definition deleteClips (message : UUID) : M unit :=
  exec DELETE TClips (fun _ d =>
    (Ok tt,
     with_clips d
       (filter (fun c => negb (N.eqb (cfm_MessageID c) message))
               (clip_folder_messages d)))).

(** ** Message store (current revision) *)

Definition CreateMessage_tx (m : Message) : M Message :=
  m' <- insertMessage m ;;
  upsertLatest (mkChannelLatestMessage (ChannelID m') (ID m') (CreatedAt m')) ;;;
  ret m'.

Definition CreateMessage (userID channelID : UUID) (text : string) : M Message :=
  if N.eqb userID uuid_Nil || N.eqb channelID uuid_Nil then fail ErrNilID
  else
    id <- NewV4 ;;
    fun w =>
      match Transaction
              (CreateMessage_tx
                 (mkMessage id userID channelID text zeroTime zeroTime None)) w
      with
      | (Err e, w1) => (Err e, w1)
      | (Ok m, w1) =>
          let parseResult := Parse (env w1) text in
          (hubPublish (MessageCreated (ID m) m parseResult) ;;;
           (if Nat.ltb 0 (List.length parseResult)
            then hubPublish (MessageCited (ID m) m parseResult)
            else ret tt) ;;;
           ret m) w1
      end.

Definition UpdateMessage_tx (messageID : UUID) (text : string)
  : M (Message * Message) :=
  old <- mapErr convertError (firstMessage messageID) ;;
  (* archiving *)
  aid <- NewV4 ;;
  insertArchived
    (mkArchivedMessage aid (ID old) (UserID old) (Text old) (UpdatedAt old)) ;;;
  (* update *)
  updateMessageText (ID old) text ;;;
  new <- firstMessage messageID ;;
  ret (old, new).

Definition UpdateMessage (messageID : UUID) (text : string) : M unit :=
  if N.eqb messageID uuid_Nil then fail ErrNilID
  else
    fun w =>
      match Transaction (UpdateMessage_tx messageID text) w with
      | (Err e, w1) => (Err e, w1)
      | (Ok (_, new), w1) => hubPublish (MessageUpdated messageID new) w1
      end.

Definition DeleteMessage_tx (messageID : UUID) : M (Message * list Unread) :=
  m <- mapErr convertError (firstMessage messageID) ;;
  us <- findUnreads messageID ;;
  softDeleteMessage (ID m) ;;;
  deleteUnreads messageID ;;;
  deletePins messageID ;;;
  deleteClips messageID ;;;
  ret (m, us).

Definition DeleteMessage (messageID : UUID) : M unit :=
  if N.eqb messageID uuid_Nil then fail ErrNilID
  else
    fun w =>
      match Transaction (DeleteMessage_tx messageID) w with
      | (Err e, w1) => (Err e, w1)
      | (Ok (_, us), w1) => hubPublish (MessageDeleted messageID us) w1
      end.

(** One SELECT gorm sends to load an association of the rows a query found.
    The rows it fetches fill a field of [model.Message] that is not a column
    of [messages], and [Message] has the columns only: what the model keeps
    of a preload is its round-trip and its error. *)
Definition preload (t : table) : M unit :=
  exec SELECT t (fun _ d => (Ok tt, d)).

(** [messagePreloads]: [Preload("Stamps")] and [Preload("Pin")].  gorm runs
    the preloads of a query after the query itself, when it succeeded and
    found rows, and an error of a preload is the error of the query.  In
    which order it sends the two is gorm's matter; they are taken as the
    source lists them. *)
Definition messagePreloads (found : list Message) : M unit :=
  match found with
  | [] => ret tt
  | _ :: _ => preload TStamps ;;; preload TPins
  end.

Definition GetMessageByID (messageID : UUID) : M Message :=
  if N.eqb messageID uuid_Nil then fail ErrNotFound
  else
    mapErr convertError
           (message <- firstMessage messageID ;;
            messagePreloads [message] ;;;
            ret message).

(** ** Listing messages *)

(** Go's [int] on the 64-bit targets traQ is built for. *)
Definition max_int : Z := 2 ^ 63 - 1.
Definition int_add (a b : Z) : Z := ((a + b + 2 ^ 63) mod 2 ^ 64 - 2 ^ 63)%Z.

(** [repository.MessagesQuery]; [null.Time] is an optional time. *)
Record MessagesQuery := mkMessagesQuery {
  q_User : UUID;
  q_Channel : UUID;
  q_ChannelsSubscribedByUser : UUID;
  q_Since : option Time;
  q_Until : option Time;
  q_Inclusive : bool;
  q_Limit : Z;
  q_Offset : Z;
  q_Asc : bool;
  q_ExcludeDMs : bool;
  q_DisablePreload : bool
}.

Fixpoint insertBy {A} (le : A -> A -> bool) (x : A) (l : list A) : list A :=
  match l with
  | [] => [x]
  | y :: l' => if le x y then x :: l else y :: insertBy le x l'
  end.

(** ORDER BY, as a stable sort of the rows in the order the engine scans
    them, which is the order of the table's list: rows that tie on the key
    come as the scan has them.  A property of one statement that holds for
    every list of rows holds for every scan order; a property that relates
    the order of two statements is stated for two lists with the same rows
    ([sameRows] below), not for one list read twice. *)
Fixpoint sortBy {A} (le : A -> A -> bool) (l : list A) : list A :=
  match l with
  | [] => []
  | x :: l' => insertBy le x (sortBy le l')
  end.

(** [tx.Order("messages.created_at")] / [tx.Order("messages.created_at DESC")];
    [created_at] is no key, and messages created at the same time come in
    scan order. *)
Definition orderRows (asc : bool) (l : list Message) : list Message :=
  if asc then sortBy (fun a b => Z.leb (CreatedAt a) (CreatedAt b)) l
  else sortBy (fun a b => Z.leb (CreatedAt b) (CreatedAt a)) l.

(** [if query.Offset > 0 { tx = tx.Offset(query.Offset) }] *)
Definition offsetRows (offset : Z) (l : list Message) : list Message :=
  if Z.ltb 0 offset then skipn (Z.to_nat offset) l else l.

(** [tx.Limit(n)]: gorm emits no LIMIT clause for a negative [n]. *)
Definition limitRows {A} (n : Z) (l : list A) : list A :=
  if Z.ltb n 0 then l else firstn (Z.to_nat n) l.

(** [INNER JOIN channels ON messages.channel_id = channels.id] *)
Definition joinChannels (d : DB) (ms : list Message) : list (Message * Channel) :=
  flat_map (fun m =>
              map (fun c => (m, c))
                  (filter (fun c => N.eqb (ch_ID c) (ChannelID m)) (channels d)))
           ms.

(** [channels.is_forced = TRUE OR channels.id IN (SELECT s.channel_id FROM
    users_subscribe_channels s WHERE s.user_id = ?)] *)
Definition forcedOrSubscribed (d : DB) (user : UUID) (c : Channel) : bool :=
  ch_IsForced c
  || existsb (fun s => N.eqb (usc_UserID s) user
                       && N.eqb (usc_ChannelID s) (ch_ID c))
             (users_subscribe_channels d).

Definition whereChannel (q : MessagesQuery) (d : DB) (c : Channel) : bool :=
  (if N.eqb (q_ChannelsSubscribedByUser q) uuid_Nil then true
   else forcedOrSubscribed d (q_ChannelsSubscribedByUser q) c)
  && (if q_ExcludeDMs q then ch_IsPublic c else true).

Definition whereMessage (q : MessagesQuery) (m : Message) : bool :=
  (if N.eqb (q_Channel q) uuid_Nil then true
   else N.eqb (ChannelID m) (q_Channel q))
  && (if N.eqb (q_User q) uuid_Nil then true else N.eqb (UserID m) (q_User q))
  && (if q_Inclusive q
      then
        match q_Since q with Some t => Z.geb (CreatedAt m) t | None => true end
        && match q_Until q with Some t => Z.leb (CreatedAt m) t | None => true end
      else
        match q_Since q with Some t => Z.gtb (CreatedAt m) t | None => true end
        && match q_Until q with Some t => Z.ltb (CreatedAt m) t | None => true end).

(** The activity feed takes the hand-written statement with USE INDEX. *)
Definition activityPath (q : MessagesQuery) : bool :=
  q_ExcludeDMs q && N.eqb (q_Channel q) uuid_Nil && N.eqb (q_User q) uuid_Nil
  && N.eqb (q_ChannelsSubscribedByUser q) uuid_Nil
  && match q_Since q with None => true | Some _ => false end
  && match q_Until q with None => true | Some _ => false end
  && Z.ltb 0 (q_Limit q).

(** [SELECT messages.* FROM messages USE INDEX (...) INNER JOIN channels ON
    messages.channel_id = channels.id WHERE messages.deleted_at IS NULL AND
    channels.is_public = true]: the statement has no ORDER BY, so its rows
    come in scan order. *)
Definition activityRows (d : DB) : list Message :=
  map fst (filter (fun mc => ch_IsPublic (snd mc))
                  (joinChannels d (filter live (messages d)))).

(** Rows that satisfy the conditions of the query, before ORDER BY, OFFSET
    and LIMIT. *)
Definition whereRows (q : MessagesQuery) (d : DB) : list Message :=
  if activityPath q then activityRows d
  else
    let ms := filter live (messages d) in
    let ms :=
      if negb (N.eqb (q_ChannelsSubscribedByUser q) uuid_Nil) || q_ExcludeDMs q
      then map fst (filter (fun mc => whereChannel q d (snd mc))
                           (joinChannels d ms))
      else ms in
    filter (whereMessage q) ms.

(** Rows the generated statement designates when its limit is left out:
    conditions, order and offset applied. *)
Definition matchingRows (q : MessagesQuery) (d : DB) : list Message :=
  offsetRows (q_Offset q) (orderRows (q_Asc q) (whereRows q d)).

(** A Go method returning [(value, err)] where the value is kept as it was
    before the call when the call fails. *)
Definition scanInto {A} (init : A) (c : M A) : World -> (A * option error) * World :=
  fun w =>
    match c w with
    | (Ok a, w') => ((a, None), w')
    | (Err e, w') => ((init, Some e), w')
    end.

(** [Raw("SELECT ...").Scan(&messages)]: gorm sends a hand-written statement
    as it is written.  The [Order], [Offset] and [Limit] set on [tx] before
    [Raw] are clauses of the statement gorm would have generated and are not
    added to it; and [Scan] reads the rows of the statement and runs no
    preload. *)
Definition scanRaw {A} (t : table) (rows : DB -> list A)
  : World -> (list A * option error) * World :=
  scanInto [] (exec SELECT t (fun _ d => (Ok (rows d), d))).

(** The rows of the generated statement: the clauses gathered on [tx]
    (conditions, order, offset) and the limit, when one was set. *)
Definition fetched (q : MessagesQuery) (limit : option Z) (d : DB)
  : list Message :=
  match limit with
  | Some n => limitRows n (matchingRows q d)
  | None => matchingRows q d
  end.

(** [tx.Find(&messages)] on the generated statement, followed by the
    preloads unless the query disables them.  The rows of the statement stay
    in [messages] when a preload fails. *)
Definition findMessages (q : MessagesQuery) (limit : option Z)
  : World -> (list Message * option error) * World :=
  fun w =>
    match exec SELECT TMessages (fun _ d => (Ok (fetched q limit d), d)) w with
    | (Err e, w1) => (([], Some e), w1)
    | (Ok messages, w1) =>
        if q_DisablePreload q then ((messages, None), w1)
        else
          match messagePreloads messages w1 with
          | (Ok _, w2) => ((messages, None), w2)
          | (Err e, w2) => ((messages, Some e), w2)
          end
    end.

Definition GetMessages (q : MessagesQuery)
  : World -> (list Message * bool * option error) * World :=
  fun w =>
    if activityPath q then
      let '((messages, err), w1) := scanRaw TMessages activityRows w in
      if Z.gtb (Z.of_nat (List.length messages)) (q_Limit q)
      then ((removelast messages, true, err), w1)
      else ((messages, false, err), w1)
    else if Z.ltb 0 (q_Limit q) then
      let '((messages, err), w1) :=
        findMessages q (Some (int_add (q_Limit q) 1)) w in
      if Z.gtb (Z.of_nat (List.length messages)) (q_Limit q)
      then ((removelast messages, true, err), w1)
      else ((messages, false, err), w1)
    else
      let '((messages, err), w1) := findMessages q None w in
      ((messages, false, err), w1).

(** ** Unread index *)

Definition SetMessageUnread_tx (userID messageID : UUID) (noticeable : bool)
  : M bool :=
  fun w =>
    match firstUnread userID messageID w with
    | (Err ErrRecordNotFound, w1) =>
        (insertUnread (mkUnread userID messageID noticeable) ;;; ret false) w1
    | (Err e, w1) => (Err e, w1)
    | (Ok u, w1) => (updateUnreadNoticeable u noticeable ;;; ret true) w1
    end.

Definition SetMessageUnread (userID messageID : UUID) (noticeable : bool) : M unit :=
  if N.eqb userID uuid_Nil || N.eqb messageID uuid_Nil then fail ErrNilID
  else
    fun w =>
      match Transaction (SetMessageUnread_tx userID messageID noticeable) w with
      | (Err e, w1) => (Err e, w1)
      | (Ok update, w1) =>
          if negb update
          then hubPublish (MessageUnread messageID userID noticeable) w1
          else (Ok tt, w1)
      end.

(** ** Latest message per channel *)

(** The rows of the hand-written SELECT over channel_latest_messages,
    messages and channels, each with the pointer it comes from. *)
Definition latestRows (d : DB) (userID : UUID) (subscribeOnly : bool)
  : list (ChannelLatestMessage * Message) :=
  flat_map
    (fun clm =>
       flat_map
         (fun m =>
            flat_map
              (fun c =>
                 if match ch_DeletedAt c with None => true | Some _ => false end
                    && ch_IsPublic c && live m
                    && (if subscribeOnly then forcedOrSubscribed d userID c
                        else true)
                 then [(clm, m)] else [])
              (filter (fun c => N.eqb (clm_ChannelID clm) (ch_ID c)) (channels d)))
         (filter (fun m => N.eqb (clm_MessageID clm) (ID m)) (messages d)))
    (channel_latest_messages d).

Definition GetChannelLatestMessagesByUserID
           (userID : UUID) (limit : Z) (subscribeOnly : bool)
  : World -> (list Message * option error) * World :=
  scanInto []
    (exec SELECT TLatest (fun _ d =>
       let rows :=
         sortBy (fun a b => Z.leb (clm_DateTime (fst b)) (clm_DateTime (fst a)))
                (latestRows d userID subscribeOnly) in
       let rows := if Z.ltb 0 limit then firstn (Z.to_nat limit) rows else rows in
       (Ok (map snd rows), d))).

(** ** Reaction counters (message stamps) *)

Definition stampOf (messageID stampID userID : UUID) (s : MessageStamp) : bool :=
  N.eqb (ms_MessageID s) messageID && N.eqb (ms_StampID s) stampID
  && N.eqb (ms_UserID s) userID.

(** INSERT ... ON DUPLICATE KEY UPDATE count = count + n, updated_at = now():
    the key of messages_stamps is (message id, stamp id, user id). *)
Definition upsertedStamps (messageID stampID userID : UUID) (count : Z)
           (t : Time) (l : list MessageStamp) : list MessageStamp :=
  if existsb (stampOf messageID stampID userID) l
  then
    map (fun s =>
           if stampOf messageID stampID userID s
           then mkMessageStamp (ms_MessageID s) (ms_StampID s) (ms_UserID s)
                               (ms_Count s + count) (ms_CreatedAt s) t
           else s)
        l
  else l ++ [mkMessageStamp messageID stampID userID count t t].

Definition upsertStamp (messageID stampID userID : UUID) (count : Z) : M unit :=
  exec UPSERT TStamps (fun t d =>
    (Ok tt,
     with_stamps d
       (upsertedStamps messageID stampID userID count t (messages_stamps d)))).

(** [repo.db.Take(ms, &model.MessageStamp{...})] *)
Definition takeStamp (messageID stampID userID : UUID) : M MessageStamp :=
  exec SELECT TStamps (fun _ d =>
    match find (stampOf messageID stampID userID) (messages_stamps d) with
    | Some s => (Ok s, d)
    | None => (Err ErrRecordNotFound, d)
    end).

(** [repo.db.Delete(&model.MessageStamp{...})]; the result is RowsAffected. *)
Definition deleteStamp (messageID stampID userID : UUID) : M nat :=
  exec DELETE TStamps (fun _ d =>
    (Ok (List.length (filter (stampOf messageID stampID userID) (messages_stamps d))),
     with_stamps d
       (filter (fun s => negb (stampOf messageID stampID userID s))
               (messages_stamps d)))).

Definition AddStampToMessage (messageID stampID userID : UUID) (count : Z)
  : M MessageStamp :=
  if N.eqb messageID uuid_Nil || N.eqb stampID uuid_Nil || N.eqb userID uuid_Nil
  then fail ErrNilID
  else
    upsertStamp messageID stampID userID count ;;;
    ms <- takeStamp messageID stampID userID ;;
    hubPublish (MessageStamped messageID stampID userID (ms_Count ms)
                               (ms_CreatedAt ms)) ;;;
    ret ms.

Definition RemoveStampFromMessage (messageID stampID userID : UUID) : M unit :=
  if N.eqb messageID uuid_Nil || N.eqb stampID uuid_Nil || N.eqb userID uuid_Nil
  then fail ErrNilID
  else
    rowsAffected <- deleteStamp messageID stampID userID ;;
    if Nat.ltb 0 rowsAffected
    then hubPublish (MessageUnstamped messageID stampID userID)
    else ret tt.

(** ** Incremental sync, unread listing and clearing (current revision) *)

(** The slice expression [s[:n]] where it is reached in this file, that is
    with [n] below the length of [s]: a negative [n] is a run-time panic. *)
Definition sliceTo {A} (s : list A) (n : Z) : option (list A) :=
  if Z.ltb n 0 then None else Some (firstn (Z.to_nat n) s).

(** [if len(messages) > limit { more = true; messages = messages[:limit] }];
    [None] stands for the panic. *)
Definition trimTo (limit : Z) (r : list Message * option error)
  : option (list Message * bool * option error) :=
  let '(messages, err) := r in
  if Z.gtb (Z.of_nat (List.length messages)) limit
  then match sliceTo messages limit with
       | Some s => Some (s, true, err)
       | None => None
       end
  else Some (messages, false, err).

(** WHERE deleted_at IS NULL AND updated_at > ? ORDER BY updated_at *)
Definition updatedRows (after : Time) (d : DB) : list Message :=
  sortBy (fun a b => Z.leb (UpdatedAt a) (UpdatedAt b))
         (filter (fun m => live m && Z.ltb after (UpdatedAt m)) (messages d)).

(** [Limit(limit+1)] is set before [Raw] and is not part of the statement
    sent: every row of the query is fetched, and the cut is [trimTo]'s. *)
Definition GetUpdatedMessagesAfter (after : Time) (limit : Z)
  : World -> option (list Message * bool * option error) * World :=
  fun w =>
    let '(r, w1) := scanRaw TMessages (updatedRows after) w in
    (trimTo limit r, w1).

(** [deleted_at > ?]: a NULL [deleted_at] does not compare. *)
Definition deletedAfter (after : Time) (m : Message) : bool :=
  match DeletedAt m with
  | Some t => Z.ltb after t
  | None => false
  end.

Definition deletionTime (m : Message) : Time :=
  match DeletedAt m with Some t => t | None => zeroTime end.

(** WHERE deleted_at > ? ORDER BY deleted_at *)
Definition deletedRows (after : Time) (d : DB) : list Message :=
  sortBy (fun a b => Z.leb (deletionTime a) (deletionTime b))
         (filter (deletedAfter after) (messages d)).

Definition GetDeletedMessagesAfter (after : Time) (limit : Z)
  : World -> option (list Message * bool * option error) * World :=
  fun w =>
    let '(r, w1) := scanRaw TMessages (deletedRows after) w in
    (trimTo limit r, w1).

(** messages INNER JOIN unreads ON unreads.message_id = messages.id AND
    unreads.user_id = ?, ORDER BY messages.created_at; gorm adds
    [deleted_at IS NULL] for the model. *)
Definition unreadRows (userID : UUID) (d : DB) : list Message :=
  sortBy (fun a b => Z.leb (CreatedAt a) (CreatedAt b))
         (flat_map
            (fun m =>
               map (fun _ => m)
                   (filter (fun u => N.eqb (ur_MessageID u) (ID m)
                                     && N.eqb (ur_UserID u) userID)
                           (unreads d)))
            (filter live (messages d))).

Definition GetUnreadMessagesByUserID (userID : UUID)
  : World -> (list Message * option error) * World :=
  fun w =>
    if N.eqb userID uuid_Nil then (([], None), w)
    else
      scanInto []
        (exec SELECT TMessages (fun _ d => (Ok (unreadRows userID d), d))) w.

(** [repository.UserUnreadChannel], one row of the summary. *)
Record UserUnreadChannel := mkUserUnreadChannel {
  uuc_ChannelID : UUID;
  uuc_Count : nat;
  uuc_Noticeable : bool;
  uuc_Since : Time;
  uuc_UpdatedAt : Time
}.

(** unreads u JOIN messages m ON u.message_id = m.id WHERE u.user_id = ?
    (a hand-written statement: deleted messages are not left out). *)
Definition unreadJoin (userID : UUID) (d : DB) : list (Unread * Message) :=
  flat_map
    (fun u =>
       map (fun m => (u, m))
           (filter (fun m => N.eqb (ur_MessageID u) (ID m)) (messages d)))
    (filter (fun u => N.eqb (ur_UserID u) userID) (unreads d)).

(** The keys of GROUP BY, each once, in order of first appearance. *)
Fixpoint groupKeys (l : list UUID) : list UUID :=
  match l with
  | [] => []
  | k :: l' => k :: filter (fun x => negb (N.eqb x k)) (groupKeys l')
  end.

(** COUNT(m.id), MAX(u.noticeable), MIN(m.created_at), MAX(m.created_at) of
    one group. *)
Definition summarise (c : UUID) (rows : list (Unread * Message))
  : UserUnreadChannel :=
  let g := filter (fun p => N.eqb (ChannelID (snd p)) c) rows in
  let times := map (fun p => CreatedAt (snd p)) g in
  mkUserUnreadChannel c (List.length g)
    (existsb (fun p => ur_Noticeable (fst p)) g)
    (match times with [] => zeroTime | t :: ts => fold_right Z.min t ts end)
    (match times with [] => zeroTime | t :: ts => fold_right Z.max t ts end).

Definition unreadChannels (userID : UUID) (d : DB) : list UserUnreadChannel :=
  let rows := unreadJoin userID d in
  map (fun c => summarise c rows)
      (groupKeys (map (fun p => ChannelID (snd p)) rows)).

Definition GetUserUnreadChannels (userID : UUID)
  : World -> (list UserUnreadChannel * option error) * World :=
  fun w =>
    if N.eqb userID uuid_Nil then (([], None), w)
    else
      scanInto []
        (exec SELECT TUnreads (fun _ d => (Ok (unreadChannels userID d), d))) w.

(** The markers DELETE unreads FROM unreads INNER JOIN messages ON
    unreads.user_id = ? AND unreads.message_id = messages.id WHERE
    messages.channel_id = ? removes. *)
Definition unreadInChannel (d : DB) (channelID userID : UUID) (u : Unread)
  : bool :=
  N.eqb (ur_UserID u) userID
  && existsb (fun m => N.eqb (ur_MessageID u) (ID m)
                       && N.eqb (ChannelID m) channelID)
             (messages d).

(** The result is RowsAffected. *)
Definition deleteUnreadsOfChannel (channelID userID : UUID) : M nat :=
  exec DELETE TUnreads (fun _ d =>
    (Ok (List.length
           (filter (unreadInChannel d channelID userID) (unreads d))),
     with_unreads d
       (filter (fun u => negb (unreadInChannel d channelID userID u))
               (unreads d)))).

Definition DeleteUnreadsByChannelID (channelID userID : UUID) : M unit :=
  if N.eqb channelID uuid_Nil || N.eqb userID uuid_Nil then fail ErrNilID
  else
    rowsAffected <- deleteUnreadsOfChannel channelID userID ;;
    if Nat.ltb 0 rowsAffected
    then hubPublish (ChannelRead channelID userID rowsAffected)
    else ret tt.

(** ** The older revision, [src/repository/message_impl.go] *)

Module Legacy.

(** Modelled from the spec: [repo.transact] is defined elsewhere in package
    [repository]; the spec has every mutating operation wrapped in exactly
    one transaction that is rolled back on error, which is what
    [db.Transaction] does. *)
Definition transact {A} (body : M A) : M A := Transaction body.

Definition UpdateMessage_tx (messageID : UUID) (text : string)
  : M (Message * Message * bool) :=
  old <- mapErr (fun e => match e with
                          | ErrRecordNotFound => ErrNotFound
                          | _ => e
                          end)
                (firstMessage messageID) ;;
  (* archiving *)
  aid <- NewV4 ;;
  insertArchived
    (mkArchivedMessage aid (ID old) (UserID old) (Text old) (UpdatedAt old)) ;;;
  (* update *)
  updateMessageText (ID old) text ;;;
  new <- firstMessage messageID ;;
  ret (old, new, true).

Definition UpdateMessage (messageID : UUID) (text : string) : M unit :=
  if N.eqb messageID uuid_Nil then fail ErrNilID
  else if Nat.eqb (String.length text) 0 then fail ErrTextEmpty
  else
    fun w =>
      match transact (UpdateMessage_tx messageID text) w with
      | (Err e, w1) => (Err e, w1)
      | (Ok (_, new, ok), w1) =>
          if ok then hubPublish (MessageUpdated messageID new) w1
          else (Ok tt, w1)
      end.

Definition GetMessageByID (messageID : UUID) : M Message :=
  if N.eqb messageID uuid_Nil then fail ErrNotFound
  else
    mapErr (fun e => match e with
                     | ErrRecordNotFound => ErrNotFound
                     | _ => e
                     end)
           (firstMessage messageID).

(** [db.FirstOrCreate(&u, &model.Unread{...})] of jinzhu/gorm: a SELECT, and
    an INSERT when it finds nothing. *)
Definition firstOrCreateUnread (userID messageID : UUID) : M Unread :=
  fun w =>
    match firstUnread userID messageID w with
    | (Err ErrRecordNotFound, w1) =>
        (insertUnread (mkUnread userID messageID false) ;;;
         ret (mkUnread userID messageID false)) w1
    | r => r
    end.

Definition SetMessageUnread (userID messageID : UUID) : M unit :=
  if N.eqb userID uuid_Nil || N.eqb messageID uuid_Nil then fail ErrNilID
  else firstOrCreateUnread userID messageID ;;; ret tt.

Definition DeleteUnreadsByMessageID (messageID : UUID) : M unit :=
  if N.eqb messageID uuid_Nil then fail ErrNilID
  else deleteUnreads messageID.

(** WHERE message_id = ? ORDER BY date_time *)
Definition archivedRows (messageID : UUID) (d : DB) : list ArchivedMessage :=
  sortBy (fun a b => Z.leb (am_DateTime a) (am_DateTime b))
         (filter (fun a => N.eqb (am_MessageID a) messageID)
                 (archived_messages d)).

Definition GetArchivedMessagesByID (messageID : UUID)
  : World -> (list ArchivedMessage * option error) * World :=
  fun w =>
    if N.eqb messageID uuid_Nil then (([], None), w)
    else
      scanInto []
        (exec SELECT TArchived (fun _ d => (Ok (archivedRows messageID d), d)))
        w.

End Legacy.

(** ** Vocabulary of the statements below *)

(** The next [k] round-trips to the engine succeed. *)
Definition reliable (w : World) (k : nat) : Prop :=
  forall i, i < k -> fault (env w) (tick w + i) = None.

(** A message is readable: present and not soft-deleted. *)
Definition readable (d : DB) (id : UUID) : bool :=
  existsb (fun m => hasID id m && live m) (messages d).

(** The pointer of channel [c] designates message [id] created at [t]: the
    channel has a row, and every row it has says so. *)
Definition latestPointer (d : DB) (c id : UUID) (t : Time) : Prop :=
  (exists r, In r (channel_latest_messages d) /\ clm_ChannelID r = c)
  /\ forall r, In r (channel_latest_messages d) -> clm_ChannelID r = c ->
               clm_MessageID r = id /\ clm_DateTime r = t.

(** What a method added to the log. *)
Definition appended (w w' : World) (l : list Action) : Prop :=
  log w' = log w ++ l.

(** A channel [latestPerChannel] can report for [userID]. *)
Definition reportable (d : DB) (userID : UUID) (subscribeOnly : bool)
           (c : Channel) : bool :=
  match ch_DeletedAt c with None => true | Some _ => false end
  && ch_IsPublic c
  && (if subscribeOnly then forcedOrSubscribed d userID c else true).

(** Sequences of reaction operations, results dropped. *)
Inductive StampOp : Type :=
| AddStamp (messageID stampID userID : UUID) (count : Z)
| RemoveStamp (messageID stampID userID : UUID).

Definition runStampOp (o : StampOp) (w : World) : World :=
  match o with
  | AddStamp m s u n => snd (AddStampToMessage m s u n w)
  | RemoveStamp m s u => snd (RemoveStampFromMessage m s u w)
  end.

Definition runStampOps (ops : list StampOp) (w : World) : World :=
  fold_left (fun w o => runStampOp o w) ops w.

Definition nonnegDelta (o : StampOp) : Prop :=
  match o with
  | AddStamp _ _ _ n => (0 <= n)%Z
  | RemoveStamp _ _ _ => True
  end.

Definition countsNonneg (d : DB) : Prop :=
  Forall (fun s => (0 <= ms_Count s)%Z) (messages_stamps d).

(** ** Sample worlds *)

Definition calmEnv : Env :=
  mkEnv (fun k => Pos.of_succ_nat (k + 100))
        (fun k => Pos.of_succ_nat (k + 1000))
        (fun _ => None)
        (fun _ => []).

(** The engine fails on the round-trip numbered [k]. *)
Definition faultyEnv (k : nat) : Env :=
  mkEnv (fun k => Pos.of_succ_nat (k + 100))
        (fun k => Pos.of_succ_nat (k + 1000))
        (fun i => if Nat.eqb i k then Some 7 else None)
        (fun _ => []).

Definition publicChannel : Channel := mkChannel 2%N true false None.

Definition sampleDB : DB :=
  mkDB [mkMessage 5%N 1%N 2%N "hi" 10%Z 10%Z None] [] [] [] [] [] []
       [publicChannel] [].

Definition emptyWorld : World := mkWorld emptyDB [] 0 0 calmEnv.
Definition sampleWorld : World := mkWorld sampleDB [] 0 0 calmEnv.
Definition channelWorld : World :=
  mkWorld (mkDB [] [] [] [] [] [] [] [publicChannel] []) [] 0 0 calmEnv.

(** A computation that publishes nothing and leaves the environment alone:
    whatever it appends to the log holds no [Publish]. *)
Definition quiet {A} (c : M A) : Prop :=
  forall w r w', c w = (r, w') ->
    env w' = env w /\ exists l, appended w w' l /\ events l = [].

(** A method that publishes only once its transaction is committed: when it
    returns an error nothing was published and the tables are as before;
    when it succeeds, everything it published comes after the COMMIT, and
    nothing but publications follows the COMMIT. *)
Definition publishesAfterCommit {A} (op : M A) : Prop :=
  forall w r w', op w = (r, w') ->
    exists l, appended w w' l
      /\ match r with
         | Err _ => events l = [] /\ db w' = db w
         | Ok _ => exists pre evs,
                     l = pre ++ Commit :: map Publish evs /\ events pre = []
         end.

(** The error of the transaction [tx] is what the method [op] returns, in
    the world the transaction left. *)
Definition returnsTxError {A B} (tx : M A) (op : M B) (w0 w : World) : Prop :=
  forall e w1, Transaction tx w0 = (Err e, w1) ->
    op w = (Err e, w1) /\ published w1 = published w.

Definition faultyWorld (k : nat) : World := mkWorld sampleDB [] 0 0 (faultyEnv k).

(** From [w] to [w'] the process logged [l] and made [k] round-trips; the
    environment and the count of drawn identifiers are the same. *)
Definition advanced (l : list Action) (k : nat) (w w' : World) : Prop :=
  log w' = log w ++ l /\ tick w' = k + tick w /\ env w' = env w
  /\ drawn w' = drawn w.

(** The sample message with an unread marker, a pin and a clip on it, and an
    unread marker on another message. *)
Definition busyWorld : World :=
  mkWorld
    (mkDB [mkMessage 5%N 1%N 2%N "hi" 10%Z 10%Z None] [] []
          [mkUnread 1%N 5%N false; mkUnread 1%N 6%N false]
          [mkPin 9%N 5%N] [mkClipFolderMessage 8%N 5%N] []
          [publicChannel] [])
    [] 0 0 calmEnv.

(** Three messages in the public channel, and a page of two, newest first. *)
Definition threeWorld : World :=
  mkWorld
    (mkDB [mkMessage 5%N 1%N 2%N "a" 10%Z 10%Z None;
           mkMessage 6%N 1%N 2%N "b" 20%Z 20%Z None;
           mkMessage 7%N 1%N 2%N "c" 30%Z 30%Z None]
          [] [] [] [] [] [] [publicChannel] [])
    [] 0 0 calmEnv.

Definition pageQuery : MessagesQuery :=
  mkMessagesQuery uuid_Nil 2%N uuid_Nil None None false 2%Z 0%Z false false
                  false.

(** What [GetChannelLatestMessagesByUserID] returns when no limit is given
    and the engine answers. *)
Definition latestQuery (userID : UUID) (subscribeOnly : bool) (d : DB)
  : list Message :=
  map snd
      (sortBy (fun a b => Z.leb (clm_DateTime (fst b)) (clm_DateTime (fst a)))
              (latestRows d userID subscribeOnly)).

(** The messages the SELECT reports through the pointer of channel [c]. *)
Definition reportedFor (d : DB) (userID : UUID) (subscribeOnly : bool)
           (c : UUID) : list Message :=
  map snd
      (filter (fun p => N.eqb (clm_ChannelID (fst p)) c)
              (latestRows d userID subscribeOnly)).

(** The scenario of the latest-message pointer in the public channel: two
    messages are posted, the second is deleted, a third is posted. *)
Definition scene1 : World := snd (CreateMessage 1%N 2%N "one" channelWorld).
Definition scene2 : World := snd (CreateMessage 1%N 2%N "two" scene1).
Definition scene3 : World := snd (DeleteMessage 102%N scene2).
Definition scene4 : World := snd (CreateMessage 1%N 2%N "three" scene3).

(** ** Vocabulary of the further properties *)

(** The same query asked from another offset. *)
Definition withOffset (q : MessagesQuery) (offset : Z) : MessagesQuery :=
  mkMessagesQuery (q_User q) (q_Channel q) (q_ChannelsSubscribedByUser q)
                  (q_Since q) (q_Until q) (q_Inclusive q) (q_Limit q) offset
                  (q_Asc q) (q_ExcludeDMs q) (q_DisablePreload q).

(** A store with one reaction of user 3 with stamp 2 on message 1. *)
Definition stampedWorld : World :=
  mkWorld (mkDB [] [] [] [] [] []
                [mkMessageStamp 1%N 2%N 3%N 2%Z 50%Z 60%Z] [] [])
          [] 0 0 calmEnv.

(** The empty store of a deployment whose parser finds one citation in
    every text. *)
Definition citingWorld : World :=
  mkWorld emptyDB [] 0 0
          (mkEnv (fun k => Pos.of_succ_nat (k + 100))
                 (fun k => Pos.of_succ_nat (k + 1000))
                 (fun _ => None)
                 (fun _ => [9%N])).


(** Two stores hold the same rows, in whatever order the engine scans
    them, as far as [GetMessages] looks. *)
Definition sameRows (d d' : DB) : Prop :=
  Permutation (messages d) (messages d')
  /\ Permutation (channels d) (channels d')
  /\ Permutation (users_subscribe_channels d) (users_subscribe_channels d').

(** The store of [threeWorld], scanned in another order. *)
Definition threeWorldRescanned : World :=
  mkWorld
    (mkDB [mkMessage 6%N 1%N 2%N "b" 20%Z 20%Z None;
           mkMessage 7%N 1%N 2%N "c" 30%Z 30%Z None;
           mkMessage 5%N 1%N 2%N "a" 10%Z 10%Z None]
          [] [] [] [] [] [] [publicChannel] [])
    [] 0 0 calmEnv.

(** * Properties *)

(** ** Reasoning about the monad *)

Lemma events_app (l1 l2 : list Action) :
  events (l1 ++ l2) = events l1 ++ events l2.
Proof.
  induction l1 as [|a l1 IH]; simpl; [reflexivity|].
  destruct a; simpl; rewrite ?IH; reflexivity.
Qed.

Lemma events_Publish (evs : list Event) : events (map Publish evs) = evs.
Proof. induction evs; simpl; congruence. Qed.

Lemma appended_published w w' l :
  appended w w' l -> published w' = published w ++ events l.
Proof. unfold appended, published. intros ->. apply events_app. Qed.

Lemma run_eq {B} (c : World -> B * World) w r :
  fst (c w) = r -> c w = (r, snd (c w)).
Proof. intros <-. apply surjective_pairing. Qed.

Lemma bind_Ok {A B} (c : M A) (k : A -> M B) w b w' :
  bind c k w = (Ok b, w') ->
  exists a w1, c w = (Ok a, w1) /\ k a w1 = (Ok b, w').
Proof.
  unfold bind. destruct (c w) as [[a|e] w1]; intros H.
  - exists a, w1. split; [reflexivity | exact H].
  - discriminate.
Qed.

Lemma mapErr_Ok {A} f (c : M A) w a w' :
  mapErr f c w = (Ok a, w') -> c w = (Ok a, w').
Proof.
  unfold mapErr. destruct (c w) as [[x|e] w1]; intros H; congruence.
Qed.

Lemma exec_Ok {A} v t (run : Time -> DB -> Result A * DB) w a w' :
  exec v t run w = (Ok a, w') ->
  fault (env w) (tick w) = None
  /\ exists d, run (now w) (db w) = (Ok a, d)
              /\ w' = with_db (next_tick (record (Stmt v t) w)) d.
Proof.
  unfold exec. destruct (fault (env w) (tick w)); [discriminate|].
  destruct (run (now w) (db w)) as [[x|e] d]; intros H; inversion H; subst.
  split; [reflexivity|]. exists d. split; reflexivity.
Qed.

Lemma exec_reliable {A} v t (run : Time -> DB -> Result A * DB) w :
  fault (env w) (tick w) = None ->
  exec v t run w =
  match run (now w) (db w) with
  | (Ok a, d) => (Ok a, with_db (next_tick (record (Stmt v t) w)) d)
  | (Err e, _) => (Err e, next_tick (record (Stmt v t) w))
  end.
Proof. unfold exec. intros ->. reflexivity. Qed.

Lemma Transaction_Ok {A} (body : M A) w a w' :
  Transaction body w = (Ok a, w') ->
  fault (env w) (tick w) = None
  /\ exists w1, body (next_tick (record Begin w)) = (Ok a, w1)
               /\ fault (env w1) (tick w1) = None
               /\ w' = next_tick (record Commit w1).
Proof.
  unfold Transaction. destruct (fault (env w) (tick w)); [discriminate|].
  destruct (body _) as [[x|e] w1]; [|discriminate].
  destruct (fault (env w1) (tick w1)) eqn:F; [discriminate|].
  intros H; inversion H; subst. split; [reflexivity|].
  exists w1. repeat split; assumption.
Qed.

(** *** Quiet computations *)

Lemma quiet_ret {A} (a : A) : quiet (ret a).
Proof.
  intros w r w' H. inversion H; subst. split; [reflexivity|].
  exists []. unfold appended. rewrite app_nil_r. split; reflexivity.
Qed.

Lemma quiet_fail {A} e : quiet (@fail A e).
Proof.
  intros w r w' H. inversion H; subst. split; [reflexivity|].
  exists []. unfold appended. rewrite app_nil_r. split; reflexivity.
Qed.

Lemma quiet_NewV4 : quiet NewV4.
Proof.
  intros w r w' H. inversion H; subst. split; [reflexivity|].
  exists []. unfold appended. simpl. rewrite app_nil_r. split; reflexivity.
Qed.

Lemma quiet_exec {A} v t (run : Time -> DB -> Result A * DB) : quiet (exec v t run).
Proof.
  intros w r w' H. unfold exec in H.
  assert (E : env w' = env w /\ log w' = log w ++ [Stmt v t]).
  { destruct (fault (env w) (tick w)).
    - inversion H; subst. split; reflexivity.
    - destruct (run (now w) (db w)) as [[x|e] d]; inversion H; subst;
        split; reflexivity. }
  destruct E as [E1 E2]. split; [exact E1|].
  exists [Stmt v t]. split; [exact E2 | reflexivity].
Qed.

Lemma quiet_bind {A B} (c : M A) (k : A -> M B) :
  quiet c -> (forall a, quiet (k a)) -> quiet (bind c k).
Proof.
  intros Hc Hk w r w' H. unfold bind in H.
  destruct (c w) as [[a|e] w1] eqn:E.
  - destruct (Hc _ _ _ E) as [E1 [l1 [L1 P1]]].
    destruct (Hk a _ _ _ H) as [E2 [l2 [L2 P2]]].
    split; [congruence|]. exists (l1 ++ l2). unfold appended in *.
    rewrite L2, L1, app_assoc, events_app, P1, P2. split; reflexivity.
  - inversion H; subst. exact (Hc _ _ _ E).
Qed.

Lemma quiet_mapErr {A} f (c : M A) : quiet c -> quiet (mapErr f c).
Proof.
  intros Hc w r w' H. unfold mapErr in H.
  destruct (c w) as [[a|e] w1] eqn:E; inversion H; subst; exact (Hc _ _ _ E).
Qed.

Ltac quiet_body :=
  repeat first [ apply quiet_bind; [|intro] | apply quiet_mapErr
               | apply quiet_exec | apply quiet_ret | apply quiet_NewV4
               | apply quiet_fail ].

Lemma quiet_CreateMessage_tx m : quiet (CreateMessage_tx m).
Proof. unfold CreateMessage_tx, insertMessage, upsertLatest. quiet_body. Qed.

Lemma quiet_UpdateMessage_tx id text : quiet (UpdateMessage_tx id text).
Proof.
  unfold UpdateMessage_tx, firstMessage, insertArchived, updateMessageText.
  quiet_body.
Qed.

Lemma quiet_DeleteMessage_tx id : quiet (DeleteMessage_tx id).
Proof.
  unfold DeleteMessage_tx, firstMessage, findUnreads, softDeleteMessage,
    deleteUnreads, deletePins, deleteClips.
  quiet_body.
Qed.

(** A transaction over a quiet body publishes nothing; it leaves the tables
    untouched when it fails and ends on COMMIT when it succeeds. *)
Lemma Transaction_outcome {A} (body : M A) w r w' :
  quiet body ->
  Transaction body w = (r, w') ->
  env w' = env w
  /\ exists l, appended w w' l /\ events l = []
              /\ match r with
                 | Err _ => db w' = db w
                 | Ok _ => exists pre, l = pre ++ [Commit]
                 end.
Proof.
  intros Q H. unfold Transaction in H.
  destruct (fault (env w) (tick w)).
  { inversion H; subst. split; [reflexivity|]. exists [].
    unfold appended. simpl. rewrite app_nil_r. auto. }
  destruct (body _) as [[a|e] w1] eqn:E;
    destruct (Q _ _ _ E) as [E1 [l [L P]]]; unfold appended in L; simpl in *.
  - destruct (fault (env w1) (tick w1)); inversion H; subst; simpl.
    + split; [exact E1|]. exists ((Begin :: l) ++ [Rollback]).
      unfold appended; simpl. rewrite L, <- !app_assoc. simpl.
      rewrite events_app, P. auto.
    + split; [exact E1|]. exists ((Begin :: l) ++ [Commit]).
      unfold appended; simpl. rewrite L, <- !app_assoc. simpl.
      rewrite events_app, P. split; [reflexivity|]. split; [reflexivity|].
      exists (Begin :: l). reflexivity.
  - inversion H; subst; simpl. split; [exact E1|].
    exists ((Begin :: l) ++ [Rollback]).
    unfold appended; simpl. rewrite L, <- !app_assoc. simpl.
    rewrite events_app, P. auto.
Qed.

(** ** Publication follows the commit *)

Lemma appended_nil w : appended w w [].
Proof. unfold appended. now rewrite app_nil_r. Qed.

Lemma CreateMessage_publishesAfterCommit u c t :
  publishesAfterCommit (CreateMessage u c t).
Proof.
  intros w r w' H. unfold CreateMessage in H.
  destruct (N.eqb u uuid_Nil || N.eqb c uuid_Nil).
  { inversion H; subst. exists []. split; [apply appended_nil | auto]. }
  unfold bind at 1 in H. simpl in H.
  match type of H with
  | context [Transaction ?b ?w0] => destruct (Transaction b w0) as [[m|e] w1] eqn:T
  end;
    destruct (Transaction_outcome _ _ _ _ (quiet_CreateMessage_tx _) T)
      as [E [l [L [P R]]]]; unfold appended in L; simpl in L.
  - destruct R as [pre ->].
    unfold bind, hubPublish, ret in H.
    destruct (Nat.ltb 0 (List.length (Parse (env w1) t))); inversion H; subst.
    + exists (pre ++ Commit ::
              map Publish [MessageCreated (ID m) m (Parse (env w1) t);
                           MessageCited (ID m) m (Parse (env w1) t)]).
      split.
      * unfold appended; simpl. rewrite L, <- !app_assoc. reflexivity.
      * eexists _, _. split; [reflexivity|].
        rewrite events_app in P. apply app_eq_nil in P. tauto.
    + exists (pre ++ Commit ::
              map Publish [MessageCreated (ID m) m (Parse (env w1) t)]).
      split.
      * unfold appended; simpl. rewrite L, <- !app_assoc. reflexivity.
      * eexists _, _. split; [reflexivity|].
        rewrite events_app in P. apply app_eq_nil in P. tauto.
  - inversion H; subst. exists l. split; [exact L | auto].
Qed.

Lemma UpdateMessage_publishesAfterCommit id text :
  publishesAfterCommit (UpdateMessage id text).
Proof.
  intros w r w' H. unfold UpdateMessage in H.
  destruct (N.eqb id uuid_Nil).
  { inversion H; subst. exists []. split; [apply appended_nil | auto]. }
  destruct (Transaction (UpdateMessage_tx id text) w) as [[[old new]|e] w1] eqn:T;
    destruct (Transaction_outcome _ _ _ _ (quiet_UpdateMessage_tx _ _) T)
      as [E [l [L [P R]]]]; unfold appended in L.
  - destruct R as [pre ->]. inversion H; subst.
    exists (pre ++ Commit :: map Publish [MessageUpdated id new]). split.
    + unfold appended; simpl. rewrite L, <- !app_assoc. reflexivity.
    + eexists _, _. split; [reflexivity|].
      rewrite events_app in P. apply app_eq_nil in P. tauto.
  - inversion H; subst. exists l. split; [exact L | auto].
Qed.

Lemma DeleteMessage_publishesAfterCommit id :
  publishesAfterCommit (DeleteMessage id).
Proof.
  intros w r w' H. unfold DeleteMessage in H.
  destruct (N.eqb id uuid_Nil).
  { inversion H; subst. exists []. split; [apply appended_nil | auto]. }
  destruct (Transaction (DeleteMessage_tx id) w) as [[[m us]|e] w1] eqn:T;
    destruct (Transaction_outcome _ _ _ _ (quiet_DeleteMessage_tx _) T)
      as [E [l [L [P R]]]]; unfold appended in L.
  - destruct R as [pre ->]. inversion H; subst.
    exists (pre ++ Commit :: map Publish [MessageDeleted id us]). split.
    + unfold appended; simpl. rewrite L, <- !app_assoc. reflexivity.
    + eexists _, _. split; [reflexivity|].
      rewrite events_app in P. apply app_eq_nil in P. tauto.
  - inversion H; subst. exists l. split; [exact L | auto].
Qed.

Lemma Transaction_error_silent {A} (body : M A) w e w1 :
  quiet body -> Transaction body w = (Err e, w1) -> published w1 = published w.
Proof.
  intros Q T. destruct (Transaction_outcome _ _ _ _ Q T) as [_ [l [L [P _]]]].
  rewrite (appended_published _ _ _ L), P. apply app_nil_r.
Qed.

(** C2. For create, update and delete of a message: when the enclosing
    transaction returns an error, the method returns that very error and the
    hub has received nothing; whatever a method publishes, it publishes
    after the COMMIT of its transaction, and a method that fails leaves the
    tables as they were. *)
Theorem mutations_publish_only_after_commit :
  (forall u c t,
      publishesAfterCommit (CreateMessage u c t)
      /\ forall w id w0,
          u <> uuid_Nil -> c <> uuid_Nil -> NewV4 w = (Ok id, w0) ->
          returnsTxError
            (CreateMessage_tx (mkMessage id u c t zeroTime zeroTime None))
            (CreateMessage u c t) w0 w)
  /\ (forall id text,
      publishesAfterCommit (UpdateMessage id text)
      /\ forall w, id <> uuid_Nil ->
                   returnsTxError (UpdateMessage_tx id text)
                                  (UpdateMessage id text) w w)
  /\ (forall id,
      publishesAfterCommit (DeleteMessage id)
      /\ forall w, id <> uuid_Nil ->
                   returnsTxError (DeleteMessage_tx id) (DeleteMessage id) w w).
Proof.
  split; [|split].
  - intros u c t. split; [apply CreateMessage_publishesAfterCommit|].
    intros w id w0 Hu Hc N e w1 T. unfold CreateMessage.
    apply N.eqb_neq in Hu, Hc. rewrite Hu, Hc. simpl.
    unfold bind at 1. rewrite N, T. split; [reflexivity|].
    rewrite (Transaction_error_silent _ _ _ _ (quiet_CreateMessage_tx _) T).
    inversion N; subst. reflexivity.
  - intros id text. split; [apply UpdateMessage_publishesAfterCommit|].
    intros w Hid e w1 T. unfold UpdateMessage.
    apply N.eqb_neq in Hid. rewrite Hid, T. split; [reflexivity|].
    exact (Transaction_error_silent _ _ _ _ (quiet_UpdateMessage_tx _ _) T).
  - intros id. split; [apply DeleteMessage_publishesAfterCommit|].
    intros w Hid e w1 T. unfold DeleteMessage.
    apply N.eqb_neq in Hid. rewrite Hid, T. split; [reflexivity|].
    exact (Transaction_error_silent _ _ _ _ (quiet_DeleteMessage_tx _) T).
Qed.

(** With the engine failing on the UPDATE of an edit, the edit returns the
    engine's error, the hub stays empty and the tables are as before. *)
Lemma mutations_publish_only_after_commit_witness :
  let r := UpdateMessage 5%N "bye" (faultyWorld 3) in
  fst r = Err (ErrStorage 7)
  /\ published (snd r) = published (faultyWorld 3)
  /\ db (snd r) = db (faultyWorld 3).
Proof.
  pose proof (proj1 (proj2 mutations_publish_only_after_commit) 5%N "bye") as [P R].
  assert (Hid : 5%N <> uuid_Nil) by discriminate.
  destruct (R (faultyWorld 3) Hid (ErrStorage 7)
              (snd (Transaction (UpdateMessage_tx 5%N "bye") (faultyWorld 3)))
              eq_refl) as [E S].
  cbv zeta. rewrite E. simpl fst. simpl snd.
  split; [reflexivity|]. split; [exact S|]. reflexivity.
Defined.

(** ** Reading a nil id *)

(** C10. [GetMessageByID] answers the nil id with [ErrNotFound], not
    [ErrNilID], and does so before any round-trip: the world it returns
    is the world it was given.  Both revisions agree. *)
Theorem GetMessageByID_nil_is_NotFound :
  forall w,
    GetMessageByID uuid_Nil w = (Err ErrNotFound, w)
    /\ Legacy.GetMessageByID uuid_Nil w = (Err ErrNotFound, w)
    /\ ErrNotFound <> ErrNilID.
Proof. intros w. repeat split. discriminate. Qed.

(** ** Reading one message *)

Lemma reliable_3 w :
  reliable w 3 ->
  fault (env w) (tick w) = None /\ fault (env w) (S (tick w)) = None
  /\ fault (env w) (S (S (tick w))) = None.
Proof.
  intros R.
  pose proof (R 0 ltac:(lia)) as R0. pose proof (R 1 ltac:(lia)) as R1.
  pose proof (R 2 ltac:(lia)) as R2.
  rewrite Nat.add_0_r in R0.
  replace (tick w + 1) with (S (tick w)) in R1 by lia.
  replace (tick w + 2) with (S (S (tick w))) in R2 by lia.
  auto.
Qed.

(** The preloads, when the engine answers them, change nothing but the log
    of statements. *)
Lemma messagePreloads_reliable found w :
  fault (env w) (tick w) = None -> fault (env w) (S (tick w)) = None ->
  exists w',
    messagePreloads found w = (Ok tt, w')
    /\ db w' = db w /\ published w' = published w /\ env w' = env w.
Proof.
  intros F0 F1. destruct found as [|m found]; simpl.
  - exists w. auto.
  - unfold bind, preload. rewrite (exec_reliable _ _ _ _ F0).
    rewrite exec_reliable by exact F1.
    eexists. split; [reflexivity|]. repeat split.
    unfold published. simpl. rewrite !events_app. simpl.
    rewrite !app_nil_r. reflexivity.
Qed.

(** A preload that fails passes its error on and publishes nothing. *)
Lemma messagePreloads_outcome found w r w' :
  messagePreloads found w = (r, w') ->
  db w' = db w /\ published w' = published w /\ env w' = env w
  /\ exists l, log w' = log w ++ l
               /\ Forall (fun a => exists t, a = Stmt SELECT t) l.
Proof.
  destruct found as [|m found]; simpl.
  - intros H. injection H as <- <-. repeat split. exists [].
    split; [symmetry; apply app_nil_r | constructor].
  - unfold bind, preload, exec.
    destruct (fault (env w) (tick w)) as [c|].
    + intros H. injection H as <- <-. repeat split.
      * unfold published. simpl. rewrite events_app. simpl. apply app_nil_r.
      * exists [Stmt SELECT TStamps]. split; [reflexivity|].
        repeat constructor. eexists. reflexivity.
    + simpl.
      destruct (fault (env w) (S (tick w))) as [c|];
        intros H; injection H as <- <-; repeat split;
        try (unfold published; simpl; rewrite !events_app; simpl;
             rewrite !app_nil_r; reflexivity);
        (exists [Stmt SELECT TStamps; Stmt SELECT TPins];
         split; [simpl; rewrite <- app_assoc; reflexivity
                |repeat constructor; eexists; reflexivity]).
Qed.

(** A readable message is returned as stored when the engine answers the
    query and its two preloads. *)
Lemma GetMessageByID_found id m w :
  id <> uuid_Nil ->
  find (fun x => hasID id x && live x) (messages (db w)) = Some m ->
  reliable w 3 ->
  exists w',
    GetMessageByID id w = (Ok m, w')
    /\ db w' = db w /\ published w' = published w.
Proof.
  intros Hid Fm R. apply reliable_3 in R. destruct R as (F0 & F1 & F2).
  apply N.eqb_neq in Hid. unfold GetMessageByID. rewrite Hid.
  unfold mapErr, bind at 1, firstMessage.
  rewrite (exec_reliable _ _ _ _ F0), Fm.
  destruct (messagePreloads_reliable [m]
              (with_db (next_tick (record (Stmt SELECT TMessages) w)) (db w)))
    as (w' & P & D & Pb & _); [exact F1 | exact F2 |].
  unfold bind. rewrite P. unfold ret.
  exists w'. split; [reflexivity|]. split; [exact D|].
  rewrite Pb. unfold published. simpl. rewrite events_app. simpl.
  apply app_nil_r.
Qed.

(** ** Create, then read *)

Lemma find_app_fresh {A} (p : A -> bool) l x :
  existsb p l = false -> find p (l ++ [x]) = if p x then Some x else None.
Proof.
  induction l as [|y l IH]; simpl; [reflexivity|].
  destruct (p y); simpl; [discriminate | exact IH].
Qed.

Lemma publish_tail_db (m : Message) (cs : list UUID) w r w' :
  (bind (hubPublish (MessageCreated (ID m) m cs))
     (fun _ => bind (if Nat.ltb 0 (List.length cs)
                     then hubPublish (MessageCited (ID m) m cs) else ret tt)
                 (fun _ => ret m))) w = (r, w') ->
  r = Ok m /\ db w' = db w /\ env w' = env w /\ tick w' = tick w
  /\ drawn w' = drawn w.
Proof.
  unfold bind, hubPublish, ret.
  destruct (Nat.ltb 0 (List.length cs)); intros H; inversion H; subst; simpl;
    auto.
Qed.

(** What a successful [CreateMessage] has done: the identifier was unused,
    the row sits at the end of the table, the pointer of the channel was
    upserted, and four round-trips were made (BEGIN, INSERT, upsert,
    COMMIT). *)
Lemma CreateMessage_Ok u c t w m w1 :
  CreateMessage u c t w = (Ok m, w1) ->
  u <> uuid_Nil /\ c <> uuid_Nil
  /\ (exists tm, m = mkMessage (N.pos (rand (env w) (drawn w))) u c t
                              (Z.pos tm) (Z.pos tm) None)
  /\ existsb (hasID (ID m)) (messages (db w)) = false
  /\ db w1 = with_latest (with_messages (db w) (messages (db w) ++ [m]))
               (upsertedLatest (mkChannelLatestMessage c (ID m) (CreatedAt m))
                               (channel_latest_messages (db w)))
  /\ env w1 = env w /\ tick w1 = 4 + tick w.
Proof.
  unfold CreateMessage.
  destruct (N.eqb u uuid_Nil) eqn:Hu; [discriminate|].
  destruct (N.eqb c uuid_Nil) eqn:Hc; [discriminate|].
  apply N.eqb_neq in Hu, Hc. simpl.
  unfold bind at 1. simpl.
  match goal with
  | |- context [Transaction ?b ?w0] =>
      destruct (Transaction b w0) as [[m0|e] w2] eqn:T
  end; [|discriminate].
  intros H. apply publish_tail_db in H. destruct H as (R & D & E & Tk & Dr).
  inversion R; subst m0. clear R.
  apply Transaction_Ok in T. destruct T as (F0 & w3 & B & F3 & ->).
  unfold CreateMessage_tx in B.
  apply bind_Ok in B. destruct B as (m' & w4 & I & B).
  apply bind_Ok in B. destruct B as ([] & w5 & U & B).
  inversion B; subst; clear B.
  apply exec_Ok in I. destruct I as (F1 & d1 & R1 & ->).
  apply exec_Ok in U. destruct U as (F2 & d2 & R2 & ->).
  simpl in *.
  destruct (existsb _ (messages (db w))) eqn:X; [discriminate|].
  inversion R1; subst; clear R1. simpl in *.
  split; [exact Hu|]. split; [exact Hc|].
  split. { eexists. unfold autoTime, zeroTime, now. simpl. reflexivity. }
  split; [exact X|].
  split. { injection R2 as D2. symmetry. exact D2. }
  split; [exact E|]. rewrite Tk. reflexivity.
Qed.

Lemma upsertedLatest_pointer row l :
  (exists r, In r (upsertedLatest row l) /\ clm_ChannelID r = clm_ChannelID row)
  /\ forall r, In r (upsertedLatest row l) ->
               clm_ChannelID r = clm_ChannelID row -> r = row.
Proof.
  unfold upsertedLatest.
  destruct (existsb _ l) eqn:X.
  - split.
    + apply existsb_exists in X. destruct X as (x & Hx & Ex).
      exists row. split; [|reflexivity].
      apply in_map_iff. exists x. rewrite Ex. auto.
    + intros r Hr Hc. apply in_map_iff in Hr. destruct Hr as (x & Hx & _).
      destruct (N.eqb (clm_ChannelID x) (clm_ChannelID row)) eqn:Ex;
        [congruence|].
      subst x. apply N.eqb_neq in Ex. contradiction.
  - split.
    + exists row. split; [apply in_or_app; right; left; reflexivity | reflexivity].
    + intros r Hr Hc. apply in_app_or in Hr. destruct Hr as [Hr|[Hr|[]]]; [|auto].
      exfalso.
      assert (existsb (fun x => N.eqb (clm_ChannelID x) (clm_ChannelID row)) l
              = true).
      { apply existsb_exists. exists r. split; [exact Hr|].
        apply N.eqb_eq. exact Hc. }
      congruence.
Qed.

Lemma CreateMessage_pointer u c t w m w1 :
  CreateMessage u c t w = (Ok m, w1) ->
  latestPointer (db w1) c (ID m) (CreatedAt m).
Proof.
  intros H. apply CreateMessage_Ok in H.
  destruct H as (_ & _ & _ & _ & D & _).
  unfold latestPointer. rewrite D. simpl.
  destruct (upsertedLatest_pointer
              (mkChannelLatestMessage c (ID m) (CreatedAt m))
              (channel_latest_messages (db w))) as [P1 P2]. simpl in *.
  split; [exact P1|].
  intros r Hr Hcr. rewrite (P2 r Hr Hcr). simpl. auto.
Qed.

(** C1. After a successful [CreateMessage u c t] that returned [m], a read
    of [ID m] that the engine answers (the query and its two preloads)
    returns [m] itself: its author is [u], its channel [c], its text [t],
    its creation time is not the zero time; and the latest-message pointer
    of channel [c] holds [ID m] and the creation time of [m]. *)
Theorem create_then_read u c t w m w1 :
  CreateMessage u c t w = (Ok m, w1) ->
  (reliable w1 3 ->
   exists m' w2, GetMessageByID (ID m) w1 = (Ok m', w2)
                 /\ UserID m' = u /\ ChannelID m' = c /\ Text m' = t
                 /\ CreatedAt m' <> zeroTime /\ m' = m)
  /\ latestPointer (db w1) c (ID m) (CreatedAt m).
Proof.
  intros H. split; [|exact (CreateMessage_pointer _ _ _ _ _ _ H)].
  apply CreateMessage_Ok in H.
  destruct H as (Hu & Hc & (tm & Hm) & X & D & E & Tk).
  intros R.
  assert (Hid : ID m <> uuid_Nil) by (rewrite Hm; discriminate).
  assert (Fm : find (fun x => hasID (ID m) x && live x) (messages (db w1))
               = Some m).
  { rewrite D. simpl. rewrite find_app_fresh.
    2:{ apply not_true_is_false. intros Y. apply existsb_exists in Y.
        destruct Y as (x & Hx & Px). apply andb_prop in Px.
        destruct Px as [Px _].
        assert (existsb (hasID (ID m)) (messages (db w)) = true)
          by (apply existsb_exists; eauto). congruence. }
    simpl. unfold hasID, live. rewrite N.eqb_refl, Hm. reflexivity. }
  destruct (GetMessageByID_found _ _ _ Hid Fm R) as (w2 & G & _).
  exists m, w2. split; [exact G|].
  rewrite Hm. simpl. repeat split; try reflexivity. discriminate.
Qed.

(** In the empty store, user 1 posts "hi" to channel 2 and reads it back. *)
Lemma create_then_read_witness :
  let m := mkMessage 101%N 1%N 2%N "hi" 1002%Z 1002%Z None in
  let w1 := snd (CreateMessage 1%N 2%N "hi" emptyWorld) in
  CreateMessage 1%N 2%N "hi" emptyWorld = (Ok m, w1)
  /\ (exists m' w2, GetMessageByID (ID m) w1 = (Ok m', w2) /\ Text m' = "hi")
  /\ latestPointer (db w1) 2%N (ID m) (CreatedAt m).
Proof.
  cbv zeta.
  assert (H : CreateMessage 1%N 2%N "hi" emptyWorld
              = (Ok (mkMessage 101%N 1%N 2%N "hi" 1002%Z 1002%Z None),
                 snd (CreateMessage 1%N 2%N "hi" emptyWorld)))
    by (apply run_eq; vm_compute; reflexivity).
  split; [exact H|].
  destruct (create_then_read _ _ _ _ _ _ H) as [R P].
  split; [|exact P].
  assert (F : reliable (snd (CreateMessage 1%N 2%N "hi" emptyWorld)) 3).
  { assert (E : env (snd (CreateMessage 1%N 2%N "hi" emptyWorld)) = calmEnv)
      by (vm_compute; reflexivity).
    intros i _. rewrite E. reflexivity. }
  destruct (R F) as (m' & w2 & G & _ & _ & T & _).
  exists m', w2. split; [exact G | exact T].
Defined.

(** ** Editing a message *)

Lemma find_map_same {A} (p : A -> bool) (f : A -> A) l x :
  (forall y, p (f y) = p y) ->
  find p l = Some x -> find p (map f l) = Some (f x).
Proof.
  intros Hp. induction l as [|y l IH]; simpl; [discriminate|].
  rewrite Hp. destruct (p y); [intros H; inversion H; reflexivity | exact IH].
Qed.

Lemma edited_keeps id id' text t m :
  hasID id' (edited id text t m) && live (edited id text t m)
  = hasID id' m && live m.
Proof. unfold edited. destruct (hasID id m && live m); reflexivity. Qed.

(** What a successful [UpdateMessage] has done, statement by statement. *)
Lemma UpdateMessage_Ok id text w w' :
  UpdateMessage id text w = (Ok tt, w') ->
  id <> uuid_Nil
  /\ exists old,
      find (fun m => hasID id m && live m) (messages (db w)) = Some old
      /\ ID old = id
      /\ let a := mkArchivedMessage (N.pos (rand (env w) (drawn w)))
                                    (ID old) (UserID old) (Text old)
                                    (UpdatedAt old) in
         let t := Z.pos (clock (env w) (3 + tick w)) in
         let new := edited (ID old) text t old in
         db w' = with_messages
                   (with_archived (db w) (archived_messages (db w) ++ [a]))
                   (map (edited (ID old) text t) (messages (db w)))
         /\ appended w w'
              [Begin; Stmt SELECT TMessages; Stmt INSERT TArchived;
               Stmt UPDATE TMessages; Stmt SELECT TMessages; Commit;
               Publish (MessageUpdated id new)].
Proof.
  unfold UpdateMessage.
  destruct (N.eqb id uuid_Nil) eqn:Hid; [discriminate|].
  apply N.eqb_neq in Hid.
  destruct (Transaction (UpdateMessage_tx id text) w) as [[[old new]|e] w1] eqn:T;
    [|discriminate].
  intros H. unfold hubPublish in H. injection H as <-.
  apply Transaction_Ok in T. destruct T as (F0 & w2 & B & F5 & ->).
  unfold UpdateMessage_tx in B.
  apply bind_Ok in B. destruct B as (old' & w3 & S1 & B).
  apply mapErr_Ok in S1.
  apply bind_Ok in B. destruct B as (aid & w4 & G & B).
  apply bind_Ok in B. destruct B as ([] & w5 & I & B).
  apply bind_Ok in B. destruct B as ([] & w6 & U & B).
  apply bind_Ok in B. destruct B as (new' & w7 & S2 & B).
  injection B as -> -> ->.
  apply exec_Ok in S1. destruct S1 as (F1 & d1 & R1 & ->).
  injection G as <- <-.
  apply exec_Ok in I. destruct I as (F2 & d2 & R2 & ->).
  apply exec_Ok in U. destruct U as (F3 & d3 & R3 & ->).
  apply exec_Ok in S2. destruct S2 as (F4 & d4 & R4 & ->).
  simpl in *.
  destruct (find _ (messages (db w))) as [o|] eqn:Fo; [|discriminate].
  injection R1 as -> <-.
  destruct (existsb _ (archived_messages (db w))); [discriminate|].
  injection R2 as <-. injection R3 as <-. simpl in R4.
  split; [exact Hid|]. exists old. split; [reflexivity|].
  assert (Ho : hasID id old && live old = true) by (apply (find_some _ _ Fo)).
  assert (Hio : ID old = id).
  { apply andb_prop in Ho. destruct Ho as [Ho _]. apply N.eqb_eq. exact Ho. }
  split; [exact Hio|].
  rewrite (find_map_same _ _ _ old) in R4.
  2:{ intros y. apply edited_keeps. }
  2:{ exact Fo. }
  injection R4 as <- <-.
  split; [reflexivity|].
  unfold appended. simpl. rewrite <- !app_assoc. reflexivity.
Qed.

Lemma edited_text id text t m :
  hasID id m && live m = true -> Text (edited id text t m) = text.
Proof. unfold edited. intros ->. reflexivity. Qed.

(** C3. A successful [UpdateMessage id text] adds exactly one row to
    archived_messages; that row refers to the message and carries the text,
    author and update time the message had before the call.  Between BEGIN
    and COMMIT the INSERT into the archive comes before the UPDATE of the
    message, and after the call the message reads back with the new text. *)
Theorem update_archives_previous_text id text w w' :
  UpdateMessage id text w = (Ok tt, w') ->
  exists old a new,
    find (fun m => hasID id m && live m) (messages (db w)) = Some old
    /\ archived_messages (db w') = archived_messages (db w) ++ [a]
    /\ am_MessageID a = id /\ am_UserID a = UserID old
    /\ am_Text a = Text old /\ am_DateTime a = UpdatedAt old
    /\ find (fun m => hasID id m && live m) (messages (db w')) = Some new
    /\ Text new = text
    /\ appended w w'
         [Begin; Stmt SELECT TMessages; Stmt INSERT TArchived;
          Stmt UPDATE TMessages; Stmt SELECT TMessages; Commit;
          Publish (MessageUpdated id new)].
Proof.
  intros H. apply UpdateMessage_Ok in H.
  destruct H as (Hid & old & Fo & Hio & D & L). cbv zeta in D, L.
  assert (Ho : hasID id old && live old = true) by (apply (find_some _ _ Fo)).
  eexists old, _, _. split; [exact Fo|].
  rewrite D. simpl.
  split; [reflexivity|]. split; [exact Hio|].
  split; [reflexivity|]. split; [reflexivity|]. split; [reflexivity|].
  split.
  { apply find_map_same; [intros y; apply edited_keeps | exact Fo]. }
  split; [|exact L].
  apply edited_text. rewrite Hio. exact Ho.
Qed.

(** The sample message "hi" is edited to "bye": the archive receives "hi". *)
Lemma update_archives_previous_text_witness :
  let w' := snd (UpdateMessage 5%N "bye" sampleWorld) in
  UpdateMessage 5%N "bye" sampleWorld = (Ok tt, w')
  /\ exists old a new,
      find (fun m => hasID 5%N m && live m) (messages (db sampleWorld)) = Some old
      /\ archived_messages (db w') = archived_messages (db sampleWorld) ++ [a]
      /\ am_Text a = Text old
      /\ find (fun m => hasID 5%N m && live m) (messages (db w')) = Some new
      /\ Text new = "bye".
Proof.
  cbv zeta.
  assert (H : UpdateMessage 5%N "bye" sampleWorld
              = (Ok tt, snd (UpdateMessage 5%N "bye" sampleWorld)))
    by (apply run_eq; vm_compute; reflexivity).
  split; [exact H|].
  destruct (update_archives_previous_text _ _ _ _ H)
    as (old & a & new & Fo & A & _ & _ & Ta & _ & Fn & Tn & _).
  exists old, a, new. repeat split; assumption.
Defined.

(** ** Empty text *)

(** The current revision edits the sample message to the empty text: the call
    succeeds, the message is rewritten, the archive grows and an event is
    published. *)
Lemma update_accepts_empty_text :
  let r := UpdateMessage 5%N "" sampleWorld in
  fst r = Ok tt
  /\ map Text (messages (db (snd r))) = [""]
  /\ map am_Text (archived_messages (db (snd r))) = ["hi"]
  /\ List.length (published (snd r)) = 1
  /\ db (snd r) <> db sampleWorld.
Proof.
  cbv zeta. repeat split; try (vm_compute; reflexivity).
  vm_compute. discriminate.
Qed.

(** C9, amended. The older revision rejects an empty text (and a nil id)
    before anything is sent to the engine, and returns the world as it was.
    The current revision rejects a nil id only; an update with the empty text
    that succeeds has archived the previous text and stored the empty one. *)
Theorem empty_text_rejected_by_older_revision_only :
  (forall id w,
      Legacy.UpdateMessage id "" w
      = (Err (if N.eqb id uuid_Nil then ErrNilID else ErrTextEmpty), w))
  /\ (forall text w, UpdateMessage uuid_Nil text w = (Err ErrNilID, w))
  /\ (forall id w w',
         UpdateMessage id "" w = (Ok tt, w') ->
         exists old a new,
           find (fun m => hasID id m && live m) (messages (db w)) = Some old
           /\ archived_messages (db w') = archived_messages (db w) ++ [a]
           /\ am_Text a = Text old
           /\ find (fun m => hasID id m && live m) (messages (db w')) = Some new
           /\ Text new = "").
Proof.
  split; [|split].
  - intros id w. unfold Legacy.UpdateMessage.
    destruct (N.eqb id uuid_Nil); reflexivity.
  - intros text w. reflexivity.
  - intros id w w' H. apply UpdateMessage_Ok in H.
    destruct H as (Hid & old & Fo & Hio & D & L). cbv zeta in D, L.
    assert (Ho : hasID id old && live old = true) by (apply (find_some _ _ Fo)).
    eexists old, _, _. split; [exact Fo|].
    rewrite D. simpl. split; [reflexivity|]. split; [reflexivity|].
    split.
    { apply find_map_same; [intros y; apply edited_keeps | exact Fo]. }
    apply edited_text. rewrite Hio. exact Ho.
Qed.

Lemma empty_text_rejected_by_older_revision_only_witness :
  let w' := snd (UpdateMessage 5%N "" sampleWorld) in
  Legacy.UpdateMessage 5%N "" sampleWorld = (Err ErrTextEmpty, sampleWorld)
  /\ UpdateMessage 5%N "" sampleWorld = (Ok tt, w')
  /\ exists new,
      find (fun m => hasID 5%N m && live m) (messages (db w')) = Some new
      /\ Text new = "".
Proof.
  cbv zeta.
  destruct empty_text_rejected_by_older_revision_only as (L & _ & C).
  split; [exact (L 5%N sampleWorld)|].
  assert (H : UpdateMessage 5%N "" sampleWorld
              = (Ok tt, snd (UpdateMessage 5%N "" sampleWorld)))
    by (apply run_eq; vm_compute; reflexivity).
  split; [exact H|].
  destruct (C _ _ _ H) as (old & a & new & _ & _ & _ & Fn & Tn).
  exists new. split; [exact Fn | exact Tn].
Defined.

(** ** Deleting a message *)

Lemma softDeleted_hidden id t m :
  hasID id (softDeleted id t m) && live (softDeleted id t m) = false.
Proof.
  unfold softDeleted. destruct (hasID id m && live m) eqn:E; [|exact E].
  unfold live. simpl. apply andb_false_r.
Qed.

Lemma find_none_of_existsb {A} (p : A -> bool) l :
  existsb p l = false -> find p l = None.
Proof.
  induction l as [|x l IH]; simpl; [reflexivity|].
  destruct (p x); simpl; [discriminate | exact IH].
Qed.

Lemma existsb_map_false {A} (p : A -> bool) (f : A -> A) l :
  (forall x, p (f x) = false) -> existsb p (map f l) = false.
Proof.
  intros H. induction l as [|x l IH]; simpl; [reflexivity|].
  rewrite H, IH. reflexivity.
Qed.

Lemma exec_Ok_advanced {A} v t (run : Time -> DB -> Result A * DB) w a w' :
  exec v t run w = (Ok a, w') ->
  run (Z.pos (clock (env w) (tick w))) (db w) = (Ok a, db w')
  /\ advanced [Stmt v t] 1 w w'.
Proof.
  intros H. apply exec_Ok in H. destruct H as (F & d & R & ->).
  split; [exact R|]. repeat split.
Qed.

Lemma Transaction_Ok_advanced {A} (body : M A) w a w' :
  Transaction body w = (Ok a, w') ->
  exists w0 w1,
    advanced [Begin] 1 w w0 /\ db w0 = db w
    /\ body w0 = (Ok a, w1)
    /\ advanced [Commit] 1 w1 w' /\ db w' = db w1.
Proof.
  intros H. apply Transaction_Ok in H. destruct H as (F & w1 & B & F1 & ->).
  exists (next_tick (record Begin w)), w1.
  split; [repeat split|]. split; [reflexivity|]. split; [exact B|].
  split; [repeat split | reflexivity].
Qed.

Lemma advanced_trans l k l' k' w w1 w2 :
  advanced l k w w1 -> advanced l' k' w1 w2 ->
  advanced (l ++ l') (k' + k) w w2.
Proof.
  intros (L & T & E & D) (L' & T' & E' & D'). unfold advanced.
  rewrite L', T', E', D', L, T, E, D, app_assoc, Nat.add_assoc. repeat split.
Qed.

(** What a successful [DeleteMessage] has done, statement by statement. *)
Lemma DeleteMessage_Ok id w w' :
  DeleteMessage id w = (Ok tt, w') ->
  id <> uuid_Nil
  /\ exists m,
      find (fun m => hasID id m && live m) (messages (db w)) = Some m
      /\ ID m = id
      /\ let t := Z.pos (clock (env w) (3 + tick w)) in
         db w' =
         with_clips
           (with_pins
              (with_unreads
                 (with_messages (db w) (map (softDeleted id t) (messages (db w))))
                 (filter (fun u => negb (unreadOfMessage id u)) (unreads (db w))))
              (filter (fun p => negb (N.eqb (pin_MessageID p) id)) (pins (db w))))
           (filter (fun c => negb (N.eqb (cfm_MessageID c) id))
                   (clip_folder_messages (db w)))
         /\ appended w w'
              [Begin; Stmt SELECT TMessages; Stmt SELECT TUnreads;
               Stmt DELETE TMessages; Stmt DELETE TUnreads; Stmt DELETE TPins;
               Stmt DELETE TClips; Commit;
               Publish (MessageDeleted id
                          (filter (unreadOfMessage id) (unreads (db w))))]
         /\ env w' = env w /\ tick w' = 8 + tick w.
Proof.
  unfold DeleteMessage.
  destruct (N.eqb id uuid_Nil) eqn:Hid; [discriminate|].
  apply N.eqb_neq in Hid.
  destruct (Transaction (DeleteMessage_tx id) w) as [[[m us]|e] w9] eqn:T;
    [|discriminate].
  intros H. unfold hubPublish in H. injection H as <-.
  apply Transaction_Ok_advanced in T.
  destruct T as (w0 & w8 & A0 & D0 & B & A8 & D9).
  unfold DeleteMessage_tx in B.
  apply bind_Ok in B. destruct B as (m' & w1 & S1 & B).
  apply mapErr_Ok in S1.
  apply bind_Ok in B. destruct B as (us' & w2 & S2 & B).
  apply bind_Ok in B. destruct B as ([] & w3 & S3 & B).
  apply bind_Ok in B. destruct B as ([] & w4 & S4 & B).
  apply bind_Ok in B. destruct B as ([] & w5 & S5 & B).
  apply bind_Ok in B. destruct B as ([] & w6 & S6 & B).
  injection B as -> -> ->.
  apply exec_Ok_advanced in S1. destruct S1 as (R1 & A1).
  apply exec_Ok_advanced in S2. destruct S2 as (R2 & A2).
  apply exec_Ok_advanced in S3. destruct S3 as (R3 & A3).
  apply exec_Ok_advanced in S4. destruct S4 as (R4 & A4).
  apply exec_Ok_advanced in S5. destruct S5 as (R5 & A5).
  apply exec_Ok_advanced in S6. destruct S6 as (R6 & A6).
  pose proof (advanced_trans _ _ _ _ _ _ _ A0 A1) as B1.
  pose proof (advanced_trans _ _ _ _ _ _ _ B1 A2) as B2.
  pose proof (advanced_trans _ _ _ _ _ _ _ B2 A3) as B3.
  pose proof (advanced_trans _ _ _ _ _ _ _ B3 A4) as B4.
  pose proof (advanced_trans _ _ _ _ _ _ _ B4 A5) as B5.
  pose proof (advanced_trans _ _ _ _ _ _ _ B5 A6) as B6.
  pose proof (advanced_trans _ _ _ _ _ _ _ B6 A8) as B8.
  destruct B2 as (_ & T2 & E2 & _). destruct B8 as (L8 & T8 & E8 & _).
  rewrite D0 in R1.
  destruct (find _ (messages (db w))) as [o|] eqn:Fo; [|discriminate].
  injection R1 as -> D1. rewrite <- D1 in R2.
  injection R2 as <- D2. rewrite <- D2, E2, T2 in R3.
  assert (Ho : hasID id m && live m = true) by (apply (find_some _ _ Fo)).
  assert (Hio : ID m = id).
  { apply andb_prop in Ho. destruct Ho as [Ho _]. apply N.eqb_eq. exact Ho. }
  rewrite Hio in R3.
  injection R3 as D3. rewrite <- D3 in R4.
  injection R4 as D4. rewrite <- D4 in R5.
  injection R5 as D5. rewrite <- D5 in R6.
  injection R6 as D6.
  split; [exact Hid|]. exists m. split; [reflexivity|]. split; [exact Hio|].
  split; [|split; [|split]].
  - simpl. rewrite D9, <- D6. reflexivity.
  - unfold appended. simpl. rewrite L8, <- app_assoc. reflexivity.
  - exact E8.
  - exact T8.
Qed.

Lemma GetMessageByID_hidden id w :
  readable (db w) id = false ->
  fault (env w) (tick w) = None ->
  GetMessageByID id w
  = (Err ErrNotFound,
     if N.eqb id uuid_Nil then w
     else next_tick (record (Stmt SELECT TMessages) w)).
Proof.
  intros R F. unfold GetMessageByID.
  destruct (N.eqb id uuid_Nil); [reflexivity|].
  unfold mapErr, bind, firstMessage. rewrite (exec_reliable _ _ _ _ F).
  rewrite (find_none_of_existsb _ _ R). reflexivity.
Qed.

Lemma DeleteMessage_hidden id w :
  id <> uuid_Nil ->
  readable (db w) id = false ->
  reliable w 2 ->
  exists w2, DeleteMessage id w = (Err ErrNotFound, w2)
             /\ db w2 = db w /\ published w2 = published w.
Proof.
  intros Hid R F.
  assert (F0 : fault (env w) (tick w) = None).
  { rewrite <- (Nat.add_0_r (tick w)). apply F. lia. }
  assert (F1 : fault (env w) (S (tick w)) = None).
  { rewrite <- Nat.add_1_r. apply F. lia. }
  apply N.eqb_neq in Hid.
  unfold DeleteMessage. rewrite Hid.
  unfold Transaction. rewrite F0.
  unfold DeleteMessage_tx, bind at 1, mapErr, firstMessage.
  rewrite exec_reliable by exact F1. simpl.
  unfold readable in R. rewrite (find_none_of_existsb _ _ R).
  eexists. split; [reflexivity|]. split; [reflexivity|].
  unfold published. simpl. rewrite !events_app. simpl.
  rewrite !app_nil_r. reflexivity.
Qed.

(** C4. A successful [DeleteMessage id] leaves no unread marker, no pin and
    no clip-folder entry that refers to [id], together with the soft delete,
    inside one BEGIN..COMMIT; a delete that fails changes no table.  After
    it, a read of [id] that the engine answers returns [ErrNotFound], and so
    does a second delete, which changes nothing and publishes nothing. *)
Theorem delete_cascades_and_hides id w :
  (forall e w', DeleteMessage id w = (Err e, w') -> db w' = db w)
  /\ forall w',
      DeleteMessage id w = (Ok tt, w') ->
      (forall u, In u (unreads (db w')) -> ur_MessageID u <> id)
      /\ (forall p, In p (pins (db w')) -> pin_MessageID p <> id)
      /\ (forall c, In c (clip_folder_messages (db w')) -> cfm_MessageID c <> id)
      /\ readable (db w') id = false
      /\ (exists us,
             appended w w'
               [Begin; Stmt SELECT TMessages; Stmt SELECT TUnreads;
                Stmt DELETE TMessages; Stmt DELETE TUnreads; Stmt DELETE TPins;
                Stmt DELETE TClips; Commit; Publish (MessageDeleted id us)])
      /\ (fault (env w') (tick w') = None ->
          exists w2, GetMessageByID id w' = (Err ErrNotFound, w2))
      /\ (reliable w' 2 ->
          exists w2, DeleteMessage id w' = (Err ErrNotFound, w2)
                     /\ db w2 = db w' /\ published w2 = published w').
Proof.
  split.
  { intros e w' H.
    destruct (DeleteMessage_publishesAfterCommit id _ _ _ H) as (l & _ & _ & D).
    exact D. }
  intros w' H. apply DeleteMessage_Ok in H.
  destruct H as (Hid & m & Fm & Him & D & L & E & Tk). cbv zeta in D.
  assert (R : readable (db w') id = false).
  { unfold readable. rewrite D. simpl.
    apply existsb_map_false. intros x. apply softDeleted_hidden. }
  split.
  { intros u Hu. rewrite D in Hu. simpl in Hu. apply filter_In in Hu.
    destruct Hu as [_ Hu]. apply negb_true_iff in Hu.
    unfold unreadOfMessage in Hu. apply N.eqb_neq in Hu. exact Hu. }
  split.
  { intros p Hp. rewrite D in Hp. simpl in Hp. apply filter_In in Hp.
    destruct Hp as [_ Hp]. apply negb_true_iff in Hp.
    apply N.eqb_neq in Hp. exact Hp. }
  split.
  { intros c Hc. rewrite D in Hc. simpl in Hc. apply filter_In in Hc.
    destruct Hc as [_ Hc]. apply negb_true_iff in Hc.
    apply N.eqb_neq in Hc. exact Hc. }
  split; [exact R|].
  split; [eexists; exact L|].
  split.
  - intros F. eexists. apply GetMessageByID_hidden; assumption.
  - intros F. apply DeleteMessage_hidden; assumption.
Qed.

(** The sample message is deleted with its marker, pin and clip; the marker
    of the other message stays; reading or deleting again finds nothing. *)
Lemma delete_cascades_and_hides_witness :
  let w' := snd (DeleteMessage 5%N busyWorld) in
  DeleteMessage 5%N busyWorld = (Ok tt, w')
  /\ unreads (db w') = [mkUnread 1%N 6%N false]
  /\ readable (db w') 5%N = false
  /\ (exists w2, GetMessageByID 5%N w' = (Err ErrNotFound, w2))
  /\ (exists w2, DeleteMessage 5%N w' = (Err ErrNotFound, w2)
                 /\ db w2 = db w' /\ published w2 = published w').
Proof.
  cbv zeta.
  assert (H : DeleteMessage 5%N busyWorld
              = (Ok tt, snd (DeleteMessage 5%N busyWorld)))
    by (apply run_eq; vm_compute; reflexivity).
  assert (E : env (snd (DeleteMessage 5%N busyWorld)) = calmEnv)
    by (vm_compute; reflexivity).
  destruct (proj2 (delete_cascades_and_hides 5%N busyWorld) _ H)
    as (_ & _ & _ & R & _ & G & D).
  split; [exact H|]. split; [vm_compute; reflexivity|]. split; [exact R|].
  split.
  - apply G. rewrite E. reflexivity.
  - apply D. intros i _. rewrite E. reflexivity.
Defined.

(** ** Look-ahead pagination *)

Lemma int_add_small a b :
  (- 2 ^ 63 <= a + b < 2 ^ 63)%Z -> int_add a b = (a + b)%Z.
Proof.
  intros H. unfold int_add.
  change (2 ^ 64)%Z with (2 * 2 ^ 63)%Z.
  rewrite Z.mod_small by lia. lia.
Qed.

Lemma int_add_max_int_1 : int_add max_int 1 = (- 2 ^ 63)%Z.
Proof. reflexivity. Qed.

(** Fetching [n+1] rows and dropping the extra one is taking [n] rows. *)
Lemma lookahead_trim {A} (n : nat) (rows : list A) :
  let fetched := firstn (S n) rows in
  if Nat.ltb n (List.length fetched)
  then removelast fetched = firstn n rows /\ n < List.length rows
  else fetched = firstn n rows /\ List.length rows <= n.
Proof.
  cbv zeta. rewrite length_firstn.
  destruct (Nat.ltb n (Nat.min (S n) (List.length rows))) eqn:E.
  - apply Nat.ltb_lt in E. assert (n < List.length rows) by lia.
    split; [apply removelast_firstn; assumption | assumption].
  - apply Nat.ltb_ge in E. assert (List.length rows <= n) by lia.
    split; [|assumption]. rewrite !firstn_all2 by lia. reflexivity.
Qed.

(** A hand-written statement: what [Scan] leaves in the slice. *)
Lemma scanRaw_reliable {A} t (rows : DB -> list A) w :
  fault (env w) (tick w) = None ->
  scanRaw t rows w
  = ((rows (db w), None),
     with_db (next_tick (record (Stmt SELECT t) w)) (db w)).
Proof.
  intros F. unfold scanRaw, scanInto. rewrite (exec_reliable _ _ _ _ F).
  reflexivity.
Qed.

Lemma scanRaw_faulty {A} t (rows : DB -> list A) w c :
  fault (env w) (tick w) = Some c ->
  scanRaw t rows w
  = (([], Some (ErrStorage c)), next_tick (record (Stmt SELECT t) w)).
Proof.
  intros F. unfold scanRaw, scanInto, exec. rewrite F. reflexivity.
Qed.

(** [Find] when the engine answers the statement: its rows are in the slice
    whatever becomes of the preloads, which add SELECTs only. *)
Lemma findMessages_answered q limit w :
  fault (env w) (tick w) = None ->
  exists err w' l,
    findMessages q limit w = ((fetched q limit (db w), err), w')
    /\ (reliable w 3 -> err = None)
    /\ db w' = db w /\ published w' = published w
    /\ appended w w' (Stmt SELECT TMessages :: l)
    /\ Forall (fun a => exists t, a = Stmt SELECT t) l.
Proof.
  intros F. unfold findMessages. rewrite (exec_reliable _ _ _ _ F).
  fold (fetched q limit (db w)).
  set (w1 := with_db (next_tick (record (Stmt SELECT TMessages) w)) (db w)).
  assert (P1 : published w1 = published w).
  { unfold published. simpl. rewrite events_app. simpl. apply app_nil_r. }
  destruct (q_DisablePreload q).
  { exists None, w1, []. split; [reflexivity|]. split; [reflexivity|].
    split; [reflexivity|]. split; [exact P1|]. split; [reflexivity|].
    constructor. }
  destruct (messagePreloads (fetched q limit (db w)) w1) as [r w2] eqn:P.
  pose proof (messagePreloads_outcome _ _ _ _ P) as (D & Pb & _ & l & L & SL).
  assert (Hr : reliable w 3 -> r = Ok tt).
  { intros R. apply reliable_3 in R. destruct R as (_ & F1 & F2).
    destruct (messagePreloads_reliable (fetched q limit (db w)) w1 F1 F2)
      as (w2' & P' & _). rewrite P' in P. injection P as <- _. reflexivity. }
  assert (L' : appended w w2 (Stmt SELECT TMessages :: l)).
  { unfold appended. rewrite L. simpl. rewrite <- app_assoc. reflexivity. }
  destruct r as [[]|e].
  - exists None, w2, l. split; [reflexivity|]. split; [reflexivity|].
    split; [exact D|]. split; [congruence|]. split; assumption.
  - exists (Some e), w2, l. split; [reflexivity|].
    split; [intros R; specialize (Hr R); discriminate|].
    split; [exact D|]. split; [congruence|]. split; assumption.
Qed.

Lemma findMessages_faulty q limit w c :
  fault (env w) (tick w) = Some c ->
  findMessages q limit w
  = (([], Some (ErrStorage c)), next_tick (record (Stmt SELECT TMessages) w)).
Proof.
  intros F. unfold findMessages, exec. rewrite F. reflexivity.
Qed.

(** Asking for [N+1] rows, within Go's [int]. *)
Lemma fetched_lookahead q d :
  (0 < q_Limit q <= max_int)%Z ->
  (Z.of_nat (List.length (matchingRows q d)) <= max_int)%Z ->
  let N := Z.to_nat (q_Limit q) in
  let got := fetched q (Some (int_add (q_Limit q) 1)) d in
  if Z.gtb (Z.of_nat (List.length got)) (q_Limit q)
  then removelast got = firstn N (matchingRows q d)
       /\ N < List.length (matchingRows q d)
  else got = firstn N (matchingRows q d)
       /\ List.length (matchingRows q d) <= N.
Proof.
  intros [Hpos Hmax] Hrows. cbv zeta. unfold fetched.
  set (rows := matchingRows q d) in *.
  set (N := q_Limit q) in *.
  assert (HN : Z.of_nat (Z.to_nat N) = N) by (apply Z2Nat.id; lia).
  destruct (Z.eq_dec N max_int) as [Emax|Nmax].
  - (* N + 1 wraps around: no LIMIT clause is sent *)
    rewrite Emax, int_add_max_int_1.
    replace (limitRows (- 2 ^ 63) rows) with rows by reflexivity.
    destruct (Z.gtb (Z.of_nat (List.length rows)) max_int) eqn:G;
      [apply Z.gtb_lt in G; lia|].
    split; [|apply Nat2Z.inj_le; lia].
    rewrite firstn_all2; [reflexivity|]. apply Nat2Z.inj_le. lia.
  - rewrite int_add_small by (unfold max_int in *; lia).
    unfold limitRows.
    destruct (Z.ltb (N + 1) 0) eqn:L; [apply Z.ltb_lt in L; lia|].
    replace (Z.to_nat (N + 1)) with (S (Z.to_nat N))
      by (rewrite Z2Nat.inj_add by lia; simpl; lia).
    pose proof (lookahead_trim (Z.to_nat N) rows) as T. cbv zeta in T.
    destruct (Z.gtb (Z.of_nat (List.length (firstn (S (Z.to_nat N)) rows))) N)
      eqn:G.
    + apply Z.gtb_lt in G.
      assert (G' : Nat.ltb (Z.to_nat N)
                     (List.length (firstn (S (Z.to_nat N)) rows)) = true)
        by (apply Nat.ltb_lt; lia).
      rewrite G' in T. exact T.
    + assert (G' : Nat.ltb (Z.to_nat N)
                     (List.length (firstn (S (Z.to_nat N)) rows)) = false).
      { apply Nat.ltb_ge. destruct (Z.gtb_spec
          (Z.of_nat (List.length (firstn (S (Z.to_nat N)) rows))) N);
          [discriminate | lia]. }
      rewrite G' in T. exact T.
Qed.




(** ** Marking a message unread *)

Lemma reliable_4 w :
  reliable w 4 ->
  fault (env w) (tick w) = None /\ fault (env w) (S (tick w)) = None
  /\ fault (env w) (S (S (tick w))) = None
  /\ fault (env w) (S (S (S (tick w)))) = None.
Proof.
  intros R.
  pose proof (R 0 ltac:(lia)) as R0. pose proof (R 1 ltac:(lia)) as R1.
  pose proof (R 2 ltac:(lia)) as R2. pose proof (R 3 ltac:(lia)) as R3.
  rewrite Nat.add_0_r in R0.
  replace (tick w + 1) with (S (tick w)) in R1 by lia.
  replace (tick w + 2) with (S (S (tick w))) in R2 by lia.
  replace (tick w + 3) with (S (S (S (tick w)))) in R3 by lia.
  auto.
Qed.

Lemma reliable_later w w' k n :
  env w' = env w -> tick w' = k + tick w -> reliable w (k + n) -> reliable w' n.
Proof.
  intros E T R i Hi. rewrite E, T.
  replace (k + tick w + i) with (tick w + (k + i)) by lia. apply R. lia.
Qed.

Lemma unreadOf_eq u m x :
  unreadOf u m x = true -> ur_UserID x = u /\ ur_MessageID x = m.
Proof.
  unfold unreadOf. intros H. apply andb_prop in H. destruct H as [H1 H2].
  split; apply N.eqb_eq; assumption.
Qed.

(** No marker yet: one is inserted and [MessageUnread] is published. *)
Lemma SetMessageUnread_insert u m n w :
  u <> uuid_Nil -> m <> uuid_Nil ->
  existsb (unreadOf u m) (unreads (db w)) = false ->
  reliable w 4 ->
  exists w',
    SetMessageUnread u m n w = (Ok tt, w')
    /\ db w' = with_unreads (db w) (unreads (db w) ++ [mkUnread u m n])
    /\ appended w w' [Begin; Stmt SELECT TUnreads; Stmt INSERT TUnreads; Commit;
                      Publish (MessageUnread m u n)]
    /\ env w' = env w /\ tick w' = 4 + tick w.
Proof.
  intros Hu Hm X R. apply reliable_4 in R. destruct R as (F0 & F1 & F2 & F3).
  apply N.eqb_neq in Hu, Hm.
  unfold SetMessageUnread. rewrite Hu, Hm. cbn [orb]. cbv beta iota.
  unfold Transaction. cbv beta. rewrite F0.
  unfold SetMessageUnread_tx, firstUnread.
  rewrite exec_reliable by exact F1. simpl db.
  rewrite (find_none_of_existsb _ _ X).
  unfold bind, insertUnread.
  rewrite exec_reliable by exact F2. simpl db. simpl ur_UserID. simpl ur_MessageID.
  rewrite X. unfold ret. simpl env. simpl tick. rewrite F3. simpl negb. cbv iota.
  eexists. split; [reflexivity|].
  split; [reflexivity|]. split.
  - unfold appended. simpl. rewrite <- !app_assoc. reflexivity.
  - split; reflexivity.
Qed.

(** A marker exists: its flag is rewritten and nothing is published. *)
Lemma SetMessageUnread_update u m n w :
  u <> uuid_Nil -> m <> uuid_Nil ->
  existsb (unreadOf u m) (unreads (db w)) = true ->
  reliable w 4 ->
  exists w',
    SetMessageUnread u m n w = (Ok tt, w')
    /\ db w' = with_unreads (db w) (map (renoticed u m n) (unreads (db w)))
    /\ appended w w' [Begin; Stmt SELECT TUnreads; Stmt UPDATE TUnreads; Commit]
    /\ env w' = env w /\ tick w' = 4 + tick w.
Proof.
  intros Hu Hm X R. apply reliable_4 in R. destruct R as (F0 & F1 & F2 & F3).
  apply N.eqb_neq in Hu, Hm.
  destruct (find (unreadOf u m) (unreads (db w))) as [x|] eqn:Fx.
  2:{ apply existsb_exists in X. destruct X as (y & Hy & Py).
      pose proof (find_none _ _ Fx y Hy). congruence. }
  destruct (unreadOf_eq _ _ _ (proj2 (find_some _ _ Fx))) as [Xu Xm].
  unfold SetMessageUnread. rewrite Hu, Hm. cbn [orb]. cbv beta iota.
  unfold Transaction. cbv beta. rewrite F0.
  unfold SetMessageUnread_tx, firstUnread.
  rewrite exec_reliable by exact F1. simpl db. rewrite Fx.
  unfold bind, updateUnreadNoticeable.
  rewrite exec_reliable by exact F2. rewrite Xu, Xm.
  unfold ret. simpl env. simpl tick. rewrite F3. simpl negb. cbv iota.
  eexists. split; [reflexivity|].
  split; [reflexivity|]. split.
  - unfold appended. simpl. rewrite <- !app_assoc. reflexivity.
  - split; reflexivity.
Qed.

Lemma renoticed_fresh u m n l :
  existsb (unreadOf u m) l = false ->
  map (renoticed u m n) (l ++ [mkUnread u m n]) = l ++ [mkUnread u m n]
  /\ filter (unreadOf u m) (l ++ [mkUnread u m n]) = [mkUnread u m n].
Proof.
  intros X.
  assert (Hn : unreadOf u m (mkUnread u m n) = true).
  { unfold unreadOf. simpl. rewrite !N.eqb_refl. reflexivity. }
  induction l as [|x l IH]; simpl.
  - unfold renoticed. rewrite Hn. simpl. auto.
  - simpl in X. apply orb_false_elim in X. destruct X as [Xx Xl].
    destruct (IH Xl) as [IH1 IH2]. unfold renoticed at 1. rewrite Xx, IH1, IH2.
    auto.
Qed.

Lemma reliable_less w k n : n <= k -> reliable w k -> reliable w n.
Proof. intros L R i Hi. apply R. lia. Qed.

(** What the UPDATE leaves of each marker: the markers of the pair carry
    the flag given, the others are as they were. *)
Lemma renoticed_rows u m n l :
  Forall2 (fun a b => ur_UserID b = ur_UserID a
                      /\ ur_MessageID b = ur_MessageID a
                      /\ ur_Noticeable b
                         = (if unreadOf u m a then n else ur_Noticeable a))
          l (map (renoticed u m n) l).
Proof.
  induction l as [|x l IH]; simpl; constructor; [|exact IH].
  unfold renoticed. destruct (unreadOf u m x); simpl; auto.
Qed.

Lemma renoticed_flag u m n l x :
  In x (map (renoticed u m n) l) ->
  ur_UserID x = u -> ur_MessageID x = m -> ur_Noticeable x = n.
Proof.
  intros H Hu Hm. apply in_map_iff in H. destruct H as (y & <- & _).
  unfold renoticed in *. destruct (unreadOf u m y) eqn:E; [reflexivity|].
  unfold unreadOf in E. rewrite Hu, Hm, !N.eqb_refl in E. discriminate.
Qed.

(** A marker inserted with one flag and rewritten with another. *)
Lemma renoticed_last u m n n' l :
  existsb (unreadOf u m) l = false ->
  map (renoticed u m n') (l ++ [mkUnread u m n]) = l ++ [mkUnread u m n'].
Proof.
  intros X.
  assert (Hn : unreadOf u m (mkUnread u m n) = true).
  { unfold unreadOf. simpl. rewrite !N.eqb_refl. reflexivity. }
  induction l as [|x l IH]; simpl.
  - unfold renoticed. rewrite Hn. reflexivity.
  - simpl in X. apply orb_false_elim in X. destruct X as [Xx Xl].
    rewrite (IH Xl). unfold renoticed at 1. rewrite Xx. reflexivity.
Qed.

(** C6. [SetMessageUnread] is an upsert that publishes on insertion only.
    With no marker for (user, message) it inserts one, with the flag given,
    and publishes [MessageUnread].  With a marker it writes the flag given
    into the markers of the pair and changes nothing else, neither another
    column nor another marker nor another table, and publishes nothing.
    Called twice with the same arguments it leaves exactly one marker for
    the pair and has published exactly one [MessageUnread]; called a second
    time with another flag, the one marker carries the second flag and the
    one event the first. *)
Theorem SetMessageUnread_idempotent u m n w :
  u <> uuid_Nil -> m <> uuid_Nil ->
  (existsb (unreadOf u m) (unreads (db w)) = false -> reliable w 4 ->
   exists w1,
     SetMessageUnread u m n w = (Ok tt, w1)
     /\ unreads (db w1) = unreads (db w) ++ [mkUnread u m n]
     /\ published w1 = published w ++ [MessageUnread m u n])
  /\ (existsb (unreadOf u m) (unreads (db w)) = true -> reliable w 4 ->
      exists w1,
        SetMessageUnread u m n w = (Ok tt, w1)
        /\ Forall2 (fun a b => ur_UserID b = ur_UserID a
                               /\ ur_MessageID b = ur_MessageID a
                               /\ ur_Noticeable b
                                  = (if unreadOf u m a then n
                                     else ur_Noticeable a))
                   (unreads (db w)) (unreads (db w1))
        /\ (forall x, In x (unreads (db w1)) ->
                      ur_UserID x = u -> ur_MessageID x = m ->
                      ur_Noticeable x = n)
        /\ db w1 = with_unreads (db w) (unreads (db w1))
        /\ published w1 = published w)
  /\ (existsb (unreadOf u m) (unreads (db w)) = false -> reliable w 8 ->
      exists w1 w2,
        SetMessageUnread u m n w = (Ok tt, w1)
        /\ SetMessageUnread u m n w1 = (Ok tt, w2)
        /\ unreads (db w2) = unreads (db w) ++ [mkUnread u m n]
        /\ List.length (filter (unreadOf u m) (unreads (db w2))) = 1
        /\ published w2 = published w ++ [MessageUnread m u n])
  /\ (existsb (unreadOf u m) (unreads (db w)) = false -> reliable w 8 ->
      forall n',
      exists w1 w2,
        SetMessageUnread u m n w = (Ok tt, w1)
        /\ SetMessageUnread u m n' w1 = (Ok tt, w2)
        /\ unreads (db w2) = unreads (db w) ++ [mkUnread u m n']
        /\ published w2 = published w ++ [MessageUnread m u n]).
Proof.
  intros Hu Hm.
  assert (Twice : existsb (unreadOf u m) (unreads (db w)) = false ->
                  reliable w 8 ->
                  forall n',
                  exists w1 w2,
                    SetMessageUnread u m n w = (Ok tt, w1)
                    /\ SetMessageUnread u m n' w1 = (Ok tt, w2)
                    /\ unreads (db w2) = unreads (db w) ++ [mkUnread u m n']
                    /\ published w2 = published w ++ [MessageUnread m u n]).
  { intros X R n'.
    destruct (SetMessageUnread_insert u m n w Hu Hm X
                (reliable_less _ 8 4 ltac:(lia) R))
      as (w1 & S1 & D1 & L1 & E1 & T1).
    assert (X1 : existsb (unreadOf u m) (unreads (db w1)) = true).
    { rewrite D1. simpl. rewrite existsb_app. simpl.
      unfold unreadOf at 2. simpl. rewrite !N.eqb_refl.
      simpl. apply orb_true_r. }
    destruct (SetMessageUnread_update u m n' w1 Hu Hm X1
                (reliable_later w w1 4 4 E1 T1 R))
      as (w2 & S2 & D2 & L2 & _).
    exists w1, w2. split; [exact S1|]. split; [exact S2|].
    rewrite D2, D1. simpl. rewrite (renoticed_last u m n n' _ X).
    split; [reflexivity|].
    rewrite (appended_published _ _ _ L2), (appended_published _ _ _ L1).
    simpl. apply app_nil_r. }
  split; [|split; [|split]].
  - intros X R.
    destruct (SetMessageUnread_insert u m n w Hu Hm X R)
      as (w1 & S & D & L & _).
    exists w1. split; [exact S|]. rewrite D. split; [reflexivity|].
    rewrite (appended_published _ _ _ L). reflexivity.
  - intros X R.
    destruct (SetMessageUnread_update u m n w Hu Hm X R)
      as (w1 & S & D & L & _).
    exists w1. split; [exact S|]. rewrite D. simpl.
    split; [apply renoticed_rows|].
    split; [intros x Hx; exact (renoticed_flag u m n _ x Hx)|].
    split; [reflexivity|].
    rewrite (appended_published _ _ _ L). simpl. apply app_nil_r.
  - intros X R. destruct (Twice X R n) as (w1 & w2 & S1 & S2 & U & P).
    exists w1, w2. split; [exact S1|]. split; [exact S2|].
    split; [exact U|]. split; [|exact P].
    rewrite U. rewrite (proj2 (renoticed_fresh u m n _ X)). reflexivity.
  - exact Twice.
Qed.

(** User 1 marks the sample message unread, not noticeable, and then marks
    it again, noticeable: one marker, now noticeable, and the one event of
    the first call. *)
Lemma SetMessageUnread_idempotent_witness :
  exists w1 w2,
    SetMessageUnread 1%N 5%N false sampleWorld = (Ok tt, w1)
    /\ SetMessageUnread 1%N 5%N true w1 = (Ok tt, w2)
    /\ unreads (db w2) = [mkUnread 1%N 5%N true]
    /\ published w2 = [MessageUnread 5%N 1%N false].
Proof.
  assert (Hu : 1%N <> uuid_Nil) by discriminate.
  assert (Hm : 5%N <> uuid_Nil) by discriminate.
  assert (R : reliable sampleWorld 8) by (intros i _; reflexivity).
  destruct (proj2 (proj2 (proj2 (SetMessageUnread_idempotent
                                   1%N 5%N false sampleWorld Hu Hm)))
              eq_refl R true)
    as (w1 & w2 & S1 & S2 & U & P).
  exists w1, w2. repeat split; assumption.
Defined.

(** ** Reaction counters *)

Lemma upsertedStamps_nonneg m s u n t l :
  (0 <= n)%Z ->
  Forall (fun r => (0 <= ms_Count r)%Z) l ->
  Forall (fun r => (0 <= ms_Count r)%Z) (upsertedStamps m s u n t l).
Proof.
  intros Hn Hl. unfold upsertedStamps.
  destruct (existsb (stampOf m s u) l).
  - induction Hl as [|x l Hx Hl IH]; simpl; constructor; [|exact IH].
    destruct (stampOf m s u x); simpl; lia.
  - apply Forall_app. split; [exact Hl|]. constructor; [exact Hn | constructor].
Qed.

(** Whatever becomes of the call, the table of counters is either as it was
    or upserted. *)
Lemma AddStampToMessage_db m s u n w :
  db (snd (AddStampToMessage m s u n w)) = db w
  \/ exists t,
      db (snd (AddStampToMessage m s u n w))
      = with_stamps (db w) (upsertedStamps m s u n t (messages_stamps (db w))).
Proof.
  unfold AddStampToMessage.
  destruct (N.eqb m uuid_Nil || N.eqb s uuid_Nil || N.eqb u uuid_Nil);
    [left; reflexivity|].
  unfold bind, upsertStamp, takeStamp, exec, hubPublish, ret.
  destruct (fault (env w) (tick w)); [left; reflexivity|].
  cbn [env tick next_tick record with_db db].
  destruct (fault (env w) (S (tick w))); [right; eexists; reflexivity|].
  cbn [env tick next_tick record with_db db].
  destruct (find _ _); right; eexists; reflexivity.
Qed.

Lemma RemoveStampFromMessage_db m s u w :
  db (snd (RemoveStampFromMessage m s u w)) = db w
  \/ db (snd (RemoveStampFromMessage m s u w))
     = with_stamps (db w)
         (filter (fun r => negb (stampOf m s u r)) (messages_stamps (db w))).
Proof.
  unfold RemoveStampFromMessage.
  destruct (N.eqb m uuid_Nil || N.eqb s uuid_Nil || N.eqb u uuid_Nil);
    [left; reflexivity|].
  unfold bind, deleteStamp, exec, hubPublish, ret.
  destruct (fault (env w) (tick w)); [left; reflexivity|].
  cbn [env tick next_tick record with_db db].
  destruct (Nat.ltb 0 _); right; reflexivity.
Qed.

Lemma runStampOp_nonneg o w :
  nonnegDelta o -> countsNonneg (db w) -> countsNonneg (db (runStampOp o w)).
Proof.
  unfold countsNonneg. intros Ho Hw. destruct o as [m s u n | m s u]; simpl.
  - destruct (AddStampToMessage_db m s u n w) as [E | [t E]]; rewrite E.
    + exact Hw.
    + simpl. apply upsertedStamps_nonneg; assumption.
  - destruct (RemoveStampFromMessage_db m s u w) as [E | E]; rewrite E.
    + exact Hw.
    + simpl. apply Forall_forall. intros r Hr. apply filter_In in Hr.
      destruct Hr as [Hr _]. revert r Hr. apply Forall_forall. exact Hw.
Qed.

Lemma find_upsertedStamps m s u n t l :
  exists r,
    find (stampOf m s u) (upsertedStamps m s u n t l) = Some r
    /\ ms_Count r
       = (match find (stampOf m s u) l with
          | Some r0 => ms_Count r0
          | None => 0
          end + n)%Z.
Proof.
  unfold upsertedStamps. destruct (existsb (stampOf m s u) l) eqn:X.
  - induction l as [|x l IH]; simpl in *; [discriminate|].
    destruct (stampOf m s u x) eqn:Px.
    + simpl. unfold stampOf in *. simpl. rewrite Px.
      eexists. split; [reflexivity|]. reflexivity.
    + rewrite Px. simpl in X. exact (IH X).
  - rewrite find_app_fresh by exact X.
    rewrite (find_none_of_existsb _ _ X).
    assert (P : stampOf m s u (mkMessageStamp m s u n t t) = true).
    { unfold stampOf. simpl. rewrite !N.eqb_refl. reflexivity. }
    rewrite P. eexists. split; [reflexivity|]. reflexivity.
Qed.

Lemma AddStampToMessage_count m s u n w ms w' :
  AddStampToMessage m s u n w = (Ok ms, w') ->
  ms_Count ms
  = (match find (stampOf m s u) (messages_stamps (db w)) with
     | Some r0 => ms_Count r0
     | None => 0
     end + n)%Z
  /\ published w'
     = published w ++ [MessageStamped m s u (ms_Count ms) (ms_CreatedAt ms)].
Proof.
  unfold AddStampToMessage.
  destruct (N.eqb m uuid_Nil || N.eqb s uuid_Nil || N.eqb u uuid_Nil);
    [discriminate|].
  intros H.
  apply bind_Ok in H. destruct H as ([] & w1 & U & H).
  apply bind_Ok in H. destruct H as (r & w2 & T & H).
  apply bind_Ok in H. destruct H as ([] & w3 & P & H).
  injection H as -> ->. injection P as <-.
  apply exec_Ok_advanced in U. destruct U as (RU & AU).
  apply exec_Ok_advanced in T. destruct T as (RT & AT).
  injection RU as DU. rewrite <- DU in RT. cbn [messages_stamps with_stamps] in RT.
  destruct (find_upsertedStamps m s u n
              (Z.pos (clock (env w) (tick w))) (messages_stamps (db w)))
    as (r0 & Fr & Cr).
  rewrite Fr in RT. injection RT as -> _.
  split; [exact Cr|].
  destruct (advanced_trans _ _ _ _ _ _ _ AU AT) as (L & _).
  unfold published. simpl. rewrite L, !events_app. simpl.
  rewrite app_nil_r. reflexivity.
Qed.

(** One reaction is added and then taken back twice with a delta of -1: the
    last call succeeds, reports the count -1 on the hub, and leaves a
    negative counter in the table. *)
Lemma negative_delta_yields_negative_count :
  let w2 := runStampOps [AddStamp 1%N 2%N 3%N 1%Z; AddStamp 1%N 2%N 3%N (-1)%Z] emptyWorld in
  let r := AddStampToMessage 1%N 2%N 3%N (-1)%Z w2 in
  countsNonneg (db w2)
  /\ fst r = Ok (mkMessageStamp 1%N 2%N 3%N (-1)%Z 1001%Z 1005%Z)
  /\ events (skipn (List.length (log w2)) (log (snd r)))
     = [MessageStamped 1%N 2%N 3%N (-1)%Z 1001%Z]
  /\ ~ countsNonneg (db (snd r)).
Proof.
  cbv zeta. split; [|split; [|split]].
  - unfold countsNonneg.
    assert (E : messages_stamps
                  (db (runStampOps [AddStamp 1%N 2%N 3%N 1%Z; AddStamp 1%N 2%N 3%N (-1)%Z]
                                   emptyWorld))
                = [mkMessageStamp 1%N 2%N 3%N 0%Z 1001%Z 1003%Z])
      by (vm_compute; reflexivity).
    rewrite E. repeat constructor. simpl. discriminate.
  - vm_compute. reflexivity.
  - vm_compute. reflexivity.
  - unfold countsNonneg.
    assert (E : messages_stamps
                  (db (snd (AddStampToMessage 1%N 2%N 3%N (-1)%Z
                              (runStampOps [AddStamp 1%N 2%N 3%N 1%Z;
                                            AddStamp 1%N 2%N 3%N (-1)%Z] emptyWorld))))
                = [mkMessageStamp 1%N 2%N 3%N (-1)%Z 1001%Z 1005%Z])
      by (vm_compute; reflexivity).
    rewrite E. intros H. inversion H as [|x l Hx Hl]; subst.
    simpl in Hx. lia.
Qed.

(** C8, amended. The repository does not look at the sign of the delta: a
    successful [AddStampToMessage] stores and publishes the previous count
    plus the delta (the delta itself for a new row).  Counts therefore stay
    non-negative along any sequence of additions and removals in which every
    delta is non-negative. *)
Theorem counts_nonneg_under_nonneg_deltas :
  (forall ops w,
      Forall nonnegDelta ops -> countsNonneg (db w) ->
      countsNonneg (db (runStampOps ops w)))
  /\ (forall m s u n w ms w',
         AddStampToMessage m s u n w = (Ok ms, w') ->
         ms_Count ms
         = (match find (stampOf m s u) (messages_stamps (db w)) with
            | Some r0 => ms_Count r0
            | None => 0
            end + n)%Z
         /\ published w'
            = published w
              ++ [MessageStamped m s u (ms_Count ms) (ms_CreatedAt ms)]).
Proof.
  split; [|exact AddStampToMessage_count].
  intros ops. induction ops as [|o ops IH]; intros w Ho Hw; [exact Hw|].
  inversion Ho as [|o' ops' Ho1 Ho2]; subst.
  unfold runStampOps. simpl. apply IH; [exact Ho2|].
  apply runStampOp_nonneg; assumption.
Qed.

(** Two additions, a removal and one more addition, all with positive
    deltas, starting from the empty store. *)
Lemma counts_nonneg_under_nonneg_deltas_witness :
  countsNonneg
    (db (runStampOps [AddStamp 1%N 2%N 3%N 1%Z; AddStamp 1%N 2%N 3%N 2%Z; RemoveStamp 1%N 2%N 3%N;
                      AddStamp 1%N 2%N 3%N 4%Z] emptyWorld)).
Proof.
  apply (proj1 counts_nonneg_under_nonneg_deltas).
  - repeat constructor; simpl; lia.
  - constructor.
Defined.

(** ** Latest message per channel *)

Lemma In_insertBy {A} (le : A -> A -> bool) x y l :
  In y (insertBy le x l) <-> y = x \/ In y l.
Proof.
  induction l as [|z l IH]; simpl.
  - intuition auto.
  - destruct (le x z); simpl; [intuition auto|]. rewrite IH. intuition auto.
Qed.

Lemma In_sortBy {A} (le : A -> A -> bool) y l :
  In y (sortBy le l) <-> In y l.
Proof.
  induction l as [|x l IH]; simpl; [reflexivity|].
  rewrite In_insertBy, IH. intuition auto.
Qed.

(** The rows of the SELECT, read off its FROM and WHERE clauses. *)
Lemma In_latestRows d user so r x :
  In (r, x) (latestRows d user so) <->
  In r (channel_latest_messages d) /\ In x (messages d)
  /\ clm_MessageID r = ID x /\ live x = true
  /\ exists c, In c (channels d) /\ clm_ChannelID r = ch_ID c
               /\ reportable d user so c = true.
Proof.
  unfold latestRows, reportable. split.
  - intros H. apply in_flat_map in H. destruct H as (r' & Hr & H).
    apply in_flat_map in H. destruct H as (x' & Hx & H).
    apply filter_In in Hx. destruct Hx as [Hx Ex].
    apply in_flat_map in H. destruct H as (c & Hc & H).
    apply filter_In in Hc. destruct Hc as [Hc Ec].
    destruct (_ && _) eqn:G in H; [|contradiction].
    destruct H as [H|[]]. injection H as -> ->.
    apply N.eqb_eq in Ex, Ec.
    apply andb_prop in G. destruct G as [G G4].
    apply andb_prop in G. destruct G as [G G3].
    apply andb_prop in G. destruct G as [G1 G2].
    repeat (split; [assumption|]). exists c.
    repeat (split; [assumption|]). rewrite G1, G2, G4. reflexivity.
  - intros (Hr & Hx & Ex & Lx & c & Hc & Ec & G).
    apply andb_prop in G. destruct G as [G G4].
    apply andb_prop in G. destruct G as [G1 G2].
    apply in_flat_map. exists r. split; [exact Hr|].
    apply in_flat_map. exists x. split.
    { apply filter_In. split; [exact Hx | apply N.eqb_eq; exact Ex]. }
    apply in_flat_map. exists c. split.
    { apply filter_In. split; [exact Hc | apply N.eqb_eq; exact Ec]. }
    rewrite G1, G2, Lx, G4. left. reflexivity.
Qed.

Lemma In_latestQuery d user so x :
  In x (latestQuery user so d) <-> exists r, In (r, x) (latestRows d user so).
Proof.
  unfold latestQuery. rewrite in_map_iff. split.
  - intros ([r x'] & E & H). simpl in E. subst x'.
    exists r. apply In_sortBy in H. exact H.
  - intros (r & H). exists (r, x). split; [reflexivity|].
    apply In_sortBy. exact H.
Qed.

Lemma In_reportedFor d user so c x :
  In x (reportedFor d user so c) <->
  exists r, In (r, x) (latestRows d user so) /\ clm_ChannelID r = c.
Proof.
  unfold reportedFor. rewrite in_map_iff. split.
  - intros ([r x'] & E & H). simpl in E. subst x'.
    apply filter_In in H. destruct H as [H Ec]. apply N.eqb_eq in Ec.
    exists r. split; assumption.
  - intros (r & H & Ec). exists (r, x). split; [reflexivity|].
    apply filter_In. split; [exact H | apply N.eqb_eq; exact Ec].
Qed.

Lemma In_firstn {A} n (l : list A) x : In x (firstn n l) -> In x l.
Proof.
  intros H. rewrite <- (firstn_skipn n l). apply in_or_app. left. exact H.
Qed.

(** The unlimited query, when the engine answers it. *)
Lemma GetChannelLatestMessagesByUserID_reliable user so limit w :
  (limit <= 0)%Z ->
  fault (env w) (tick w) = None ->
  fst (GetChannelLatestMessagesByUserID user limit so w)
  = (latestQuery user so (db w), None).
Proof.
  intros L F. unfold GetChannelLatestMessagesByUserID, scanInto.
  rewrite (exec_reliable _ _ _ _ F).
  destruct (Z.ltb 0 limit) eqn:G; [apply Z.ltb_lt in G; lia|].
  reflexivity.
Qed.

(** Whatever the limit and the engine's answer, what the method lists is
    among the rows of the query. *)
Lemma GetChannelLatestMessagesByUserID_sound user so limit w x :
  In x (fst (fst (GetChannelLatestMessagesByUserID user limit so w))) ->
  In x (latestQuery user so (db w)).
Proof.
  unfold GetChannelLatestMessagesByUserID, scanInto, exec, latestQuery.
  destruct (fault (env w) (tick w)); simpl; [contradiction|].
  destruct (Z.ltb 0 limit); [|exact (fun H => H)].
  intros H. apply in_map_iff in H. destruct H as (p & E & H).
  apply in_map_iff. exists p. split; [exact E|].
  exact (In_firstn _ _ _ H).
Qed.

Lemma reportable_ext d d' user so c :
  users_subscribe_channels d' = users_subscribe_channels d ->
  reportable d' user so c = reportable d user so c.
Proof.
  intros E. unfold reportable, forcedOrSubscribed. rewrite E. reflexivity.
Qed.

Lemma CreateMessage_keeps u c t w m w1 :
  CreateMessage u c t w = (Ok m, w1) ->
  channels (db w1) = channels (db w)
  /\ users_subscribe_channels (db w1) = users_subscribe_channels (db w).
Proof.
  intros H. apply CreateMessage_Ok in H.
  destruct H as (_ & _ & _ & _ & D & _). rewrite D. split; reflexivity.
Qed.

Lemma DeleteMessage_keeps id w w' :
  DeleteMessage id w = (Ok tt, w') ->
  channels (db w') = channels (db w)
  /\ users_subscribe_channels (db w') = users_subscribe_channels (db w)
  /\ channel_latest_messages (db w') = channel_latest_messages (db w).
Proof.
  intros H. apply DeleteMessage_Ok in H.
  destruct H as (_ & m & _ & _ & D & _). cbv zeta in D. rewrite D.
  repeat split.
Qed.

(** Right after a message is created in a channel the query can report,
    the pointer of that channel reports this message and no other. *)
Lemma created_is_reported u C t w m w1 user so c :
  CreateMessage u C t w = (Ok m, w1) ->
  In c (channels (db w)) -> ch_ID c = C ->
  reportable (db w) user so c = true ->
  (forall x, In x (reportedFor (db w1) user so C) <-> x = m)
  /\ In m (latestQuery user so (db w1)).
Proof.
  intros H Hc Ec Rc.
  destruct (CreateMessage_keeps _ _ _ _ _ _ H) as [Kc Ks].
  apply CreateMessage_Ok in H.
  destruct H as (_ & _ & (tm & Hm) & X & D & _).
  destruct (upsertedLatest_pointer
              (mkChannelLatestMessage C (ID m) (CreatedAt m))
              (channel_latest_messages (db w))) as [(r0 & Hr0 & Er0) P2].
  simpl in Er0, P2. pose proof (P2 r0 Hr0 Er0) as E0. subst r0.
  assert (Hrow : In (mkChannelLatestMessage C (ID m) (CreatedAt m), m)
                    (latestRows (db w1) user so)).
  { apply In_latestRows.
    split; [rewrite D; simpl; exact Hr0|].
    split; [rewrite D; simpl; apply in_or_app; right; left; reflexivity|].
    split; [reflexivity|].
    split; [rewrite Hm; reflexivity|].
    exists c. split; [rewrite Kc; exact Hc|].
    split; [symmetry; exact Ec|].
    rewrite (reportable_ext _ _ user so c Ks). exact Rc. }
  split.
  - intros x. split.
    + intros Hx. apply In_reportedFor in Hx. destruct Hx as (r & Hx & Er).
      apply In_latestRows in Hx. destruct Hx as (Hr & Hxm & Ex & _).
      rewrite D in Hr, Hxm. simpl in Hr, Hxm.
      rewrite (P2 r Hr Er) in Ex. simpl in Ex.
      apply in_app_or in Hxm. destruct Hxm as [Hxm | [Hxm | []]]; [|auto].
      exfalso.
      assert (existsb (hasID (ID m)) (messages (db w)) = true).
      { apply existsb_exists. exists x. split; [exact Hxm|].
        unfold hasID. apply N.eqb_eq. symmetry. exact Ex. }
      congruence.
    + intros ->. apply In_reportedFor. eexists. split; [exact Hrow|].
      reflexivity.
  - apply In_latestQuery. eexists. exact Hrow.
Qed.

(** After the message a pointer designates is deleted, the pointer is as it
    was, and the query reports nothing through it. *)
Lemma deleted_is_not_reported id w w' user so C t :
  DeleteMessage id w = (Ok tt, w') ->
  latestPointer (db w) C id t ->
  latestPointer (db w') C id t
  /\ reportedFor (db w') user so C = []
  /\ forall x, In x (latestQuery user so (db w')) -> ID x <> id.
Proof.
  intros H P.
  destruct (DeleteMessage_keeps _ _ _ H) as (_ & _ & Kl).
  apply DeleteMessage_Ok in H.
  destruct H as (_ & m & _ & _ & D & _). cbv zeta in D.
  remember (Z.pos (clock (env w) (3 + tick w))) as t0 eqn:Et in D. clear Et.
  assert (Dead : forall x, In x (messages (db w')) -> live x = true ->
                           ID x <> id).
  { intros x Hx Lx Ex. rewrite D in Hx. simpl in Hx.
    apply in_map_iff in Hx. destruct Hx as (y & <- & _).
    pose proof (softDeleted_hidden id t0 y) as Hd.
    unfold hasID in Hd at 1. rewrite Ex, N.eqb_refl, Lx in Hd. discriminate. }
  split; [unfold latestPointer; rewrite Kl; exact P|].
  split.
  - destruct (reportedFor (db w') user so C) as [|x l] eqn:E; [reflexivity|].
    exfalso. assert (Hx : In x (reportedFor (db w') user so C))
      by (rewrite E; left; reflexivity).
    apply In_reportedFor in Hx. destruct Hx as (r & Hx & Er).
    apply In_latestRows in Hx. destruct Hx as (Hr & Hxm & Ex & Lx & _).
    rewrite Kl in Hr. destruct P as [_ P]. destruct (P r Hr Er) as [Pm _].
    apply (Dead x Hxm Lx). congruence.
  - intros x Hx. apply In_latestQuery in Hx. destruct Hx as (r & Hx).
    apply In_latestRows in Hx. destruct Hx as (_ & Hxm & _ & Lx & _).
    exact (Dead x Hxm Lx).
Qed.

(** Two messages are posted to the public channel and the second is
    deleted: the pointer row still names it, and the query returns nothing
    for the channel. *)
Lemma deleted_latest_is_not_reported :
  let m2 := mkMessage 102%N 1%N 2%N "two" 1006%Z 1006%Z None in
  fst (GetChannelLatestMessagesByUserID 9%N 0%Z false scene2) = ([m2], None)
  /\ fst (DeleteMessage 102%N scene2) = Ok tt
  /\ channel_latest_messages (db scene3)
     = [mkChannelLatestMessage 2%N 102%N 1006%Z]
  /\ fst (GetChannelLatestMessagesByUserID 9%N 0%Z false scene3) = ([], None).
Proof.
  cbv zeta.
  split; [vm_compute; reflexivity|]. split; [vm_compute; reflexivity|].
  split; vm_compute; reflexivity.
Qed.

(** C7, amended. In a channel the query can report, after M1 and then M2
    are created the pointer of the channel holds M2 and the query reports
    M2, and only M2, through it.  After M2 is deleted the pointer row still
    holds M2, but the query, which keeps only messages that are not deleted,
    reports nothing through it and never lists M2.  Once M3 is created in
    the channel the pointer holds M3 and the query reports M3. *)
Theorem latest_pointer_stale_but_not_reported
        u1 u2 u3 C t1 t2 t3 w m1 w1 m2 w2 w3 m3 w4 user so c :
  In c (channels (db w)) -> ch_ID c = C ->
  reportable (db w) user so c = true ->
  CreateMessage u1 C t1 w = (Ok m1, w1) ->
  CreateMessage u2 C t2 w1 = (Ok m2, w2) ->
  DeleteMessage (ID m2) w2 = (Ok tt, w3) ->
  CreateMessage u3 C t3 w3 = (Ok m3, w4) ->
  (latestPointer (db w2) C (ID m2) (CreatedAt m2)
   /\ (forall x, In x (reportedFor (db w2) user so C) <-> x = m2)
   /\ In m2 (latestQuery user so (db w2)))
  /\ (latestPointer (db w3) C (ID m2) (CreatedAt m2)
      /\ reportedFor (db w3) user so C = []
      /\ forall limit wq x,
          db wq = db w3 ->
          In x (fst (fst (GetChannelLatestMessagesByUserID user limit so wq))) ->
          ID x <> ID m2)
  /\ (latestPointer (db w4) C (ID m3) (CreatedAt m3)
      /\ (forall x, In x (reportedFor (db w4) user so C) <-> x = m3)
      /\ In m3 (latestQuery user so (db w4)))
  /\ (forall limit wq,
         (limit <= 0)%Z -> fault (env wq) (tick wq) = None ->
         fst (GetChannelLatestMessagesByUserID user limit so wq)
         = (latestQuery user so (db wq), None)).
Proof.
  intros Hc Ec Rc H1 H2 H3 H4.
  destruct (CreateMessage_keeps _ _ _ _ _ _ H1) as [Kc1 Ks1].
  destruct (CreateMessage_keeps _ _ _ _ _ _ H2) as [Kc2 Ks2].
  destruct (DeleteMessage_keeps _ _ _ H3) as (Kc3 & Ks3 & _).
  assert (Hc1 : In c (channels (db w1))) by (rewrite Kc1; exact Hc).
  assert (Rc1 : reportable (db w1) user so c = true)
    by (rewrite (reportable_ext _ _ user so c Ks1); exact Rc).
  assert (Hc3 : In c (channels (db w3))) by (rewrite Kc3, Kc2; exact Hc1).
  assert (Rc3 : reportable (db w3) user so c = true).
  { rewrite (reportable_ext _ _ user so c Ks3),
            (reportable_ext _ _ user so c Ks2). exact Rc1. }
  pose proof (CreateMessage_pointer _ _ _ _ _ _ H2) as P2.
  destruct (created_is_reported _ _ _ _ _ _ user so c H2 Hc1 Ec Rc1) as [A2 B2].
  destruct (deleted_is_not_reported _ _ _ user so C _ H3 P2) as (P3 & A3 & B3).
  pose proof (CreateMessage_pointer _ _ _ _ _ _ H4) as P4.
  destruct (created_is_reported _ _ _ _ _ _ user so c H4 Hc3 Ec Rc3) as [A4 B4].
  split; [auto|]. split; [|split; [auto|]].
  - split; [exact P3|]. split; [exact A3|].
    intros limit wq x Dq Hx. apply B3. rewrite <- Dq.
    exact (GetChannelLatestMessagesByUserID_sound _ _ _ _ _ Hx).
  - intros limit wq. apply GetChannelLatestMessagesByUserID_reliable.
Qed.

(** The scenario in the public channel of the sample store. *)
Lemma latest_pointer_stale_but_not_reported_witness :
  let m2 := mkMessage 102%N 1%N 2%N "two" 1006%Z 1006%Z None in
  let m3 := mkMessage 103%N 1%N 2%N "three" 1018%Z 1018%Z None in
  In m2 (latestQuery 9%N false (db scene2))
  /\ latestPointer (db scene3) 2%N 102%N 1006%Z
  /\ reportedFor (db scene3) 9%N false 2%N = []
  /\ In m3 (latestQuery 9%N false (db scene4)).
Proof.
  cbv zeta.
  assert (F1 : fst (CreateMessage 1%N 2%N "one" channelWorld)
               = Ok (mkMessage 101%N 1%N 2%N "one" 1002%Z 1002%Z None))
    by (vm_compute; reflexivity).
  assert (F2 : fst (CreateMessage 1%N 2%N "two" scene1)
               = Ok (mkMessage 102%N 1%N 2%N "two" 1006%Z 1006%Z None))
    by (vm_compute; reflexivity).
  assert (F3 : fst (DeleteMessage 102%N scene2) = Ok tt)
    by (vm_compute; reflexivity).
  assert (F4 : fst (CreateMessage 1%N 2%N "three" scene3)
               = Ok (mkMessage 103%N 1%N 2%N "three" 1018%Z 1018%Z None))
    by (vm_compute; reflexivity).
  assert (Hc : In publicChannel (channels (db channelWorld)))
    by (left; reflexivity).
  assert (Rc : reportable (db channelWorld) 9%N false publicChannel = true)
    by (vm_compute; reflexivity).
  destruct (latest_pointer_stale_but_not_reported
              1%N 1%N 1%N 2%N "one" "two" "three" channelWorld
              (mkMessage 101%N 1%N 2%N "one" 1002%Z 1002%Z None) scene1
              (mkMessage 102%N 1%N 2%N "two" 1006%Z 1006%Z None) scene2 scene3
              (mkMessage 103%N 1%N 2%N "three" 1018%Z 1018%Z None) scene4
              9%N false publicChannel Hc eq_refl Rc
              (run_eq _ _ _ F1) (run_eq _ _ _ F2) (run_eq _ _ _ F3)
              (run_eq _ _ _ F4))
    as ((_ & _ & B2) & (P3 & A3 & _) & (_ & _ & B4) & _).
  split; [exact B2|]. split; [exact P3|]. split; [exact A3 | exact B4].
Defined.

(** * Further properties of the current revision *)

(** ** Lists: order and prefixes *)

Section SortBy.
Context {A : Type} (le : A -> A -> bool).
Hypothesis le_total : forall a b, le a b = false -> le b a = true.
Hypothesis le_trans : forall a b c, le a b = true -> le b c = true -> le a c = true.

Lemma insertBy_sorted x l :
  StronglySorted (fun a b => le a b = true) l ->
  StronglySorted (fun a b => le a b = true) (insertBy le x l).
Proof.
  induction 1 as [|y l Hl IH Hy]; simpl.
  - constructor; constructor.
  - destruct (le x y) eqn:E.
    + constructor; [constructor; assumption|].
      constructor; [exact E|].
      apply Forall_forall. intros z Hz.
      apply (le_trans _ y); [exact E|].
      revert z Hz. apply Forall_forall. exact Hy.
    + constructor; [exact IH|].
      apply Forall_forall. intros z Hz. apply In_insertBy in Hz.
      destruct Hz as [-> | Hz]; [apply le_total; exact E|].
      revert z Hz. apply Forall_forall. exact Hy.
Qed.

Lemma sortBy_sorted l : StronglySorted (fun a b => le a b = true) (sortBy le l).
Proof.
  induction l as [|x l IH]; simpl; [constructor|].
  apply insertBy_sorted. exact IH.
Qed.
End SortBy.

Lemma StronglySorted_firstn {A} (R : A -> A -> Prop) n l :
  StronglySorted R l -> StronglySorted R (firstn n l).
Proof.
  intros H. revert n. induction H as [|x l Hl IH Hx]; intros [|n]; simpl;
    try constructor.
  - apply IH.
  - apply Forall_forall. intros y Hy. apply In_firstn in Hy.
    revert y Hy. apply Forall_forall. exact Hx.
Qed.

Lemma StronglySorted_skipn {A} (R : A -> A -> Prop) n l :
  StronglySorted R l -> StronglySorted R (skipn n l).
Proof.
  intros H. revert n. induction H as [|x l Hl IH Hx]; intros [|n]; simpl;
    try constructor; try assumption.
  apply IH.
Qed.

Lemma StronglySorted_weaken {A} (R S : A -> A -> Prop) l :
  (forall a b, R a b -> S a b) -> StronglySorted R l -> StronglySorted S l.
Proof.
  intros W. induction 1 as [|x l Hl IH Hx]; constructor; [exact IH|].
  apply Forall_forall. intros y Hy. apply W. revert y Hy.
  apply Forall_forall. exact Hx.
Qed.

Lemma sortBy_asc_sorted {A} (key : A -> Z) l :
  StronglySorted (fun a b => (key a <= key b)%Z)
                 (sortBy (fun a b => Z.leb (key a) (key b)) l).
Proof.
  apply (StronglySorted_weaken (fun a b => Z.leb (key a) (key b) = true)).
  { intros a b H. apply Z.leb_le. exact H. }
  apply sortBy_sorted.
  - intros a b H. apply Z.leb_gt in H. apply Z.leb_le. lia.
  - intros a b c H1 H2. apply Z.leb_le in H1, H2. apply Z.leb_le. lia.
Qed.

Lemma sortBy_desc_sorted {A} (key : A -> Z) l :
  StronglySorted (fun a b => (key b <= key a)%Z)
                 (sortBy (fun a b => Z.leb (key b) (key a)) l).
Proof.
  apply (StronglySorted_weaken (fun a b => Z.leb (key b) (key a) = true)).
  { intros a b H. apply Z.leb_le. exact H. }
  apply sortBy_sorted.
  - intros a b H. apply Z.leb_gt in H. apply Z.leb_le. lia.
  - intros a b c H1 H2. apply Z.leb_le in H1, H2. apply Z.leb_le. lia.
Qed.

Lemma length_insertBy {A} (le : A -> A -> bool) x l :
  List.length (insertBy le x l) = S (List.length l).
Proof.
  induction l as [|y l IH]; simpl; [reflexivity|].
  destruct (le x y); simpl; [reflexivity | rewrite IH; reflexivity].
Qed.

Lemma length_sortBy {A} (le : A -> A -> bool) l :
  List.length (sortBy le l) = List.length l.
Proof.
  induction l as [|x l IH]; simpl; [reflexivity|].
  rewrite length_insertBy, IH. reflexivity.
Qed.

Lemma In_skipn {A} n (l : list A) x : In x (skipn n l) -> In x l.
Proof.
  intros H. rewrite <- (firstn_skipn n l). apply in_or_app. right. exact H.
Qed.

Lemma limitRows_prefix {A} n (l : list A) : exists k, limitRows n l = firstn k l.
Proof.
  unfold limitRows. destruct (Z.ltb n 0).
  - exists (List.length l). symmetry. apply firstn_all.
  - eexists. reflexivity.
Qed.

Lemma removelast_prefix {A} k (l : list A) :
  exists j, removelast (firstn k l) = firstn j l.
Proof.
  rewrite removelast_firstn_len, firstn_firstn. eexists. reflexivity.
Qed.

(** ** Listing messages *)

Lemma removelast_firstn_pred {A} (l : list A) :
  removelast l = firstn (Nat.pred (List.length l)) l.
Proof.
  rewrite <- (firstn_all l) at 1. rewrite removelast_firstn_len.
  rewrite firstn_firstn. f_equal. rewrite length_firstn. lia.
Qed.

(** Whatever the limit and whatever the engine answers, [Find] leaves a
    prefix of the rows the query designates in the slice, changes no table
    and publishes nothing. *)
Lemma findMessages_prefix q limit w :
  let '(ms, err, w1) := findMessages q limit w in
  (exists k, ms = firstn k (matchingRows q (db w)))
  /\ db w1 = db w /\ published w1 = published w.
Proof.
  destruct (fault (env w) (tick w)) as [c|] eqn:F.
  - rewrite (findMessages_faulty _ _ _ _ F).
    split; [exists 0; reflexivity|]. split; [reflexivity|].
    unfold published. simpl. rewrite events_app. simpl. apply app_nil_r.
  - destruct (findMessages_answered q limit w F)
      as (err & w1 & l & E & _ & D & P & _).
    rewrite E. split; [|split; assumption].
    unfold fetched. destruct limit as [n|]; [apply limitRows_prefix|].
    exists (List.length (matchingRows q (db w))). symmetry. apply firstn_all.
Qed.

(** Whatever the engine answers, [GetMessages] returns a prefix of the rows
    of the statement it sends, changes no table and publishes nothing. *)
Lemma GetMessages_prefix q w :
  let '(ms, more, err, w') := GetMessages q w in
  (exists k, ms = firstn k (if activityPath q then activityRows (db w)
                            else matchingRows q (db w)))
  /\ db w' = db w /\ published w' = published w.
Proof.
  unfold GetMessages. destruct (activityPath q).
  - destruct (fault (env w) (tick w)) as [c|] eqn:F.
    + rewrite (scanRaw_faulty _ _ _ _ F). cbv beta iota.
      assert (P : published (next_tick (record (Stmt SELECT TMessages) w))
                  = published w).
      { unfold published. simpl. rewrite events_app. simpl. apply app_nil_r. }
      destruct (Z.gtb _ _); (split; [exists 0; reflexivity|]);
        (split; [reflexivity | exact P]).
    + rewrite (scanRaw_reliable _ _ _ F). cbv beta iota.
      assert (P : published (with_db (next_tick (record (Stmt SELECT TMessages) w))
                                     (db w)) = published w).
      { unfold published. simpl. rewrite events_app. simpl. apply app_nil_r. }
      destruct (Z.gtb _ _); (split; [|split; [reflexivity | exact P]]).
      * eexists. apply removelast_firstn_pred.
      * eexists. symmetry. apply firstn_all.
  - destruct (Z.ltb 0 (q_Limit q)).
    + pose proof (findMessages_prefix q (Some (int_add (q_Limit q) 1)) w) as S.
      destruct (findMessages q (Some (int_add (q_Limit q) 1)) w)
        as [[messages err] w1].
      destruct S as ((k & ->) & D & P).
      destruct (Z.gtb _ _); split; auto.
      * apply removelast_prefix.
      * exists k. reflexivity.
    + pose proof (findMessages_prefix q None w) as S.
      destruct (findMessages q None w) as [[messages err] w1].
      exact S.
Qed.

Lemma In_joinChannels d ms m c :
  In (m, c) (joinChannels d ms) <->
  In m ms /\ In c (channels d) /\ ch_ID c = ChannelID m.
Proof.
  unfold joinChannels. rewrite in_flat_map. split.
  - intros (m' & Hm & H). apply in_map_iff in H. destruct H as (c' & E & H).
    injection E as -> ->. apply filter_In in H. destruct H as [H Ec].
    apply N.eqb_eq in Ec. auto.
  - intros (Hm & Hc & Ec). exists m. split; [exact Hm|].
    apply in_map_iff. exists c. split; [reflexivity|].
    apply filter_In. split; [exact Hc | apply N.eqb_eq; exact Ec].
Qed.

Lemma In_matchingRows q d m :
  In m (matchingRows q d) -> In m (whereRows q d).
Proof.
  unfold matchingRows, offsetRows, orderRows. intros H.
  assert (H' : In m (if q_Asc q
                     then sortBy (fun a b => Z.leb (CreatedAt a) (CreatedAt b))
                                 (whereRows q d)
                     else sortBy (fun a b => Z.leb (CreatedAt b) (CreatedAt a))
                                 (whereRows q d))).
  { destruct (Z.ltb 0 (q_Offset q)); [exact (In_skipn _ _ _ H) | exact H]. }
  destruct (q_Asc q); apply In_sortBy in H'; exact H'.
Qed.

(** The rows of the query, read off its WHERE and JOIN clauses. *)
Lemma In_whereRows q d m :
  In m (whereRows q d) ->
  In m (messages d) /\ live m = true /\ whereMessage q m = true
  /\ (q_ExcludeDMs q = true ->
      exists c, In c (channels d) /\ ch_ID c = ChannelID m
                /\ ch_IsPublic c = true)
  /\ (q_ChannelsSubscribedByUser q <> uuid_Nil ->
      exists c, In c (channels d) /\ ch_ID c = ChannelID m
                /\ forcedOrSubscribed d (q_ChannelsSubscribedByUser q) c = true).
Proof.
  unfold whereRows. destruct (activityPath q) eqn:Act.
  - unfold activityPath in Act.
    repeat (apply andb_prop in Act; destruct Act as [Act ?]).
    intros Hin. unfold activityRows in Hin.
    apply in_map_iff in Hin. destruct Hin as ([m' c] & E & Hin).
    simpl in E. subst m'. apply filter_In in Hin. destruct Hin as [Hin Pc].
    apply In_joinChannels in Hin. destruct Hin as (Hm & Hc & Ec).
    apply filter_In in Hm. destruct Hm as [Hm Lm]. simpl in Pc.
    split; [exact Hm|]. split; [exact Lm|]. split.
    { unfold whereMessage.
      match goal with H : N.eqb (q_Channel q) _ = true |- _ => rewrite H end.
      match goal with H : N.eqb (q_User q) _ = true |- _ => rewrite H end.
      destruct (q_Since q); [discriminate|].
      destruct (q_Until q); [discriminate|].
      destruct (q_Inclusive q); reflexivity. }
    split.
    + intros _. exists c. auto.
    + intros Hs. exfalso. apply Hs. apply N.eqb_eq. assumption.
  - intros H. apply filter_In in H. destruct H as [H Wm].
    destruct (negb (N.eqb (q_ChannelsSubscribedByUser q) uuid_Nil)
              || q_ExcludeDMs q) eqn:J.
    + apply in_map_iff in H. destruct H as ([m' c] & E & H).
      simpl in E. subst m'. apply filter_In in H. destruct H as [H Wc].
      apply In_joinChannels in H. destruct H as (Hm & Hc & Ec).
      apply filter_In in Hm. destruct Hm as [Hm Lm].
      simpl in Wc. unfold whereChannel in Wc.
      apply andb_prop in Wc. destruct Wc as [Ws Wp].
      split; [exact Hm|]. split; [exact Lm|]. split; [exact Wm|]. split.
      * intros Ex. rewrite Ex in Wp. exists c. auto.
      * intros Hs. apply N.eqb_neq in Hs. rewrite Hs in Ws. exists c. auto.
    + apply orb_false_elim in J. destruct J as [J1 J2].
      apply negb_false_iff in J1. apply N.eqb_eq in J1.
      apply filter_In in H. destruct H as [Hm Lm].
      split; [exact Hm|]. split; [exact Lm|]. split; [exact Wm|]. split.
      * intros Ex. congruence.
      * intros Hs. contradiction.
Qed.

(** Both statements return rows of the query only. *)
Lemma GetMessages_whereRows q w ms more err w' :
  GetMessages q w = ((ms, more, err), w') ->
  forall m, In m ms -> In m (whereRows q (db w)).
Proof.
  intros H m Hm. pose proof (GetMessages_prefix q w) as P. rewrite H in P.
  destruct P as ((k & ->) & _). apply In_firstn in Hm.
  unfold whereRows. destruct (activityPath q) eqn:Act; [exact Hm|].
  apply In_matchingRows in Hm. unfold whereRows in Hm. rewrite Act in Hm.
  exact Hm.
Qed.

(** X1: every message [GetMessages] returns is a stored message that is not
    deleted and satisfies each condition the query sets: channel, author,
    time window (inclusive or exclusive as asked), public channel when
    direct messages are excluded, forced or subscribed channel when a
    subscriber is given. *)
Theorem GetMessages_returns_matching q w ms more err w' :
  GetMessages q w = ((ms, more, err), w') ->
  forall m, In m ms ->
    In m (messages (db w)) /\ DeletedAt m = None
    /\ (q_Channel q <> uuid_Nil -> ChannelID m = q_Channel q)
    /\ (q_User q <> uuid_Nil -> UserID m = q_User q)
    /\ (forall t, q_Since q = Some t ->
          if q_Inclusive q then (t <= CreatedAt m)%Z else (t < CreatedAt m)%Z)
    /\ (forall t, q_Until q = Some t ->
          if q_Inclusive q then (CreatedAt m <= t)%Z else (CreatedAt m < t)%Z)
    /\ (q_ExcludeDMs q = true ->
        exists c, In c (channels (db w)) /\ ch_ID c = ChannelID m
                  /\ ch_IsPublic c = true)
    /\ (q_ChannelsSubscribedByUser q <> uuid_Nil ->
        exists c, In c (channels (db w)) /\ ch_ID c = ChannelID m
                  /\ forcedOrSubscribed (db w) (q_ChannelsSubscribedByUser q) c
                     = true).
Proof.
  intros H m Hm. apply (GetMessages_whereRows _ _ _ _ _ _ H) in Hm.
  apply In_whereRows in Hm. destruct Hm as (Hs & Lm & Wm & Pub & Sub).
  split; [exact Hs|]. split.
  { unfold live in Lm. destruct (DeletedAt m); [discriminate | reflexivity]. }
  unfold whereMessage in Wm.
  apply andb_prop in Wm. destruct Wm as [Wm Wt].
  apply andb_prop in Wm. destruct Wm as [Wc Wu].
  split.
  { intros Hc. apply N.eqb_neq in Hc. rewrite Hc in Wc.
    apply N.eqb_eq. exact Wc. }
  split.
  { intros Hu. apply N.eqb_neq in Hu. rewrite Hu in Wu.
    apply N.eqb_eq. exact Wu. }
  split.
  { intros t Et. rewrite Et in Wt. destruct (q_Inclusive q);
      apply andb_prop in Wt; destruct Wt as [Wt _].
    - apply Z.geb_le in Wt. exact Wt.
    - apply Z.gtb_lt in Wt. exact Wt. }
  split.
  { intros t Et. rewrite Et in Wt. destruct (q_Inclusive q);
      apply andb_prop in Wt; destruct Wt as [_ Wt].
    - apply Z.leb_le in Wt. exact Wt.
    - apply Z.ltb_lt in Wt. exact Wt. }
  split; assumption.
Qed.

(** The page of two of the sample store: the newest message is in the
    channel asked for and is not deleted. *)
Lemma GetMessages_returns_matching_witness :
  ChannelID (mkMessage 7%N 1%N 2%N "c" 30%Z 30%Z None) = q_Channel pageQuery
  /\ DeletedAt (mkMessage 7%N 1%N 2%N "c" 30%Z 30%Z None) = None.
Proof.
  assert (H : GetMessages pageQuery threeWorld
              = (([mkMessage 7%N 1%N 2%N "c" 30%Z 30%Z None;
                   mkMessage 6%N 1%N 2%N "b" 20%Z 20%Z None], true, None),
                 snd (GetMessages pageQuery threeWorld)))
    by (apply run_eq; vm_compute; reflexivity).
  destruct (GetMessages_returns_matching _ _ _ _ _ _ H
              (mkMessage 7%N 1%N 2%N "c" 30%Z 30%Z None) (or_introl eq_refl))
    as (_ & D & C & _).
  split; [apply C; discriminate | exact D].
Defined.

Lemma matchingRows_sorted q d :
  if q_Asc q
  then StronglySorted (fun a b => (CreatedAt a <= CreatedAt b)%Z)
                      (matchingRows q d)
  else StronglySorted (fun a b => (CreatedAt b <= CreatedAt a)%Z)
                      (matchingRows q d).
Proof.
  unfold matchingRows, offsetRows, orderRows.
  destruct (q_Asc q); destruct (Z.ltb 0 (q_Offset q));
    try apply StronglySorted_skipn;
    first [apply sortBy_asc_sorted | apply sortBy_desc_sorted].
Qed.

(** X2: a query that takes the generated statement gets its messages in the
    order asked, creation time ascending when [Asc] is set and descending
    otherwise, whatever the limit and whatever becomes of the preloads.
    (The hand-written statement of the activity feed has no ORDER BY.) *)
Theorem GetMessages_ordered q w ms more err w' :
  activityPath q = false ->
  GetMessages q w = ((ms, more, err), w') ->
  if q_Asc q
  then StronglySorted (fun a b => (CreatedAt a <= CreatedAt b)%Z) ms
  else StronglySorted (fun a b => (CreatedAt b <= CreatedAt a)%Z) ms.
Proof.
  intros Act H. pose proof (GetMessages_prefix q w) as P. rewrite H, Act in P.
  destruct P as ((k & ->) & _). pose proof (matchingRows_sorted q (db w)) as S.
  destruct (q_Asc q); apply StronglySorted_firstn; exact S.
Qed.

(** The page of two of the sample store comes newest first. *)
Lemma GetMessages_ordered_witness :
  StronglySorted (fun a b => (CreatedAt b <= CreatedAt a)%Z)
                 [mkMessage 7%N 1%N 2%N "c" 30%Z 30%Z None;
                  mkMessage 6%N 1%N 2%N "b" 20%Z 20%Z None].
Proof.
  assert (H : GetMessages pageQuery threeWorld
              = (([mkMessage 7%N 1%N 2%N "c" 30%Z 30%Z None;
                   mkMessage 6%N 1%N 2%N "b" 20%Z 20%Z None], true, None),
                 snd (GetMessages pageQuery threeWorld)))
    by (apply run_eq; vm_compute; reflexivity).
  exact (GetMessages_ordered pageQuery _ _ _ _ _ eq_refl H).
Defined.

Lemma firstn_add {A} a b (l : list A) :
  firstn (a + b) l = firstn a l ++ firstn b (skipn a l).
Proof.
  revert l. induction a as [|a IH]; intros l; simpl; [reflexivity|].
  destruct l as [|x l]; simpl.
  - rewrite firstn_nil. reflexivity.
  - rewrite IH. reflexivity.
Qed.

(** One page of the generated statement: the first [N] rows of the query
    and whether there are more. *)
Lemma GetMessages_page q w :
  activityPath q = false ->
  (0 < q_Limit q <= max_int)%Z ->
  (Z.of_nat (List.length (matchingRows q (db w))) <= max_int)%Z ->
  fault (env w) (tick w) = None ->
  fst (fst (GetMessages q w))
  = (firstn (Z.to_nat (q_Limit q)) (matchingRows q (db w)),
     Nat.ltb (Z.to_nat (q_Limit q)) (List.length (matchingRows q (db w)))).
Proof.
  intros Act HN Hrows F. unfold GetMessages. rewrite Act.
  assert (Hl : Z.ltb 0 (q_Limit q) = true) by (apply Z.ltb_lt; apply HN).
  rewrite Hl.
  destruct (findMessages_answered q (Some (int_add (q_Limit q) 1)) w F)
    as (err & w1 & l & E & _).
  rewrite E. cbv beta iota.
  pose proof (fetched_lookahead q (db w) HN Hrows) as T. cbv zeta in T.
  destruct (Z.gtb _ _); destruct T as [T1 T2]; cbn [fst]; rewrite T1.
  - apply Nat.ltb_lt in T2. rewrite T2. reflexivity.
  - apply Nat.ltb_ge in T2. rewrite T2. reflexivity.
Qed.

Lemma matchingRows_withOffset q k d :
  (0 <= k)%Z ->
  matchingRows (withOffset q k) d
  = skipn (Z.to_nat k) (orderRows (q_Asc q) (whereRows q d)).
Proof.
  intros Hk. unfold matchingRows, offsetRows.
  change (whereRows (withOffset q k) d) with (whereRows q d).
  change (q_Asc (withOffset q k)) with (q_Asc q).
  change (q_Offset (withOffset q k)) with k.
  destruct (Z.ltb 0 k) eqn:G; [reflexivity|].
  apply Z.ltb_ge in G. replace k with 0%Z by lia. reflexivity.
Qed.

Lemma length_orderRows asc l : List.length (orderRows asc l) = List.length l.
Proof. unfold orderRows. destruct asc; apply length_sortBy. Qed.

(** *** The same rows in another scan order *)

Lemma Permutation_filter {A} (p : A -> bool) l l' :
  Permutation l l' -> Permutation (filter p l) (filter p l').
Proof.
  induction 1 as [|x l l' H IH|x y l|l l' l'' H1 IH1 H2 IH2]; simpl.
  - constructor.
  - destruct (p x); [constructor|]; exact IH.
  - destruct (p x), (p y); try apply Permutation_refl. apply perm_swap.
  - eapply Permutation_trans; eassumption.
Qed.

Lemma existsb_Permutation {A} (p : A -> bool) l l' :
  Permutation l l' -> existsb p l = existsb p l'.
Proof.
  induction 1 as [|x l l' H IH|x y l|l l' l'' H1 IH1 H2 IH2]; simpl.
  - reflexivity.
  - rewrite IH. reflexivity.
  - destruct (p x), (p y); reflexivity.
  - congruence.
Qed.

Lemma Permutation_flat_map_pointwise {A B} (f g : A -> list B) l :
  (forall x, Permutation (f x) (g x)) ->
  Permutation (flat_map f l) (flat_map g l).
Proof.
  intros H. induction l as [|x l IH]; simpl; [constructor|].
  apply Permutation_app; [apply H | exact IH].
Qed.

Lemma Permutation_insertBy {A} (le : A -> A -> bool) x l :
  Permutation (insertBy le x l) (x :: l).
Proof.
  induction l as [|y l IH]; simpl; [apply Permutation_refl|].
  destruct (le x y); [apply Permutation_refl|].
  eapply Permutation_trans; [apply perm_skip; exact IH | apply perm_swap].
Qed.

Lemma Permutation_sortBy {A} (le : A -> A -> bool) l :
  Permutation (sortBy le l) l.
Proof.
  induction l as [|x l IH]; simpl; [constructor|].
  eapply Permutation_trans; [apply Permutation_insertBy|].
  apply perm_skip. exact IH.
Qed.

(** A list has one sorted arrangement when no two of its members tie. *)
Lemma sorted_Permutation_eq {A} (R : A -> A -> Prop) l1 :
  forall l2,
    (forall a b, In a l1 -> In b l1 -> R a b -> R b a -> a = b) ->
    StronglySorted R l1 -> StronglySorted R l2 -> Permutation l1 l2 ->
    l1 = l2.
Proof.
  induction l1 as [|x l1 IH]; intros l2 Anti S1 S2 P.
  - apply Permutation_nil in P. subst l2. reflexivity.
  - destruct l2 as [|y l2].
    { apply Permutation_sym, Permutation_nil in P. discriminate. }
    inversion S1 as [|? ? S1' F1]; subst.
    inversion S2 as [|? ? S2' F2]; subst.
    assert (E : x = y).
    { assert (Hy : In y (x :: l1))
        by (apply (Permutation_in _ (Permutation_sym P)); left; reflexivity).
      assert (Hx : In x (y :: l2))
        by (apply (Permutation_in _ P); left; reflexivity).
      destruct Hy as [Hy|Hy]; [exact Hy|].
      destruct Hx as [Hx|Hx]; [symmetry; exact Hx|].
      apply Anti; [left; reflexivity | right; exact Hy | |].
      - exact (proj1 (Forall_forall _ _) F1 y Hy).
      - exact (proj1 (Forall_forall _ _) F2 x Hx). }
    subst y. f_equal. apply IH.
    + intros a b Ha Hb. apply Anti; right; assumption.
    + exact S1'.
    + exact S2'.
    + exact (Permutation_cons_inv P).
Qed.

Lemma NoDup_map_eq {A B} (f : A -> B) l a b :
  NoDup (map f l) -> In a l -> In b l -> f a = f b -> a = b.
Proof.
  induction l as [|x l IH]; simpl; intros N Ha Hb E; [contradiction|].
  inversion N as [|? ? Nx Nl]; subst.
  destruct Ha as [->|Ha], Hb as [->|Hb].
  - reflexivity.
  - exfalso. apply Nx. rewrite E. apply in_map. exact Hb.
  - exfalso. apply Nx. rewrite <- E. apply in_map. exact Ha.
  - apply IH; assumption.
Qed.

(** ORDER BY created_at gives one list, however the rows were scanned, when
    their creation times are pairwise distinct. *)
Lemma orderRows_Permutation asc l l' :
  NoDup (map CreatedAt l) -> Permutation l' l ->
  orderRows asc l' = orderRows asc l.
Proof.
  intros N P.
  assert (Q : forall le, Permutation (sortBy le l') (sortBy le l)).
  { intros le. eapply Permutation_trans; [apply Permutation_sortBy|].
    eapply Permutation_trans; [exact P|].
    apply Permutation_sym, Permutation_sortBy. }
  assert (Inj : forall le a b, In a (sortBy le l') -> In b (sortBy le l') ->
                               CreatedAt a = CreatedAt b -> a = b).
  { intros le a b Ha Hb. apply In_sortBy in Ha, Hb.
    apply (NoDup_map_eq CreatedAt l); try assumption;
      apply (Permutation_in _ P); assumption. }
  unfold orderRows. destruct asc.
  - apply (sorted_Permutation_eq
             (fun a b => (CreatedAt a <= CreatedAt b)%Z)).
    + intros a b Ha Hb H1 H2. apply (Inj _ a b Ha Hb). lia.
    + apply sortBy_asc_sorted.
    + apply sortBy_asc_sorted.
    + apply Q.
  - apply (sorted_Permutation_eq
             (fun a b => (CreatedAt b <= CreatedAt a)%Z)).
    + intros a b Ha Hb H1 H2. apply (Inj _ a b Ha Hb). lia.
    + apply sortBy_desc_sorted.
    + apply sortBy_desc_sorted.
    + apply Q.
Qed.

Lemma Permutation_joinChannels d d' ms ms' :
  Permutation (channels d) (channels d') -> Permutation ms ms' ->
  Permutation (joinChannels d ms) (joinChannels d' ms').
Proof.
  intros Pc Pm. unfold joinChannels.
  eapply Permutation_trans.
  - apply Permutation_flat_map. exact Pm.
  - apply Permutation_flat_map_pointwise. intros m.
    apply Permutation_map, Permutation_filter. exact Pc.
Qed.

Lemma whereRows_sameRows q d d' :
  sameRows d d' -> Permutation (whereRows q d) (whereRows q d').
Proof.
  intros (Pm & Pc & Ps).
  assert (J : Permutation (joinChannels d (filter live (messages d)))
                          (joinChannels d' (filter live (messages d')))).
  { apply Permutation_joinChannels; [exact Pc|].
    apply Permutation_filter. exact Pm. }
  unfold whereRows, activityRows. destruct (activityPath q).
  - apply Permutation_map, Permutation_filter. exact J.
  - apply Permutation_filter.
    destruct (negb (N.eqb (q_ChannelsSubscribedByUser q) uuid_Nil)
              || q_ExcludeDMs q).
    + apply Permutation_map.
      rewrite (filter_ext (fun mc => whereChannel q d (snd mc))
                          (fun mc => whereChannel q d' (snd mc))).
      * apply Permutation_filter. exact J.
      * intros [m c]. unfold whereChannel, forcedOrSubscribed. simpl.
        rewrite (existsb_Permutation _ _ _ Ps). reflexivity.
    + apply Permutation_filter. exact Pm.
Qed.

(** X4: consecutive pages compose.  For a query that takes the generated
    statement and whose rows have pairwise distinct creation times, the page
    at offset [k] followed by the page at offset [k + N], both of size [N]
    and asked of tables that hold the same rows (in whatever order the
    engine scans them), are the first [2N] rows that follow the [k]-th row
    of the query. *)
Theorem GetMessages_pages_compose q k w1 w2 :
  activityPath q = false ->
  (0 < q_Limit q <= max_int)%Z -> (0 <= k)%Z ->
  (Z.of_nat (List.length (whereRows q (db w1))) <= max_int)%Z ->
  NoDup (map CreatedAt (whereRows q (db w1))) ->
  sameRows (db w2) (db w1) ->
  fault (env w1) (tick w1) = None -> fault (env w2) (tick w2) = None ->
  let N := Z.to_nat (q_Limit q) in
  fst (fst (fst (GetMessages (withOffset q k) w1)))
  ++ fst (fst (fst (GetMessages (withOffset q (k + q_Limit q)) w2)))
  = firstn (N + N)
           (skipn (Z.to_nat k) (orderRows (q_Asc q) (whereRows q (db w1)))).
Proof.
  intros Act HN Hk Hrows ND Same F1 F2. cbv zeta.
  assert (O : orderRows (q_Asc q) (whereRows q (db w2))
              = orderRows (q_Asc q) (whereRows q (db w1))).
  { apply orderRows_Permutation; [exact ND|].
    apply whereRows_sameRows. exact Same. }
  assert (M : forall j, (0 <= j)%Z ->
            matchingRows (withOffset q j) (db w2)
            = matchingRows (withOffset q j) (db w1)).
  { intros j Hj. rewrite !matchingRows_withOffset by exact Hj.
    rewrite O. reflexivity. }
  assert (Len : forall j, (0 <= j)%Z ->
            (Z.of_nat (List.length (matchingRows (withOffset q j) (db w1)))
             <= max_int)%Z).
  { intros j Hj. rewrite matchingRows_withOffset by exact Hj.
    rewrite length_skipn, length_orderRows. lia. }
  assert (Len2 : (Z.of_nat (List.length
                    (matchingRows (withOffset q (k + q_Limit q)) (db w2)))
                  <= max_int)%Z).
  { rewrite M by lia. apply Len. lia. }
  rewrite (GetMessages_page (withOffset q k) w1 Act HN (Len k Hk) F1).
  rewrite (GetMessages_page (withOffset q (k + q_Limit q)) w2 Act HN Len2 F2).
  cbn [fst]. change (q_Limit (withOffset q k)) with (q_Limit q).
  change (q_Limit (withOffset q (k + q_Limit q))) with (q_Limit q).
  rewrite M by lia. rewrite !matchingRows_withOffset by lia.
  rewrite Z2Nat.inj_add by lia.
  rewrite (Nat.add_comm (Z.to_nat k)), <- skipn_skipn.
  symmetry. apply firstn_add.
Qed.

(** Two pages of two over the three messages of the sample store, the
    second page read while the engine scans the table in another order. *)
Lemma GetMessages_pages_compose_witness :
  fst (fst (fst (GetMessages (withOffset pageQuery 0) threeWorld)))
  ++ fst (fst (fst (GetMessages (withOffset pageQuery (0 + 2)) threeWorldRescanned)))
  = firstn (2 + 2)
           (skipn 0 (orderRows false (whereRows pageQuery (db threeWorld)))).
Proof.
  assert (H1 : (0 < q_Limit pageQuery <= max_int)%Z)
    by (split; [reflexivity | vm_compute; discriminate]).
  assert (H3 : (Z.of_nat (List.length (whereRows pageQuery (db threeWorld)))
                <= max_int)%Z)
    by (vm_compute; discriminate).
  assert (ND : NoDup (map CreatedAt (whereRows pageQuery (db threeWorld)))).
  { change (NoDup [10%Z; 20%Z; 30%Z]).
    repeat constructor; simpl; intuition discriminate. }
  assert (Same : sameRows (db threeWorldRescanned) (db threeWorld)).
  { split; [|split; apply Permutation_refl]. simpl.
    eapply Permutation_trans; [apply perm_skip; apply perm_swap|].
    apply perm_swap. }
  exact (GetMessages_pages_compose pageQuery 0%Z threeWorld threeWorldRescanned
           eq_refl H1 (Z.le_refl 0) H3 ND Same eq_refl eq_refl).
Defined.

(** ** Preloads *)




(** ** Incremental sync *)

Lemma trimTo_negative limit r : (limit < 0)%Z -> trimTo limit r = None.
Proof.
  intros L. destruct r as [messages err]. unfold trimTo, sliceTo.
  assert (G : Z.gtb (Z.of_nat (List.length messages)) limit = true)
    by (apply Z.gtb_lt; lia).
  rewrite G. apply Z.ltb_lt in L. rewrite L. reflexivity.
Qed.

(** X5: [GetUpdatedMessagesAfter] and [GetDeletedMessagesAfter] panic on a
    negative limit, whatever the tables hold and whatever the engine
    answers: the length of the fetched slice exceeds the limit, and
    [messages[:limit]] is out of range. *)
Theorem sync_negative_limit_panics after limit w :
  (limit < 0)%Z ->
  fst (GetUpdatedMessagesAfter after limit w) = None
  /\ fst (GetDeletedMessagesAfter after limit w) = None.
Proof.
  intros L. unfold GetUpdatedMessagesAfter, GetDeletedMessagesAfter. split.
  - destruct (scanRaw _ _ w) as [r w1]. simpl. apply trimTo_negative, L.
  - destruct (scanRaw _ _ w) as [r w1]. simpl. apply trimTo_negative, L.
Qed.

Lemma sync_negative_limit_panics_witness :
  fst (GetUpdatedMessagesAfter 0%Z (-1)%Z threeWorld) = None
  /\ fst (GetDeletedMessagesAfter 0%Z (-1)%Z threeWorld) = None.
Proof. apply sync_negative_limit_panics. reflexivity. Defined.

(** Cutting the fetched rows at [limit]. *)
Lemma trimTo_lookahead (rows : list Message) limit :
  (0 <= limit)%Z ->
  trimTo limit (rows, None)
  = Some (firstn (Z.to_nat limit) rows,
          Nat.ltb (Z.to_nat limit) (List.length rows), None).
Proof.
  intros Hpos. unfold trimTo, sliceTo.
  assert (HN : Z.of_nat (Z.to_nat limit) = limit) by (apply Z2Nat.id; lia).
  destruct (Z.ltb limit 0) eqn:L; [apply Z.ltb_lt in L; lia|].
  destruct (Z.gtb (Z.of_nat (List.length rows)) limit) eqn:G.
  - apply Z.gtb_lt in G.
    replace (Nat.ltb (Z.to_nat limit) (List.length rows)) with true;
      [reflexivity|]. symmetry. apply Nat.ltb_lt. lia.
  - assert (G' : List.length rows <= Z.to_nat limit).
    { destruct (Z.gtb_spec (Z.of_nat (List.length rows)) limit);
        [discriminate | lia]. }
    replace (Nat.ltb (Z.to_nat limit) (List.length rows)) with false
      by (symmetry; apply Nat.ltb_ge; exact G').
    rewrite firstn_all2 by lia. reflexivity.
Qed.

Lemma GetUpdatedMessagesAfter_reliable after limit w :
  (0 <= limit <= max_int)%Z ->
  (Z.of_nat (List.length (messages (db w))) <= max_int)%Z ->
  fault (env w) (tick w) = None ->
  fst (GetUpdatedMessagesAfter after limit w)
  = Some (firstn (Z.to_nat limit) (updatedRows after (db w)),
          Nat.ltb (Z.to_nat limit) (List.length (updatedRows after (db w))),
          None).
Proof.
  intros HN Hrows F. unfold GetUpdatedMessagesAfter.
  rewrite (scanRaw_reliable _ _ _ F). cbn [fst].
  apply trimTo_lookahead. apply HN.
Qed.

Lemma GetDeletedMessagesAfter_reliable after limit w :
  (0 <= limit <= max_int)%Z ->
  (Z.of_nat (List.length (messages (db w))) <= max_int)%Z ->
  fault (env w) (tick w) = None ->
  fst (GetDeletedMessagesAfter after limit w)
  = Some (firstn (Z.to_nat limit) (deletedRows after (db w)),
          Nat.ltb (Z.to_nat limit) (List.length (deletedRows after (db w))),
          None).
Proof.
  intros HN Hrows F. unfold GetDeletedMessagesAfter.
  rewrite (scanRaw_reliable _ _ _ F). cbn [fst].
  apply trimTo_lookahead. apply HN.
Qed.

(** X6: with a limit [N >= 0], and the engine answering, each of the two sync
    reads returns the first [N] rows of its query and sets [more] exactly
    when the query has more than [N] rows. *)
Theorem sync_lookahead after limit w :
  (0 <= limit <= max_int)%Z ->
  (Z.of_nat (List.length (messages (db w))) <= max_int)%Z ->
  fault (env w) (tick w) = None ->
  fst (GetUpdatedMessagesAfter after limit w)
  = Some (firstn (Z.to_nat limit) (updatedRows after (db w)),
          Nat.ltb (Z.to_nat limit) (List.length (updatedRows after (db w))),
          None)
  /\ fst (GetDeletedMessagesAfter after limit w)
     = Some (firstn (Z.to_nat limit) (deletedRows after (db w)),
             Nat.ltb (Z.to_nat limit) (List.length (deletedRows after (db w))),
             None).
Proof.
  intros HN Hrows F. split.
  - apply GetUpdatedMessagesAfter_reliable; assumption.
  - apply GetDeletedMessagesAfter_reliable; assumption.
Qed.

Lemma sync_lookahead_witness :
  fst (GetUpdatedMessagesAfter 10%Z 1%Z threeWorld)
  = Some (firstn 1 (updatedRows 10%Z (db threeWorld)),
          Nat.ltb 1 (List.length (updatedRows 10%Z (db threeWorld))), None).
Proof.
  apply (sync_lookahead 10%Z 1%Z threeWorld).
  - split; [discriminate | vm_compute; discriminate].
  - vm_compute. discriminate.
  - reflexivity.
Defined.

(** Both sync reads return a prefix of the rows of their query. *)
Lemma sync_prefix (rows : DB -> list Message) limit w r :
  fst (let '(r, w1) := scanRaw TMessages rows w in (trimTo limit r, w1))
  = Some r ->
  exists k, fst (fst r) = firstn k (rows (db w)).
Proof.
  destruct r as [[ms more] err]. unfold scanRaw, scanInto, exec.
  destruct (fault (env w) (tick w)); cbn [fst]; unfold trimTo, sliceTo.
  - destruct (Z.gtb _ limit); [destruct (Z.ltb limit 0); [discriminate|]|];
      intros H; injection H as <- _ _; exists 0;
        [rewrite firstn_nil|]; reflexivity.
  - destruct (Z.gtb _ limit); [destruct (Z.ltb limit 0); [discriminate|]|];
      intros H; injection H as <- _ _.
    + eexists. reflexivity.
    + exists (List.length (rows (db w))). symmetry. apply firstn_all.
Qed.

Lemma In_updatedRows after d m :
  In m (updatedRows after d) <->
  In m (messages d) /\ DeletedAt m = None /\ (after < UpdatedAt m)%Z.
Proof.
  unfold updatedRows. rewrite In_sortBy, filter_In. unfold live.
  split.
  - intros (Hm & H). apply andb_prop in H. destruct H as [L U].
    apply Z.ltb_lt in U. destruct (DeletedAt m); [discriminate|]. auto.
  - intros (Hm & D & U). rewrite D. apply Z.ltb_lt in U. rewrite U. auto.
Qed.

Lemma In_deletedRows after d m :
  In m (deletedRows after d) <->
  In m (messages d) /\ exists t, DeletedAt m = Some t /\ (after < t)%Z.
Proof.
  unfold deletedRows. rewrite In_sortBy, filter_In. unfold deletedAfter.
  split.
  - intros (Hm & H). destruct (DeletedAt m) as [t|]; [|discriminate].
    apply Z.ltb_lt in H. eauto.
  - intros (Hm & t & D & U). rewrite D. apply Z.ltb_lt in U. auto.
Qed.

(** X7: what the sync reads list.  [GetUpdatedMessagesAfter] returns only
    messages that are not deleted and were updated strictly after the given
    time, oldest update first; [GetDeletedMessagesAfter] returns only
    messages deleted strictly after the given time, oldest deletion first. *)
Theorem sync_rows_content after limit w :
  (forall ms more err,
      fst (GetUpdatedMessagesAfter after limit w) = Some (ms, more, err) ->
      Forall (fun m => DeletedAt m = None /\ (after < UpdatedAt m)%Z) ms
      /\ StronglySorted (fun a b => (UpdatedAt a <= UpdatedAt b)%Z) ms)
  /\ (forall ms more err,
         fst (GetDeletedMessagesAfter after limit w) = Some (ms, more, err) ->
         Forall (fun m => exists t, DeletedAt m = Some t /\ (after < t)%Z) ms
         /\ StronglySorted
              (fun a b => (deletionTime a <= deletionTime b)%Z) ms).
Proof.
  split; intros ms more err H.
  - destruct (sync_prefix (updatedRows after) _ _ _ H) as [k E].
    simpl in E. subst ms. split.
    + apply Forall_forall. intros m Hm. apply In_firstn in Hm.
      apply In_updatedRows in Hm. tauto.
    + apply StronglySorted_firstn. unfold updatedRows.
      apply sortBy_asc_sorted.
  - destruct (sync_prefix (deletedRows after) _ _ _ H) as [k E].
    simpl in E. subst ms. split.
    + apply Forall_forall. intros m Hm. apply In_firstn in Hm.
      apply In_deletedRows in Hm. tauto.
    + apply StronglySorted_firstn. unfold deletedRows.
      apply (sortBy_asc_sorted deletionTime).
Qed.

Lemma sync_rows_content_witness :
  Forall (fun m => DeletedAt m = None /\ (10 < UpdatedAt m)%Z)
         [mkMessage 6%N 1%N 2%N "b" 20%Z 20%Z None].
Proof.
  assert (H : fst (GetUpdatedMessagesAfter 10%Z 1%Z threeWorld)
              = Some ([mkMessage 6%N 1%N 2%N "b" 20%Z 20%Z None], true, None))
    by (vm_compute; reflexivity).
  exact (proj1 (proj1 (sync_rows_content 10%Z 1%Z threeWorld) _ _ _ H)).
Defined.

Lemma softDeleted_target id t m :
  hasID id m && live m = true ->
  softDeleted id t m
  = mkMessage (ID m) (UserID m) (ChannelID m) (Text m) (CreatedAt m)
              (UpdatedAt m) (Some t).
Proof. unfold softDeleted. intros ->. reflexivity. Qed.

(** X8: a deletion shows in the sync feeds.  After a successful
    [DeleteMessage id], carried out at time [t], the deleted feed asked from
    any earlier time (without cutting) lists the message, with its text and
    with [t] as deletion time, and the updated feed never lists it. *)
Theorem delete_moves_message_to_deleted_feed id w w' :
  DeleteMessage id w = (Ok tt, w') ->
  exists old t,
    find (fun m => hasID id m && live m) (messages (db w)) = Some old
    /\ t = Z.pos (clock (env w) (3 + tick w))
    /\ (forall after limit wq,
          db wq = db w' -> (after < t)%Z ->
          (0 <= limit <= max_int)%Z ->
          (Z.of_nat (List.length (messages (db w))) <= limit)%Z ->
          fault (env wq) (tick wq) = None ->
          exists ms m,
            fst (GetDeletedMessagesAfter after limit wq) = Some (ms, false, None)
            /\ In m ms /\ ID m = id /\ Text m = Text old
            /\ DeletedAt m = Some t)
    /\ (forall after limit wq ms more err,
          db wq = db w' ->
          fst (GetUpdatedMessagesAfter after limit wq) = Some (ms, more, err) ->
          forall m, In m ms -> ID m <> id).
Proof.
  intros H. apply DeleteMessage_Ok in H.
  destruct H as (Hid & old & Fo & Hio & D & _). cbv zeta in D.
  remember (Z.pos (clock (env w) (3 + tick w))) as t eqn:Et.
  exists old, t. split; [exact Fo|]. split; [reflexivity|].
  assert (Ho : hasID id old && live old = true) by (apply (find_some _ _ Fo)).
  assert (Hin : In old (messages (db w))) by (apply (find_some _ _ Fo)).
  assert (Lm : List.length (messages (db w')) = List.length (messages (db w))).
  { rewrite D. simpl. apply length_map. }
  split.
  - intros after limit wq Dq Ha HN Hl F.
    assert (Hrows : (Z.of_nat (List.length (messages (db wq))) <= max_int)%Z)
      by (rewrite Dq, Lm; lia).
    rewrite (GetDeletedMessagesAfter_reliable after limit wq HN Hrows F).
    assert (Hlen : List.length (deletedRows after (db wq)) <= Z.to_nat limit).
    { unfold deletedRows. rewrite length_sortBy, Dq.
      pose proof (filter_length_le (deletedAfter after) (messages (db w')))
        as Hf.
      rewrite Lm in Hf. lia. }
    rewrite firstn_all2 by exact Hlen.
    replace (Nat.ltb (Z.to_nat limit) (List.length (deletedRows after (db wq))))
      with false by (symmetry; apply Nat.ltb_ge; exact Hlen).
    eexists _, (softDeleted id t old). split; [reflexivity|].
    rewrite (softDeleted_target _ _ _ Ho). simpl.
    split; [|auto].
    apply In_deletedRows. split.
    + rewrite Dq, D. simpl. apply in_map_iff. exists old.
      split; [apply softDeleted_target; exact Ho | exact Hin].
    + exists t. auto.
  - intros after limit wq ms more err Dq Hq m Hm Em.
    destruct (sync_prefix (updatedRows after) _ _ _ Hq) as [k E].
    simpl in E. subst ms. apply In_firstn in Hm.
    apply In_updatedRows in Hm. destruct Hm as (Hm & Dm & _).
    rewrite Dq, D in Hm. simpl in Hm. apply in_map_iff in Hm.
    destruct Hm as (y & <- & _).
    pose proof (softDeleted_hidden id t y) as Hd.
    unfold hasID in Hd at 1. unfold live in Hd. rewrite Em, N.eqb_refl, Dm in Hd.
    discriminate.
Qed.

Lemma delete_moves_message_to_deleted_feed_witness :
  exists ms m,
    fst (GetDeletedMessagesAfter 0%Z 5%Z (snd (DeleteMessage 5%N busyWorld)))
    = Some (ms, false, None)
    /\ In m ms /\ ID m = 5%N.
Proof.
  assert (H : DeleteMessage 5%N busyWorld
              = (Ok tt, snd (DeleteMessage 5%N busyWorld)))
    by (apply run_eq; vm_compute; reflexivity).
  destruct (delete_moves_message_to_deleted_feed _ _ _ H)
    as (old & t & _ & Et & Feed & _).
  assert (E : env (snd (DeleteMessage 5%N busyWorld)) = calmEnv)
    by (vm_compute; reflexivity).
  destruct (Feed 0%Z 5%Z (snd (DeleteMessage 5%N busyWorld)) eq_refl)
    as (ms & m & G & Hin & Hid & _).
  - rewrite Et. reflexivity.
  - split; [discriminate | vm_compute; discriminate].
  - vm_compute. discriminate.
  - rewrite E. reflexivity.
  - exists ms, m. auto.
Defined.

(** X9: an edit shows in the updated feed.  After a successful
    [UpdateMessage id text], carried out at time [t], the updated feed asked
    from any earlier time (without cutting) lists the message with the new
    text and [t] as update time. *)
Theorem update_shows_in_updated_feed id text w w' :
  UpdateMessage id text w = (Ok tt, w') ->
  exists t,
    t = Z.pos (clock (env w) (3 + tick w))
    /\ forall after limit wq,
        db wq = db w' -> (after < t)%Z ->
        (0 <= limit <= max_int)%Z ->
        (Z.of_nat (List.length (messages (db w))) <= limit)%Z ->
        fault (env wq) (tick wq) = None ->
        exists ms m,
          fst (GetUpdatedMessagesAfter after limit wq) = Some (ms, false, None)
          /\ In m ms /\ ID m = id /\ Text m = text /\ UpdatedAt m = t.
Proof.
  intros H. apply UpdateMessage_Ok in H.
  destruct H as (Hid & old & Fo & Hio & D & _). cbv zeta in D.
  remember (Z.pos (clock (env w) (3 + tick w))) as t eqn:Et.
  exists t. split; [reflexivity|].
  assert (Ho : hasID (ID old) old && live old = true)
    by (rewrite Hio; apply (find_some _ _ Fo)).
  assert (Hin : In old (messages (db w))) by (apply (find_some _ _ Fo)).
  assert (Lm : List.length (messages (db w')) = List.length (messages (db w))).
  { rewrite D. simpl. apply length_map. }
  intros after limit wq Dq Ha HN Hl F.
  assert (Hrows : (Z.of_nat (List.length (messages (db wq))) <= max_int)%Z)
    by (rewrite Dq, Lm; lia).
  rewrite (GetUpdatedMessagesAfter_reliable after limit wq HN Hrows F).
  assert (Hlen : List.length (updatedRows after (db wq)) <= Z.to_nat limit).
  { unfold updatedRows. rewrite length_sortBy, Dq.
    pose proof (filter_length_le
                  (fun m => live m && Z.ltb after (UpdatedAt m))
                  (messages (db w'))) as Hf.
    rewrite Lm in Hf. lia. }
  rewrite firstn_all2 by exact Hlen.
  replace (Nat.ltb (Z.to_nat limit) (List.length (updatedRows after (db wq))))
    with false by (symmetry; apply Nat.ltb_ge; exact Hlen).
  eexists _, (edited (ID old) text t old). split; [reflexivity|].
  assert (Ee : edited (ID old) text t old
               = mkMessage (ID old) (UserID old) (ChannelID old) text
                           (CreatedAt old) t (DeletedAt old)).
  { unfold edited. rewrite Ho. reflexivity. }
  assert (Ld : DeletedAt old = None).
  { apply andb_prop in Ho. destruct Ho as [_ Lo]. unfold live in Lo.
    destruct (DeletedAt old); [discriminate | reflexivity]. }
  rewrite Ee. simpl. split; [|auto].
  apply In_updatedRows. simpl. split; [|auto].
  rewrite Dq, D. simpl. apply in_map_iff. exists old. split; [exact Ee | exact Hin].
Qed.

Lemma update_shows_in_updated_feed_witness :
  exists ms m,
    fst (GetUpdatedMessagesAfter 0%Z 5%Z (snd (UpdateMessage 5%N "bye" sampleWorld)))
    = Some (ms, false, None)
    /\ In m ms /\ ID m = 5%N /\ Text m = "bye".
Proof.
  assert (H : UpdateMessage 5%N "bye" sampleWorld
              = (Ok tt, snd (UpdateMessage 5%N "bye" sampleWorld)))
    by (apply run_eq; vm_compute; reflexivity).
  destruct (update_shows_in_updated_feed _ _ _ _ H) as (t & Et & Feed).
  assert (E : env (snd (UpdateMessage 5%N "bye" sampleWorld)) = calmEnv)
    by (vm_compute; reflexivity).
  destruct (Feed 0%Z 5%Z (snd (UpdateMessage 5%N "bye" sampleWorld)) eq_refl)
    as (ms & m & G & Hin & Hid & Ht & _).
  - rewrite Et. reflexivity.
  - split; [discriminate | vm_compute; discriminate].
  - vm_compute. discriminate.
  - rewrite E. reflexivity.
  - exists ms, m. auto.
Defined.

(** ** Clearing and listing unread markers *)

(** [DeleteUnreadsByChannelID] with the engine answering: one DELETE, and
    one [ChannelRead] when it removed something. *)
Lemma DeleteUnreadsByChannelID_reliable c u w :
  c <> uuid_Nil -> u <> uuid_Nil ->
  fault (env w) (tick w) = None ->
  let gone := filter (unreadInChannel (db w) c u) (unreads (db w)) in
  exists w',
    DeleteUnreadsByChannelID c u w = (Ok tt, w')
    /\ db w' = with_unreads (db w)
                 (filter (fun x => negb (unreadInChannel (db w) c u x))
                         (unreads (db w)))
    /\ published w'
       = published w
         ++ (if Nat.ltb 0 (List.length gone)
             then [ChannelRead c u (List.length gone)] else [])
    /\ env w' = env w /\ tick w' = S (tick w).
Proof.
  intros Hc Hu F. cbv zeta. apply N.eqb_neq in Hc, Hu.
  unfold DeleteUnreadsByChannelID. rewrite Hc, Hu. cbn [orb].
  unfold bind, deleteUnreadsOfChannel. rewrite (exec_reliable _ _ _ _ F).
  destruct (Nat.ltb 0 _); unfold hubPublish, ret;
    (eexists; split; [reflexivity|]; split; [reflexivity|];
     split; [|split; reflexivity]);
    unfold published; simpl; rewrite !events_app; simpl;
      rewrite ?app_nil_r; reflexivity.
Qed.

Lemma unreadInChannel_ext d d' c u x :
  messages d' = messages d ->
  unreadInChannel d' c u x = unreadInChannel d c u x.
Proof. intros E. unfold unreadInChannel. rewrite E. reflexivity. Qed.

Lemma filter_none {A} (p : A -> bool) l :
  (forall x, In x l -> p x = false) -> filter p l = [].
Proof.
  induction l as [|x l IH]; intros H; simpl; [reflexivity|].
  rewrite (H x (or_introl eq_refl)). apply IH. intros y Hy. apply H.
  right. exact Hy.
Qed.

Lemma filter_all {A} (p : A -> bool) l :
  (forall x, In x l -> p x = true) -> filter p l = l.
Proof.
  induction l as [|x l IH]; intros H; simpl; [reflexivity|].
  rewrite (H x (or_introl eq_refl)). f_equal. apply IH. intros y Hy. apply H.
  right. exact Hy.
Qed.

(** X10: clearing a channel for a user.  When the engine answers,
    [DeleteUnreadsByChannelID c u] removes the markers of [u] on messages of
    channel [c] and no other marker, leaves the other tables alone, and
    publishes one [ChannelRead] carrying the number of markers removed,
    or nothing when there was none to remove. *)
Theorem clear_channel_removes_markers c u w :
  c <> uuid_Nil -> u <> uuid_Nil ->
  fault (env w) (tick w) = None ->
  exists w',
    DeleteUnreadsByChannelID c u w = (Ok tt, w')
    /\ messages (db w') = messages (db w)
    /\ (forall x, In x (unreads (db w')) <->
                  In x (unreads (db w))
                  /\ ~ (ur_UserID x = u
                        /\ exists m, In m (messages (db w))
                                     /\ ID m = ur_MessageID x
                                     /\ ChannelID m = c))
    /\ exists n,
        List.length (unreads (db w)) = n + List.length (unreads (db w'))
        /\ published w'
           = published w ++ (if Nat.ltb 0 n then [ChannelRead c u n] else []).
Proof.
  intros Hc Hu F.
  destruct (DeleteUnreadsByChannelID_reliable c u w Hc Hu F)
    as (w' & R & D & P & _). cbv zeta in P.
  exists w'. split; [exact R|]. rewrite D. simpl.
  split; [reflexivity|]. split.
  - intros x. rewrite filter_In. unfold unreadInChannel.
    split; intros [Hx Hn]; (split; [exact Hx|]).
    + intros [Eu (m & Hm & Em & Ec)]. apply negb_true_iff in Hn.
      apply andb_false_iff in Hn. destruct Hn as [Hn|Hn].
      * apply N.eqb_neq in Hn. contradiction.
      * assert (T : existsb (fun m0 => N.eqb (ur_MessageID x) (ID m0)
                                       && N.eqb (ChannelID m0) c)
                            (messages (db w)) = true).
        { apply existsb_exists. exists m. split; [exact Hm|].
          rewrite Em, Ec, !N.eqb_refl. reflexivity. }
        congruence.
    + apply negb_true_iff. apply not_true_is_false. intros T.
      apply andb_prop in T. destruct T as [Tu Tm]. apply Hn.
      apply N.eqb_eq in Tu. split; [exact Tu|].
      apply existsb_exists in Tm. destruct Tm as (m & Hm & T).
      apply andb_prop in T. destruct T as [T1 T2].
      apply N.eqb_eq in T1, T2. exists m. auto.
  - exists (List.length (filter (unreadInChannel (db w) c u) (unreads (db w)))).
    split; [|exact P]. symmetry. apply filter_length.
Qed.

Lemma clear_channel_removes_markers_witness :
  exists w',
    DeleteUnreadsByChannelID 2%N 1%N busyWorld = (Ok tt, w')
    /\ messages (db w') = messages (db busyWorld).
Proof.
  destruct (clear_channel_removes_markers 2%N 1%N busyWorld)
    as (w' & R & M & _); try discriminate; try reflexivity.
  exists w'. auto.
Defined.

(** X11: clearing is idempotent.  A second [DeleteUnreadsByChannelID] with the
    same arguments, the engine answering both, removes nothing and
    publishes nothing. *)
Theorem clear_channel_twice c u w :
  c <> uuid_Nil -> u <> uuid_Nil ->
  reliable w 2 ->
  exists w1 w2,
    DeleteUnreadsByChannelID c u w = (Ok tt, w1)
    /\ DeleteUnreadsByChannelID c u w1 = (Ok tt, w2)
    /\ db w2 = db w1 /\ published w2 = published w1.
Proof.
  intros Hc Hu R.
  assert (F0 : fault (env w) (tick w) = None)
    by (rewrite <- (Nat.add_0_r (tick w)); apply R; lia).
  assert (F1 : fault (env w) (S (tick w)) = None)
    by (rewrite <- Nat.add_1_r; apply R; lia).
  destruct (DeleteUnreadsByChannelID_reliable c u w Hc Hu F0)
    as (w1 & R1 & D1 & _ & E1 & T1).
  assert (F1' : fault (env w1) (tick w1) = None) by (rewrite E1, T1; exact F1).
  destruct (DeleteUnreadsByChannelID_reliable c u w1 Hc Hu F1')
    as (w2 & R2 & D2 & P2 & _). cbv zeta in P2.
  exists w1, w2. split; [exact R1|]. split; [exact R2|].
  assert (G : filter (unreadInChannel (db w1) c u) (unreads (db w1)) = []).
  { apply filter_none. intros x Hx. rewrite D1 in Hx. simpl in Hx.
    apply filter_In in Hx. destruct Hx as [_ Hx]. apply negb_true_iff in Hx.
    rewrite (unreadInChannel_ext (db w)); [exact Hx|]. rewrite D1. reflexivity. }
  split.
  - rewrite D2. destruct (db w1) as [ms am cl ur pi cf st ch us] eqn:Ed.
    unfold with_unreads. simpl. f_equal.
    apply filter_all. intros x Hx.
    assert (Hn : filter (unreadInChannel (mkDB ms am cl ur pi cf st ch us) c u)
                        ur = []) by exact G.
    apply negb_true_iff. apply not_true_is_false. intros T.
    assert (In x (filter (unreadInChannel (mkDB ms am cl ur pi cf st ch us) c u)
                         ur)) by (apply filter_In; auto).
    rewrite Hn in H. contradiction.
  - rewrite P2, G. simpl. apply app_nil_r.
Qed.

Lemma clear_channel_twice_witness :
  exists w1 w2,
    DeleteUnreadsByChannelID 2%N 1%N busyWorld = (Ok tt, w1)
    /\ DeleteUnreadsByChannelID 2%N 1%N w1 = (Ok tt, w2)
    /\ db w2 = db w1 /\ published w2 = published w1.
Proof.
  apply clear_channel_twice; try discriminate.
  intros i _. reflexivity.
Defined.

Lemma In_unreadRows u d m :
  In m (unreadRows u d) <->
  In m (messages d) /\ live m = true
  /\ exists x, In x (unreads d) /\ ur_MessageID x = ID m /\ ur_UserID x = u.
Proof.
  unfold unreadRows. rewrite In_sortBy, in_flat_map. split.
  - intros (m' & Hm & H). apply in_map_iff in H. destruct H as (x & -> & Hx).
    apply filter_In in Hm. destruct Hm as [Hm Lm].
    apply filter_In in Hx. destruct Hx as [Hx Px].
    apply andb_prop in Px. destruct Px as [P1 P2]. apply N.eqb_eq in P1, P2.
    split; [exact Hm|]. split; [exact Lm|]. exists x. auto.
  - intros (Hm & Lm & x & Hx & E1 & E2). exists m. split.
    + apply filter_In. auto.
    + apply in_map_iff. exists x. split; [reflexivity|].
      apply filter_In. split; [exact Hx|].
      rewrite E1, E2, !N.eqb_refl. reflexivity.
Qed.

Lemma GetUnreadMessagesByUserID_sound u w m :
  In m (fst (fst (GetUnreadMessagesByUserID u w))) -> In m (unreadRows u (db w)).
Proof.
  unfold GetUnreadMessagesByUserID, scanInto, exec.
  destruct (N.eqb u uuid_Nil); [contradiction|].
  destruct (fault (env w) (tick w)); simpl; [contradiction | exact (fun H => H)].
Qed.

Lemma GetUnreadMessagesByUserID_reliable u w :
  u <> uuid_Nil -> fault (env w) (tick w) = None ->
  fst (GetUnreadMessagesByUserID u w) = (unreadRows u (db w), None).
Proof.
  intros Hu F. apply N.eqb_neq in Hu.
  unfold GetUnreadMessagesByUserID, scanInto. rewrite Hu.
  rewrite (exec_reliable _ _ _ _ F). reflexivity.
Qed.

(** X12: what [GetUnreadMessagesByUserID] lists.  Every message it returns is
    stored, not deleted, and carries a marker of the user; the list is in
    ascending creation time; when the engine answers, every such message is
    listed.  For the nil user it returns the empty list without asking the
    engine. *)
Theorem list_unread_content u w :
  (forall m, In m (fst (fst (GetUnreadMessagesByUserID u w))) ->
             In m (messages (db w)) /\ DeletedAt m = None
             /\ exists x, In x (unreads (db w)) /\ ur_MessageID x = ID m
                          /\ ur_UserID x = u)
  /\ StronglySorted (fun a b => (CreatedAt a <= CreatedAt b)%Z)
                    (fst (fst (GetUnreadMessagesByUserID u w)))
  /\ (u <> uuid_Nil -> fault (env w) (tick w) = None ->
      forall m x, In m (messages (db w)) -> DeletedAt m = None ->
                  In x (unreads (db w)) -> ur_MessageID x = ID m ->
                  ur_UserID x = u ->
                  In m (fst (fst (GetUnreadMessagesByUserID u w))))
  /\ GetUnreadMessagesByUserID uuid_Nil w = (([], None), w).
Proof.
  split; [|split; [|split; [|reflexivity]]].
  - intros m Hm. apply GetUnreadMessagesByUserID_sound, In_unreadRows in Hm.
    destruct Hm as (Hm & Lm & X). split; [exact Hm|]. split; [|exact X].
    unfold live in Lm. destruct (DeletedAt m); [discriminate | reflexivity].
  - unfold GetUnreadMessagesByUserID, scanInto, exec.
    destruct (N.eqb u uuid_Nil); [constructor|].
    destruct (fault (env w) (tick w)); simpl; [constructor|].
    unfold unreadRows. apply sortBy_asc_sorted.
  - intros Hu F m x Hm Dm Hx E1 E2.
    rewrite (GetUnreadMessagesByUserID_reliable u w Hu F). simpl.
    apply In_unreadRows. split; [exact Hm|]. split.
    + unfold live. rewrite Dm. reflexivity.
    + exists x. auto.
Qed.

Lemma list_unread_content_witness :
  In (mkMessage 5%N 1%N 2%N "hi" 10%Z 10%Z None)
     (fst (fst (GetUnreadMessagesByUserID 1%N busyWorld))).
Proof.
  apply (proj1 (proj2 (proj2 (list_unread_content 1%N busyWorld))))
    with (x := mkUnread 1%N 5%N false);
    try reflexivity; try discriminate; simpl; auto.
Defined.

(** What a successful [SetMessageUnread] leaves: a marker for the pair, and
    the messages as they were. *)
Lemma SetMessageUnread_Ok u m n w w' :
  SetMessageUnread u m n w = (Ok tt, w') ->
  messages (db w') = messages (db w)
  /\ exists x, In x (unreads (db w')) /\ ur_UserID x = u /\ ur_MessageID x = m.
Proof.
  unfold SetMessageUnread.
  destruct (N.eqb u uuid_Nil || N.eqb m uuid_Nil); [discriminate|].
  destruct (Transaction (SetMessageUnread_tx u m n) w) as [[upd|e] w1] eqn:T;
    [|discriminate].
  intros H.
  assert (D' : db w' = db w1).
  { destruct (negb upd); inversion H; reflexivity. }
  clear H. rewrite D'.
  apply Transaction_Ok_advanced in T.
  destruct T as (w0 & w2 & _ & D0 & B & _ & ->).
  unfold SetMessageUnread_tx in B.
  destruct (firstUnread u m w0) as [[x|e] wa] eqn:S.
  - apply exec_Ok_advanced in S. destruct S as (RS & _).
    destruct (find (unreadOf u m) (unreads (db w0))) as [x0|] eqn:Fx;
      [|discriminate].
    injection RS as -> Da.
    apply bind_Ok in B. destruct B as ([] & wb & U & B). injection B as _ <-.
    apply exec_Ok_advanced in U. destruct U as (RU & _).
    injection RU as Db. rewrite <- Db, <- Da, D0. simpl.
    split; [reflexivity|].
    destruct (unreadOf_eq _ _ _ (proj2 (find_some _ _ Fx))) as [Xu Xm].
    exists (renoticed (ur_UserID x) (ur_MessageID x) n x). split.
    + apply in_map. rewrite <- D0. exact (proj1 (find_some _ _ Fx)).
    + unfold renoticed. destruct (unreadOf _ _ x); simpl; auto.
  - destruct e; try discriminate.
    apply bind_Ok in B. destruct B as ([] & wb & I & B). injection B as _ <-.
    apply exec_Ok_advanced in I. destruct I as (RI & _).
    simpl in RI. destruct (existsb _ _); [discriminate|].
    injection RI as Db. rewrite <- Db. simpl.
    unfold firstUnread, exec in S.
    destruct (fault (env w0) (tick w0)); [discriminate|].
    destruct (find _ _); inversion S; subst. simpl. rewrite D0.
    split; [reflexivity|]. exists (mkUnread u m n).
    split; [apply in_or_app; right; left; reflexivity | auto].
Qed.

Lemma DeleteUnreadsByChannelID_Ok c u w w' :
  DeleteUnreadsByChannelID c u w = (Ok tt, w') ->
  db w' = with_unreads (db w)
            (filter (fun x => negb (unreadInChannel (db w) c u x))
                    (unreads (db w))).
Proof.
  unfold DeleteUnreadsByChannelID.
  destruct (N.eqb c uuid_Nil || N.eqb u uuid_Nil); [discriminate|].
  intros H. apply bind_Ok in H. destruct H as (k & w1 & D & H).
  apply exec_Ok_advanced in D. destruct D as (RD & _).
  injection RD as _ Dd.
  assert (E : db w' = db w1).
  { destruct (Nat.ltb 0 k); inversion H; reflexivity. }
  rewrite E. symmetry. exact Dd.
Qed.

(** X13: marking, listing and clearing compose.  After a successful
    [SetMessageUnread u id], a stored message [id] that is not deleted is
    listed by [GetUnreadMessagesByUserID u]; after a successful
    [DeleteUnreadsByChannelID] for its channel, no message of that channel
    is listed for [u]. *)
Theorem mark_list_clear u n msg w w1 :
  In msg (messages (db w)) -> DeletedAt msg = None ->
  SetMessageUnread u (ID msg) n w = (Ok tt, w1) ->
  (forall wq, db wq = db w1 -> fault (env wq) (tick wq) = None ->
              In msg (fst (fst (GetUnreadMessagesByUserID u wq))))
  /\ (forall w2 w3 wq,
         db w2 = db w1 ->
         DeleteUnreadsByChannelID (ChannelID msg) u w2 = (Ok tt, w3) ->
         db wq = db w3 ->
         forall m, In m (fst (fst (GetUnreadMessagesByUserID u wq))) ->
                   ChannelID m <> ChannelID msg).
Proof.
  intros Hm Dm S.
  assert (Hu : u <> uuid_Nil).
  { intros ->. unfold SetMessageUnread in S. simpl in S. discriminate. }
  apply SetMessageUnread_Ok in S. destruct S as (M1 & x & Hx & Xu & Xm).
  split.
  - intros wq Dq F.
    rewrite (GetUnreadMessagesByUserID_reliable u wq Hu F). simpl.
    apply In_unreadRows. split; [rewrite Dq, M1; exact Hm|].
    split; [unfold live; rewrite Dm; reflexivity|].
    exists x. rewrite Dq. auto.
  - intros w2 w3 wq D2 C Dq m Hin Ec.
    apply DeleteUnreadsByChannelID_Ok in C.
    apply GetUnreadMessagesByUserID_sound, In_unreadRows in Hin.
    destruct Hin as (Hmm & _ & y & Hy & Ey & Eu).
    rewrite Dq, C in Hmm, Hy. simpl in Hmm, Hy.
    apply filter_In in Hy. destruct Hy as [Hy Hn].
    apply negb_true_iff in Hn. unfold unreadInChannel in Hn.
    rewrite Eu, N.eqb_refl in Hn. simpl in Hn.
    assert (T : existsb (fun m0 => N.eqb (ur_MessageID y) (ID m0)
                                   && N.eqb (ChannelID m0) (ChannelID msg))
                        (messages (db w2)) = true).
    { apply existsb_exists. exists m. split; [exact Hmm|].
      rewrite Ey, Ec, !N.eqb_refl. reflexivity. }
    congruence.
Qed.

Lemma mark_list_clear_witness :
  In (mkMessage 5%N 1%N 2%N "hi" 10%Z 10%Z None)
     (fst (fst (GetUnreadMessagesByUserID 1%N
                  (snd (SetMessageUnread 1%N 5%N false sampleWorld))))).
Proof.
  assert (S : SetMessageUnread 1%N
                (ID (mkMessage 5%N 1%N 2%N "hi" 10%Z 10%Z None)) false sampleWorld
              = (Ok tt, snd (SetMessageUnread 1%N 5%N false sampleWorld)))
    by (apply run_eq; vm_compute; reflexivity).
  assert (E : env (snd (SetMessageUnread 1%N 5%N false sampleWorld)) = calmEnv)
    by (vm_compute; reflexivity).
  apply (proj1 (mark_list_clear 1%N false _ sampleWorld _
                  (or_introl eq_refl) eq_refl S)).
  - reflexivity.
  - rewrite E. reflexivity.
Defined.

(** ** The per-channel summary of unread markers *)

Lemma In_groupKeys k l : In k (groupKeys l) <-> In k l.
Proof.
  induction l as [|x l IH]; simpl; [reflexivity|].
  rewrite filter_In, IH. split.
  - intros [-> | [H _]]; auto.
  - intros [-> | H]; [auto|].
    destruct (N.eqb k x) eqn:E.
    + apply N.eqb_eq in E. left. symmetry. exact E.
    + right. split; [exact H | reflexivity].
Qed.

Lemma NoDup_groupKeys l : NoDup (groupKeys l).
Proof.
  induction l as [|x l IH]; simpl; constructor.
  - intros H. apply filter_In in H. destruct H as [_ H].
    rewrite N.eqb_refl in H. discriminate.
  - apply NoDup_filter. exact IH.
Qed.

Lemma In_unreadJoin u d x m :
  In (x, m) (unreadJoin u d) <->
  In x (unreads d) /\ ur_UserID x = u /\ In m (messages d)
  /\ ur_MessageID x = ID m.
Proof.
  unfold unreadJoin. rewrite in_flat_map. split.
  - intros (x' & Hx & H). apply in_map_iff in H. destruct H as (m' & E & Hm).
    injection E as -> ->. apply filter_In in Hx, Hm.
    destruct Hx as [Hx Eu]. destruct Hm as [Hm Em].
    apply N.eqb_eq in Eu, Em. auto.
  - intros (Hx & Eu & Hm & Em). exists x. split.
    + apply filter_In. split; [exact Hx | apply N.eqb_eq; exact Eu].
    + apply in_map_iff. exists m. split; [reflexivity|].
      apply filter_In. split; [exact Hm | apply N.eqb_eq; exact Em].
Qed.

Lemma fold_min_le_max t ts :
  (fold_right Z.min t ts <= t <= fold_right Z.max t ts)%Z.
Proof. induction ts as [|x ts IH]; simpl; lia. Qed.

Lemma GetUserUnreadChannels_sound u w r :
  In r (fst (fst (GetUserUnreadChannels u w))) -> In r (unreadChannels u (db w)).
Proof.
  unfold GetUserUnreadChannels, scanInto, exec.
  destruct (N.eqb u uuid_Nil); [contradiction|].
  destruct (fault (env w) (tick w)); simpl; [contradiction | exact (fun H => H)].
Qed.

Lemma In_unreadChannels u d r :
  In r (unreadChannels u d) ->
  r = summarise (uuc_ChannelID r) (unreadJoin u d)
  /\ exists x m, In (x, m) (unreadJoin u d) /\ ChannelID m = uuc_ChannelID r.
Proof.
  unfold unreadChannels. intros H. apply in_map_iff in H.
  destruct H as (c & <- & Hc). split; [reflexivity|].
  apply In_groupKeys, in_map_iff in Hc. destruct Hc as ([x m] & E & H).
  exists x, m. auto.
Qed.

(** X14: the summary [GetUserUnreadChannels] returns has at most one row per
    channel.  Each row stands for at least one marker of the user on a stored
    message of that channel, counts exactly those markers, is noticeable
    exactly when one of them is, and its earliest time is not after its
    latest time.  When the engine answers, every channel with such a marker
    has a row.  For the nil user the summary is empty and nothing is asked. *)
Theorem unread_summary u w :
  let rows := fst (fst (GetUserUnreadChannels u w)) in
  NoDup (map uuc_ChannelID rows)
  /\ (forall r, In r rows ->
        let g := filter (fun p => N.eqb (ChannelID (snd p)) (uuc_ChannelID r))
                        (unreadJoin u (db w)) in
        uuc_Count r = List.length g /\ 1 <= uuc_Count r
        /\ uuc_Noticeable r = existsb (fun p => ur_Noticeable (fst p)) g
        /\ (uuc_Since r <= uuc_UpdatedAt r)%Z
        /\ exists x m, In x (unreads (db w)) /\ ur_UserID x = u
                       /\ In m (messages (db w)) /\ ur_MessageID x = ID m
                       /\ ChannelID m = uuc_ChannelID r)
  /\ (u <> uuid_Nil -> fault (env w) (tick w) = None ->
      forall x m, In x (unreads (db w)) -> ur_UserID x = u ->
                  In m (messages (db w)) -> ur_MessageID x = ID m ->
                  exists r, In r rows /\ uuc_ChannelID r = ChannelID m)
  /\ GetUserUnreadChannels uuid_Nil w = (([], None), w).
Proof.
  cbv zeta. split; [|split; [|split; [|reflexivity]]].
  - unfold GetUserUnreadChannels, scanInto, exec.
    destruct (N.eqb u uuid_Nil); [constructor|].
    destruct (fault (env w) (tick w)); simpl; [constructor|].
    unfold unreadChannels. rewrite map_map. simpl. rewrite map_id.
    apply NoDup_groupKeys.
  - intros r Hr. apply GetUserUnreadChannels_sound, In_unreadChannels in Hr.
    destruct Hr as (Er & x & m & Hj & Ec).
    set (g := filter (fun p => N.eqb (ChannelID (snd p)) (uuc_ChannelID r))
                     (unreadJoin u (db w))) in *.
    assert (Hg : In (x, m) g).
    { apply filter_In. split; [exact Hj|]. simpl. apply N.eqb_eq. exact Ec. }
    split; [rewrite Er; reflexivity|].
    split.
    { rewrite Er. simpl. fold g. destruct g; [contradiction | simpl; lia]. }
    split; [rewrite Er; reflexivity|].
    split.
    { rewrite Er. simpl. fold g. destruct g as [|p g']; [contradiction|].
      simpl. pose proof (fold_min_le_max (CreatedAt (snd p))
                           (map (fun p0 => CreatedAt (snd p0)) g')). lia. }
    apply In_unreadJoin in Hj. destruct Hj as (Hx & Eu & Hm & Em).
    exists x, m. auto.
  - intros Hu F x m Hx Eu Hm Em. apply N.eqb_neq in Hu.
    unfold GetUserUnreadChannels, scanInto. rewrite Hu.
    rewrite (exec_reliable _ _ _ _ F). simpl.
    exists (summarise (ChannelID m) (unreadJoin u (db w))).
    split; [|reflexivity]. unfold unreadChannels. cbv zeta.
    apply (in_map (fun c => summarise c (unreadJoin u (db w)))).
    apply In_groupKeys.
    apply in_map_iff. exists (x, m). split; [reflexivity|].
    apply In_unreadJoin. auto.
Qed.

Lemma unread_summary_witness :
  exists r, In r (fst (fst (GetUserUnreadChannels 1%N busyWorld)))
            /\ uuc_ChannelID r = 2%N.
Proof.
  apply (proj1 (proj2 (proj2 (unread_summary 1%N busyWorld))))
    with (x := mkUnread 1%N 5%N false)
         (m := mkMessage 5%N 1%N 2%N "hi" 10%Z 10%Z None);
    try reflexivity; try discriminate; simpl; auto.
Defined.

(** X15: after a successful [DeleteUnreadsByChannelID c u] the summary of [u]
    has no row for channel [c]. *)
Theorem clear_channel_empties_summary c u w w1 :
  DeleteUnreadsByChannelID c u w = (Ok tt, w1) ->
  forall wq r,
    db wq = db w1 ->
    In r (fst (fst (GetUserUnreadChannels u wq))) -> uuc_ChannelID r <> c.
Proof.
  intros C wq r Dq Hr Ec. apply DeleteUnreadsByChannelID_Ok in C.
  apply GetUserUnreadChannels_sound, In_unreadChannels in Hr.
  destruct Hr as (_ & x & m & Hj & Em). apply In_unreadJoin in Hj.
  destruct Hj as (Hx & Eu & Hm & Ex).
  rewrite Dq, C in Hx, Hm. simpl in Hx, Hm.
  apply filter_In in Hx. destruct Hx as [_ Hn].
  apply negb_true_iff in Hn. unfold unreadInChannel in Hn.
  rewrite Eu, N.eqb_refl in Hn. simpl in Hn.
  assert (T : existsb (fun m0 => N.eqb (ur_MessageID x) (ID m0)
                                 && N.eqb (ChannelID m0) c)
                      (messages (db w)) = true).
  { apply existsb_exists. exists m. split; [exact Hm|].
    rewrite Ex, Em, Ec, !N.eqb_refl. reflexivity. }
  congruence.
Qed.

Lemma clear_channel_empties_summary_witness :
  Forall (fun r => uuc_ChannelID r <> 2%N)
         (fst (fst (GetUserUnreadChannels 1%N
                      (snd (DeleteUnreadsByChannelID 2%N 1%N busyWorld))))).
Proof.
  assert (C : DeleteUnreadsByChannelID 2%N 1%N busyWorld
              = (Ok tt, snd (DeleteUnreadsByChannelID 2%N 1%N busyWorld)))
    by (apply run_eq; vm_compute; reflexivity).
  apply Forall_forall. intros r Hr.
  exact (clear_channel_empties_summary _ _ _ _ C _ r eq_refl Hr).
Defined.

(** ** Reactions: removal, accumulation, partial failure *)

Lemma stampIds_nonnil m s u :
  m <> uuid_Nil -> s <> uuid_Nil -> u <> uuid_Nil ->
  N.eqb m uuid_Nil || N.eqb s uuid_Nil || N.eqb u uuid_Nil = false.
Proof.
  intros Hm Hs Hu. apply N.eqb_neq in Hm, Hs, Hu. rewrite Hm, Hs, Hu.
  reflexivity.
Qed.

Lemma RemoveStampFromMessage_reliable m s u w :
  m <> uuid_Nil -> s <> uuid_Nil -> u <> uuid_Nil ->
  fault (env w) (tick w) = None ->
  exists w',
    RemoveStampFromMessage m s u w = (Ok tt, w')
    /\ db w' = with_stamps (db w)
                 (filter (fun r => negb (stampOf m s u r))
                         (messages_stamps (db w)))
    /\ published w'
       = published w
         ++ (if existsb (stampOf m s u) (messages_stamps (db w))
             then [MessageUnstamped m s u] else [])
    /\ env w' = env w /\ tick w' = S (tick w).
Proof.
  intros Hm Hs Hu F. unfold RemoveStampFromMessage.
  rewrite (stampIds_nonnil _ _ _ Hm Hs Hu).
  unfold bind, deleteStamp. rewrite (exec_reliable _ _ _ _ F).
  assert (E : Nat.ltb 0 (List.length (filter (stampOf m s u)
                                             (messages_stamps (db w))))
              = existsb (stampOf m s u) (messages_stamps (db w))).
  { induction (messages_stamps (db w)) as [|r l IH]; simpl; [reflexivity|].
    destruct (stampOf m s u r); simpl; [reflexivity | exact IH]. }
  rewrite E.
  destruct (existsb _ _); unfold hubPublish, ret;
    (eexists; split; [reflexivity|]; split; [reflexivity|];
     split; [|split; reflexivity]);
    unfold published; simpl; rewrite !events_app; simpl;
      rewrite ?app_nil_r; reflexivity.
Qed.

Lemma existsb_filter_negb {A} (p : A -> bool) l :
  existsb p (filter (fun x => negb (p x)) l) = false.
Proof.
  induction l as [|x l IH]; simpl; [reflexivity|].
  destruct (p x) eqn:E; simpl; [exact IH | rewrite E; exact IH].
Qed.

Lemma filter_negb_idem {A} (p : A -> bool) l :
  filter (fun x => negb (p x)) (filter (fun x => negb (p x)) l)
  = filter (fun x => negb (p x)) l.
Proof.
  apply filter_all. intros x Hx. apply filter_In in Hx. tauto.
Qed.

(** X16: removing a reaction.  When the engine answers,
    [RemoveStampFromMessage] deletes the counter of (message, stamp, user)
    and no other row, and publishes [MessageUnstamped] exactly when there
    was a counter to delete; a second call finds nothing, changes nothing
    and publishes nothing. *)
Theorem remove_stamp_idempotent m s u w :
  m <> uuid_Nil -> s <> uuid_Nil -> u <> uuid_Nil ->
  reliable w 2 ->
  exists w1 w2,
    RemoveStampFromMessage m s u w = (Ok tt, w1)
    /\ (forall r, In r (messages_stamps (db w1)) <->
                  In r (messages_stamps (db w)) /\ stampOf m s u r = false)
    /\ published w1
       = published w
         ++ (if existsb (stampOf m s u) (messages_stamps (db w))
             then [MessageUnstamped m s u] else [])
    /\ RemoveStampFromMessage m s u w1 = (Ok tt, w2)
    /\ db w2 = db w1 /\ published w2 = published w1.
Proof.
  intros Hm Hs Hu R.
  assert (F0 : fault (env w) (tick w) = None)
    by (rewrite <- (Nat.add_0_r (tick w)); apply R; lia).
  assert (F1 : fault (env w) (S (tick w)) = None)
    by (rewrite <- Nat.add_1_r; apply R; lia).
  destruct (RemoveStampFromMessage_reliable m s u w Hm Hs Hu F0)
    as (w1 & R1 & D1 & P1 & E1 & T1).
  assert (F1' : fault (env w1) (tick w1) = None) by (rewrite E1, T1; exact F1).
  destruct (RemoveStampFromMessage_reliable m s u w1 Hm Hs Hu F1')
    as (w2 & R2 & D2 & P2 & _).
  exists w1, w2. split; [exact R1|]. split.
  { intros r. rewrite D1. simpl. rewrite filter_In.
    split; intros [H1 H2]; (split; [exact H1|]).
    - apply negb_true_iff. exact H2.
    - apply negb_true_iff. exact H2. }
  split; [exact P1|]. split; [exact R2|].
  rewrite P2, D2, D1. simpl. rewrite existsb_filter_negb, filter_negb_idem.
  split; [reflexivity | apply app_nil_r].
Qed.

Lemma remove_stamp_idempotent_witness :
  exists w1 w2,
    RemoveStampFromMessage 1%N 2%N 3%N stampedWorld = (Ok tt, w1)
    /\ published w1 = published stampedWorld ++ [MessageUnstamped 1%N 2%N 3%N]
    /\ RemoveStampFromMessage 1%N 2%N 3%N w1 = (Ok tt, w2)
    /\ published w2 = published w1.
Proof.
  destruct (remove_stamp_idempotent 1%N 2%N 3%N stampedWorld)
    as (w1 & w2 & R1 & _ & P1 & R2 & _ & P2); try discriminate.
  { intros i _. reflexivity. }
  exists w1, w2. auto.
Defined.

Lemma find_upsertedStamps_row m s u n t l :
  find (stampOf m s u) (upsertedStamps m s u n t l)
  = Some match find (stampOf m s u) l with
         | Some r0 => mkMessageStamp (ms_MessageID r0) (ms_StampID r0)
                                     (ms_UserID r0) (ms_Count r0 + n)
                                     (ms_CreatedAt r0) t
         | None => mkMessageStamp m s u n t t
         end.
Proof.
  unfold upsertedStamps. destruct (existsb (stampOf m s u) l) eqn:X.
  - induction l as [|x l IH]; simpl in *; [discriminate|].
    destruct (stampOf m s u x) eqn:Px.
    + simpl. unfold stampOf in *. simpl. rewrite Px. reflexivity.
    + rewrite Px. simpl in X. exact (IH X).
  - rewrite find_app_fresh by exact X.
    rewrite (find_none_of_existsb _ _ X).
    assert (P : stampOf m s u (mkMessageStamp m s u n t t) = true).
    { unfold stampOf. simpl. rewrite !N.eqb_refl. reflexivity. }
    rewrite P. reflexivity.
Qed.

Lemma In_upsertedStamps_other m s u n t l r :
  stampOf m s u r = false ->
  (In r (upsertedStamps m s u n t l) <-> In r l).
Proof.
  intros Hr. unfold upsertedStamps. destruct (existsb (stampOf m s u) l).
  - rewrite in_map_iff. split.
    + intros (x & E & Hx). destruct (stampOf m s u x) eqn:Px.
      * exfalso. subst r. unfold stampOf in Hr, Px. simpl in Hr. congruence.
      * subst x. exact Hx.
    + intros H. exists r. rewrite Hr. auto.
  - rewrite in_app_iff. split; [|auto].
    intros [H | [H | []]]; [exact H|].
    exfalso. subst r. unfold stampOf in Hr. simpl in Hr.
    rewrite !N.eqb_refl in Hr. discriminate.
Qed.

(** What a successful [AddStampToMessage] leaves and returns. *)
Lemma AddStampToMessage_Ok m s u n w r w' :
  AddStampToMessage m s u n w = (Ok r, w') ->
  exists t,
    db w' = with_stamps (db w)
              (upsertedStamps m s u n t (messages_stamps (db w)))
    /\ find (stampOf m s u) (messages_stamps (db w')) = Some r
    /\ r = match find (stampOf m s u) (messages_stamps (db w)) with
           | Some r0 => mkMessageStamp (ms_MessageID r0) (ms_StampID r0)
                                       (ms_UserID r0) (ms_Count r0 + n)
                                       (ms_CreatedAt r0) t
           | None => mkMessageStamp m s u n t t
           end.
Proof.
  unfold AddStampToMessage.
  destruct (N.eqb m uuid_Nil || N.eqb s uuid_Nil || N.eqb u uuid_Nil);
    [discriminate|].
  intros H.
  apply bind_Ok in H. destruct H as ([] & w1 & U & H).
  apply bind_Ok in H. destruct H as (r' & w2 & T & H).
  apply bind_Ok in H. destruct H as ([] & w3 & P & H).
  injection H as -> ->. injection P as <-.
  apply exec_Ok_advanced in U. destruct U as (RU & _).
  apply exec_Ok_advanced in T. destruct T as (RT & _).
  injection RU as DU. rewrite <- DU in RT.
  cbn [messages_stamps with_stamps] in RT.
  rewrite find_upsertedStamps_row in RT. injection RT as Er D2.
  exists (Z.pos (clock (env w) (tick w))). simpl.
  rewrite <- D2. simpl. rewrite find_upsertedStamps_row.
  split; [reflexivity|]. split; [rewrite Er; reflexivity | symmetry; exact Er].
Qed.

(** X17: reactions accumulate.  Two successful [AddStampToMessage] calls on
    the same (message, stamp, user) add up: the second returns the count of
    the first plus its own delta and keeps the time the reaction was first
    applied; counters of other keys are the same before and after. *)
Theorem add_stamp_accumulates m s u a b w r1 w1 r2 w2 :
  AddStampToMessage m s u a w = (Ok r1, w1) ->
  AddStampToMessage m s u b w1 = (Ok r2, w2) ->
  ms_Count r2 = (ms_Count r1 + b)%Z
  /\ ms_CreatedAt r2 = ms_CreatedAt r1
  /\ forall r, stampOf m s u r = false ->
               (In r (messages_stamps (db w2)) <->
                In r (messages_stamps (db w))).
Proof.
  intros H1 H2.
  apply AddStampToMessage_Ok in H1. destruct H1 as (t1 & D1 & F1 & _).
  apply AddStampToMessage_Ok in H2. destruct H2 as (t2 & D2 & _ & E2).
  rewrite F1 in E2. subst r2. simpl.
  split; [reflexivity|]. split; [reflexivity|].
  intros r Hr. rewrite D2. simpl. rewrite In_upsertedStamps_other by exact Hr.
  rewrite D1. simpl. apply In_upsertedStamps_other. exact Hr.
Qed.

Lemma add_stamp_accumulates_witness :
  exists r1 r2,
    fst (AddStampToMessage 1%N 2%N 3%N 1%Z emptyWorld) = Ok r1
    /\ fst (AddStampToMessage 1%N 2%N 3%N 2%Z
              (snd (AddStampToMessage 1%N 2%N 3%N 1%Z emptyWorld))) = Ok r2
    /\ ms_Count r2 = (ms_Count r1 + 2)%Z.
Proof.
  assert (H1 : AddStampToMessage 1%N 2%N 3%N 1%Z emptyWorld
               = (Ok (mkMessageStamp 1%N 2%N 3%N 1%Z 1001%Z 1001%Z),
                  snd (AddStampToMessage 1%N 2%N 3%N 1%Z emptyWorld)))
    by (apply run_eq; vm_compute; reflexivity).
  assert (H2 : AddStampToMessage 1%N 2%N 3%N 2%Z
                 (snd (AddStampToMessage 1%N 2%N 3%N 1%Z emptyWorld))
               = (Ok (mkMessageStamp 1%N 2%N 3%N 3%Z 1001%Z 1003%Z),
                  snd (AddStampToMessage 1%N 2%N 3%N 2%Z
                         (snd (AddStampToMessage 1%N 2%N 3%N 1%Z emptyWorld)))))
    by (apply run_eq; vm_compute; reflexivity).
  destruct (add_stamp_accumulates _ _ _ _ _ _ _ _ _ _ H1 H2) as (C & _).
  eexists _, _. split; [rewrite H1; reflexivity|].
  split; [rewrite H2; reflexivity | exact C].
Defined.

(** X18: adding and then removing a reaction.  After a successful
    [AddStampToMessage], a [RemoveStampFromMessage] for the same key that the
    engine answers deletes the counter, publishes [MessageUnstamped], and
    leaves the counters of other keys as they were before the addition. *)
Theorem add_then_remove_stamp m s u n w r w1 :
  AddStampToMessage m s u n w = (Ok r, w1) ->
  fault (env w1) (tick w1) = None ->
  exists w2,
    RemoveStampFromMessage m s u w1 = (Ok tt, w2)
    /\ existsb (stampOf m s u) (messages_stamps (db w2)) = false
    /\ published w2 = published w1 ++ [MessageUnstamped m s u]
    /\ forall x, stampOf m s u x = false ->
                 (In x (messages_stamps (db w2)) <->
                  In x (messages_stamps (db w))).
Proof.
  intros H F.
  assert (Ids : m <> uuid_Nil /\ s <> uuid_Nil /\ u <> uuid_Nil).
  { unfold AddStampToMessage in H.
    destruct (N.eqb m uuid_Nil) eqn:Em; [discriminate|].
    destruct (N.eqb s uuid_Nil) eqn:Es; [discriminate|].
    destruct (N.eqb u uuid_Nil) eqn:Eu; [discriminate|].
    apply N.eqb_neq in Em, Es, Eu. auto. }
  destruct Ids as (Hm & Hs & Hu).
  apply AddStampToMessage_Ok in H. destruct H as (t & D1 & F1 & _).
  destruct (RemoveStampFromMessage_reliable m s u w1 Hm Hs Hu F)
    as (w2 & R2 & D2 & P2 & _).
  exists w2. split; [exact R2|]. rewrite D2. simpl.
  split; [apply existsb_filter_negb|]. split.
  - rewrite P2.
    assert (X : existsb (stampOf m s u) (messages_stamps (db w1)) = true).
    { apply existsb_exists. exists r. exact (find_some _ _ F1). }
    rewrite X. reflexivity.
  - intros x Hx. rewrite filter_In, Hx, D1. simpl.
    rewrite In_upsertedStamps_other by exact Hx. tauto.
Qed.

Lemma add_then_remove_stamp_witness :
  exists w2,
    RemoveStampFromMessage 1%N 2%N 3%N
      (snd (AddStampToMessage 1%N 2%N 3%N 1%Z emptyWorld)) = (Ok tt, w2)
    /\ existsb (stampOf 1%N 2%N 3%N) (messages_stamps (db w2)) = false.
Proof.
  assert (H1 : AddStampToMessage 1%N 2%N 3%N 1%Z emptyWorld
               = (Ok (mkMessageStamp 1%N 2%N 3%N 1%Z 1001%Z 1001%Z),
                  snd (AddStampToMessage 1%N 2%N 3%N 1%Z emptyWorld)))
    by (apply run_eq; vm_compute; reflexivity).
  assert (F : fault (env (snd (AddStampToMessage 1%N 2%N 3%N 1%Z emptyWorld)))
                    (tick (snd (AddStampToMessage 1%N 2%N 3%N 1%Z emptyWorld)))
              = None) by (vm_compute; reflexivity).
  destruct (add_then_remove_stamp _ _ _ _ _ _ _ H1 F) as (w2 & R & X & _).
  exists w2. auto.
Defined.

(** X19: [AddStampToMessage] is not one unit.  When the engine answers the
    upsert and fails the re-read, the call returns the engine's error and
    publishes nothing, yet the counter has already been upserted. *)
Theorem add_stamp_reread_failure m s u n w c :
  m <> uuid_Nil -> s <> uuid_Nil -> u <> uuid_Nil ->
  fault (env w) (tick w) = None ->
  fault (env w) (S (tick w)) = Some c ->
  exists w',
    AddStampToMessage m s u n w = (Err (ErrStorage c), w')
    /\ published w' = published w
    /\ messages_stamps (db w')
       = upsertedStamps m s u n (Z.pos (clock (env w) (tick w)))
                        (messages_stamps (db w)).
Proof.
  intros Hm Hs Hu F0 F1. unfold AddStampToMessage.
  rewrite (stampIds_nonnil _ _ _ Hm Hs Hu).
  unfold bind at 1, upsertStamp. rewrite (exec_reliable _ _ _ _ F0).
  unfold bind, takeStamp, exec. cbn [env tick with_db next_tick record].
  rewrite F1. eexists. split; [reflexivity|]. split; [|reflexivity].
  unfold published. simpl. rewrite !events_app. simpl.
  rewrite !app_nil_r. reflexivity.
Qed.

Lemma add_stamp_reread_failure_witness :
  exists w',
    AddStampToMessage 1%N 2%N 3%N 1%Z (faultyWorld 1)
    = (Err (ErrStorage 7), w')
    /\ published w' = published (faultyWorld 1)
    /\ messages_stamps (db w')
       = upsertedStamps 1%N 2%N 3%N 1%Z
           (Z.pos (clock (env (faultyWorld 1)) (tick (faultyWorld 1))))
           (messages_stamps (db (faultyWorld 1))).
Proof.
  apply add_stamp_reread_failure; try discriminate; reflexivity.
Defined.

(** ** The message store: missing messages, untouched rows, events *)

Lemma reliable_2 w :
  reliable w 2 ->
  fault (env w) (tick w) = None /\ fault (env w) (S (tick w)) = None.
Proof.
  intros R. split.
  - rewrite <- (Nat.add_0_r (tick w)). apply R. lia.
  - rewrite <- Nat.add_1_r. apply R. lia.
Qed.

Lemma UpdateMessage_hidden id text w :
  id <> uuid_Nil ->
  readable (db w) id = false ->
  reliable w 2 ->
  exists w2, UpdateMessage id text w = (Err ErrNotFound, w2)
             /\ db w2 = db w /\ published w2 = published w.
Proof.
  intros Hid R F. apply reliable_2 in F. destruct F as [F0 F1].
  apply N.eqb_neq in Hid.
  unfold UpdateMessage. rewrite Hid.
  unfold Transaction. rewrite F0.
  unfold UpdateMessage_tx, bind at 1, mapErr, firstMessage.
  rewrite exec_reliable by exact F1. simpl.
  unfold readable in R. rewrite (find_none_of_existsb _ _ R).
  eexists. split; [reflexivity|]. split; [reflexivity|].
  unfold published. simpl. rewrite !events_app. simpl.
  rewrite !app_nil_r. reflexivity.
Qed.

Lemma DeleteMessage_unreadable id w w' :
  DeleteMessage id w = (Ok tt, w') ->
  id <> uuid_Nil /\ readable (db w') id = false.
Proof.
  intros H. apply DeleteMessage_Ok in H.
  destruct H as (Hid & m & _ & _ & D & _). cbv zeta in D.
  split; [exact Hid|]. unfold readable. rewrite D. simpl.
  apply existsb_map_false. intros x. apply softDeleted_hidden.
Qed.

(** X20: editing a message that is absent or deleted.  When the engine
    answers, [UpdateMessage] on an id with no readable message returns
    [ErrNotFound], writes no archive row and publishes nothing; this is what
    an edit after a successful [DeleteMessage] of the same id gets. *)
Theorem update_of_missing_message text id w :
  (id <> uuid_Nil -> readable (db w) id = false -> reliable w 2 ->
   exists w2, UpdateMessage id text w = (Err ErrNotFound, w2)
              /\ db w2 = db w /\ published w2 = published w)
  /\ (forall w1, DeleteMessage id w = (Ok tt, w1) -> reliable w1 2 ->
      exists w2, UpdateMessage id text w1 = (Err ErrNotFound, w2)
                 /\ db w2 = db w1 /\ published w2 = published w1).
Proof.
  split.
  - apply UpdateMessage_hidden.
  - intros w1 H R. apply DeleteMessage_unreadable in H.
    destruct H as [Hid Hr]. apply UpdateMessage_hidden; assumption.
Qed.

Lemma update_of_missing_message_witness :
  exists w2,
    UpdateMessage 5%N "again" (snd (DeleteMessage 5%N busyWorld))
    = (Err ErrNotFound, w2)
    /\ db w2 = db (snd (DeleteMessage 5%N busyWorld)).
Proof.
  assert (H : DeleteMessage 5%N busyWorld
              = (Ok tt, snd (DeleteMessage 5%N busyWorld)))
    by (apply run_eq; vm_compute; reflexivity).
  assert (E : env (snd (DeleteMessage 5%N busyWorld)) = calmEnv)
    by (vm_compute; reflexivity).
  destruct (proj2 (update_of_missing_message "again" 5%N busyWorld) _ H)
    as (w2 & U & D & _).
  { intros i _. rewrite E. reflexivity. }
  exists w2. auto.
Defined.

Lemma Forall2_map_self {A} (R : A -> A -> Prop) (f : A -> A) l :
  (forall x, R x (f x)) -> Forall2 R l (map f l).
Proof. intros H. induction l; simpl; constructor; auto. Qed.

(** X21: an edit touches one message and one column.  After a successful
    [UpdateMessage id text] the messages table has the same rows in the same
    order; every row keeps its id, author, channel, creation time and
    deletion mark; rows with another id are unchanged; and the pointer,
    unread, pin, clip and reaction tables are as before. *)
Theorem update_touches_only_the_text id text w w' :
  UpdateMessage id text w = (Ok tt, w') ->
  Forall2 (fun a b => ID b = ID a /\ UserID b = UserID a
                      /\ ChannelID b = ChannelID a
                      /\ CreatedAt b = CreatedAt a
                      /\ DeletedAt b = DeletedAt a
                      /\ (ID a <> id -> b = a))
          (messages (db w)) (messages (db w'))
  /\ channel_latest_messages (db w') = channel_latest_messages (db w)
  /\ unreads (db w') = unreads (db w)
  /\ pins (db w') = pins (db w)
  /\ clip_folder_messages (db w') = clip_folder_messages (db w)
  /\ messages_stamps (db w') = messages_stamps (db w).
Proof.
  intros H. apply UpdateMessage_Ok in H.
  destruct H as (_ & old & _ & Hio & D & _). cbv zeta in D.
  rewrite D, Hio. simpl. split; [|repeat split].
  apply Forall2_map_self. intros x. unfold edited.
  destruct (hasID id x && live x) eqn:E; simpl; [|repeat split].
  repeat split. intros Hn. exfalso. apply Hn.
  apply andb_prop in E. destruct E as [E _]. apply N.eqb_eq. exact E.
Qed.

Lemma update_touches_only_the_text_witness :
  unreads (db (snd (UpdateMessage 5%N "bye" busyWorld))) = unreads (db busyWorld).
Proof.
  assert (H : UpdateMessage 5%N "bye" busyWorld
              = (Ok tt, snd (UpdateMessage 5%N "bye" busyWorld)))
    by (apply run_eq; vm_compute; reflexivity).
  exact (proj1 (proj2 (proj2 (update_touches_only_the_text _ _ _ _ H)))).
Defined.

(** X22: a delete is soft.  After a successful [DeleteMessage id] the messages
    table has the same rows in the same order; every row keeps its id,
    author, channel, text and times; rows with another id are unchanged;
    markers, pins and clips of other messages are kept; and the archive,
    pointer and reaction tables are as before. *)
Theorem delete_keeps_the_row id w w' :
  DeleteMessage id w = (Ok tt, w') ->
  Forall2 (fun a b => ID b = ID a /\ UserID b = UserID a
                      /\ ChannelID b = ChannelID a /\ Text b = Text a
                      /\ CreatedAt b = CreatedAt a
                      /\ UpdatedAt b = UpdatedAt a
                      /\ (ID a <> id -> b = a))
          (messages (db w)) (messages (db w'))
  /\ (forall x, In x (unreads (db w)) -> ur_MessageID x <> id ->
                In x (unreads (db w')))
  /\ (forall p, In p (pins (db w)) -> pin_MessageID p <> id ->
                In p (pins (db w')))
  /\ (forall c, In c (clip_folder_messages (db w)) -> cfm_MessageID c <> id ->
                In c (clip_folder_messages (db w')))
  /\ archived_messages (db w') = archived_messages (db w)
  /\ channel_latest_messages (db w') = channel_latest_messages (db w)
  /\ messages_stamps (db w') = messages_stamps (db w).
Proof.
  intros H. apply DeleteMessage_Ok in H.
  destruct H as (_ & m & _ & _ & D & _). cbv zeta in D.
  rewrite D. simpl. split; [|split; [|split; [|split; [|repeat split]]]].
  - apply Forall2_map_self. intros x. unfold softDeleted.
    destruct (hasID id x && live x) eqn:E; simpl; [|repeat split].
    repeat split. intros Hn. exfalso. apply Hn.
    apply andb_prop in E. destruct E as [E _]. apply N.eqb_eq. exact E.
  - intros x Hx Hn. apply filter_In. split; [exact Hx|].
    apply negb_true_iff. apply N.eqb_neq. exact Hn.
  - intros x Hx Hn. apply filter_In. split; [exact Hx|].
    apply negb_true_iff. apply N.eqb_neq. exact Hn.
  - intros x Hx Hn. apply filter_In. split; [exact Hx|].
    apply negb_true_iff. apply N.eqb_neq. exact Hn.
Qed.

Lemma delete_keeps_the_row_witness :
  In (mkUnread 1%N 6%N false) (unreads (db (snd (DeleteMessage 5%N busyWorld)))).
Proof.
  assert (H : DeleteMessage 5%N busyWorld
              = (Ok tt, snd (DeleteMessage 5%N busyWorld)))
    by (apply run_eq; vm_compute; reflexivity).
  apply (proj1 (proj2 (delete_keeps_the_row _ _ _ H))).
  - right. left. reflexivity.
  - discriminate.
Defined.

(** X23: what a create publishes.  A successful [CreateMessage] publishes
    [MessageCreated] with the stored message and the parse result, followed
    by [MessageCited] exactly when the text cites at least one message, and
    nothing else. *)
Theorem create_publishes u c t w m w1 :
  CreateMessage u c t w = (Ok m, w1) ->
  published w1
  = published w
    ++ MessageCreated (ID m) m (Parse (env w) t)
       :: match Parse (env w) t with
          | [] => []
          | _ :: _ => [MessageCited (ID m) m (Parse (env w) t)]
          end.
Proof.
  unfold CreateMessage.
  destruct (N.eqb u uuid_Nil || N.eqb c uuid_Nil); [discriminate|].
  unfold bind at 1. simpl.
  match goal with
  | |- context [Transaction ?b ?w0] =>
      destruct (Transaction b w0) as [[m0|e] w2] eqn:T
  end; [|discriminate].
  destruct (Transaction_outcome _ _ _ _ (quiet_CreateMessage_tx _) T)
    as (E & l & L & P & _).
  simpl in E. rewrite E.
  unfold bind, hubPublish, ret. intros H.
  assert (Pw : published w2 = published w).
  { rewrite (appended_published _ _ _ L), P. simpl. apply app_nil_r. }
  destruct (Parse (env w) t) as [|x xs] eqn:Ep; simpl in H;
    injection H as <- <-; unfold published in *; simpl;
      rewrite !events_app, Pw; simpl; rewrite <- ?app_assoc; reflexivity.
Qed.

Lemma create_publishes_witness :
  published (snd (CreateMessage 1%N 2%N "see" citingWorld))
  = published citingWorld
    ++ MessageCreated 101%N (mkMessage 101%N 1%N 2%N "see" 1002%Z 1002%Z None)
                      (Parse (env citingWorld) "see")
       :: match Parse (env citingWorld) "see" with
          | [] => []
          | _ :: _ =>
              [MessageCited 101%N
                 (mkMessage 101%N 1%N 2%N "see" 1002%Z 1002%Z None)
                 (Parse (env citingWorld) "see")]
          end.
Proof.
  assert (H : CreateMessage 1%N 2%N "see" citingWorld
              = (Ok (mkMessage 101%N 1%N 2%N "see" 1002%Z 1002%Z None),
                 snd (CreateMessage 1%N 2%N "see" citingWorld)))
    by (apply run_eq; vm_compute; reflexivity).
  exact (create_publishes _ _ _ _ _ _ H).
Defined.

(** X24: nil identifiers are refused at the door.  Every mutating method
    returns [ErrNilID] when one of its identifiers is [uuid.Nil], and
    returns the world as it was: no statement is sent, nothing is
    published. *)
Theorem nil_ids_are_refused w :
  (forall u c t, u = uuid_Nil \/ c = uuid_Nil ->
                 CreateMessage u c t w = (Err ErrNilID, w))
  /\ (forall t, UpdateMessage uuid_Nil t w = (Err ErrNilID, w))
  /\ DeleteMessage uuid_Nil w = (Err ErrNilID, w)
  /\ (forall u m n, u = uuid_Nil \/ m = uuid_Nil ->
                    SetMessageUnread u m n w = (Err ErrNilID, w))
  /\ (forall c u, c = uuid_Nil \/ u = uuid_Nil ->
                  DeleteUnreadsByChannelID c u w = (Err ErrNilID, w))
  /\ (forall m s u n, m = uuid_Nil \/ s = uuid_Nil \/ u = uuid_Nil ->
                      AddStampToMessage m s u n w = (Err ErrNilID, w))
  /\ (forall m s u, m = uuid_Nil \/ s = uuid_Nil \/ u = uuid_Nil ->
                    RemoveStampFromMessage m s u w = (Err ErrNilID, w)).
Proof.
  assert (O2 : forall a b, a = uuid_Nil \/ b = uuid_Nil ->
                           N.eqb a uuid_Nil || N.eqb b uuid_Nil = true).
  { intros a b [-> | ->]; [reflexivity | apply orb_true_r]. }
  assert (O3 : forall a b c, a = uuid_Nil \/ b = uuid_Nil \/ c = uuid_Nil ->
             N.eqb a uuid_Nil || N.eqb b uuid_Nil || N.eqb c uuid_Nil = true).
  { intros a b c [-> | [-> | ->]];
      [reflexivity | rewrite orb_true_r; reflexivity | apply orb_true_r]. }
  repeat split.
  - intros u c t H. unfold CreateMessage. rewrite (O2 _ _ H). reflexivity.
  - intros u m n H. unfold SetMessageUnread. rewrite (O2 _ _ H). reflexivity.
  - intros c u H. unfold DeleteUnreadsByChannelID. rewrite (O2 _ _ H).
    reflexivity.
  - intros m s u n H. unfold AddStampToMessage. rewrite (O3 _ _ _ H).
    reflexivity.
  - intros m s u H. unfold RemoveStampFromMessage. rewrite (O3 _ _ _ H).
    reflexivity.
Qed.

Lemma nil_ids_are_refused_witness :
  AddStampToMessage 1%N uuid_Nil 3%N 1%Z emptyWorld = (Err ErrNilID, emptyWorld).
Proof.
  apply (proj1 (proj2 (proj2 (proj2 (proj2 (proj2
           (nil_ids_are_refused emptyWorld))))))).
  right. left. reflexivity.
Defined.

(** * Properties of the older revision *)

(** The transaction body of the older [UpdateMessage] is the current one
    with the flag [ok] added to its result. *)
Lemma Legacy_UpdateMessage_tx_eq id text w :
  Legacy.UpdateMessage_tx id text w
  = match UpdateMessage_tx id text w with
    | (Ok (old, new), w1) => (Ok (old, new, true), w1)
    | (Err e, w1) => (Err e, w1)
    end.
Proof.
  unfold Legacy.UpdateMessage_tx, UpdateMessage_tx, bind.
  change (mapErr (fun e => match e with
                           | ErrRecordNotFound => ErrNotFound
                           | _ => e
                           end) (firstMessage id) w)
    with (mapErr convertError (firstMessage id) w).
  destruct (mapErr convertError (firstMessage id) w) as [[old|e] w1];
    [|reflexivity].
  destruct (NewV4 w1) as [[aid|e] w2]; [|reflexivity].
  destruct (insertArchived _ w2) as [[[]|e] w3]; [|reflexivity].
  destruct (updateMessageText _ _ w3) as [[[]|e] w4]; [|reflexivity].
  destruct (firstMessage id w4) as [[new|e] w5]; reflexivity.
Qed.

Lemma Transaction_congr {A B} (b1 : M A) (b2 : M B) (f : A -> B) w :
  (forall w0, b2 w0 = match b1 w0 with
                      | (Ok a, w1) => (Ok (f a), w1)
                      | (Err e, w1) => (Err e, w1)
                      end) ->
  Transaction b2 w = match Transaction b1 w with
                     | (Ok a, w1) => (Ok (f a), w1)
                     | (Err e, w1) => (Err e, w1)
                     end.
Proof.
  intros H. unfold Transaction.
  destruct (fault (env w) (tick w)); [reflexivity|].
  rewrite H. destruct (b1 _) as [[a|e] w1]; [|reflexivity].
  destruct (fault (env w1) (tick w1)); reflexivity.
Qed.

Lemma Legacy_UpdateMessage_eq id text w :
  text <> "" -> Legacy.UpdateMessage id text w = UpdateMessage id text w.
Proof.
  intros Ht. unfold Legacy.UpdateMessage, UpdateMessage, Legacy.transact.
  destruct (N.eqb id uuid_Nil); [reflexivity|].
  destruct text as [|ch text]; [contradiction|]. cbn [String.length Nat.eqb].
  rewrite (Transaction_congr (UpdateMessage_tx id (String ch text))
             (Legacy.UpdateMessage_tx id (String ch text))
             (fun p => (fst p, snd p, true))).
  - destruct (Transaction (UpdateMessage_tx id (String ch text)) w)
      as [[[old new]|e] w1]; reflexivity.
  - intros w0. rewrite Legacy_UpdateMessage_tx_eq.
    destruct (UpdateMessage_tx id (String ch text) w0) as [[[old new]|e] w1];
      reflexivity.
Qed.

Lemma In_archivedRows id d a :
  In a (Legacy.archivedRows id d) <->
  In a (archived_messages d) /\ am_MessageID a = id.
Proof.
  unfold Legacy.archivedRows. rewrite In_sortBy, filter_In.
  split; intros [H1 H2]; (split; [exact H1|]); apply N.eqb_eq; exact H2.
Qed.

(** X26: the archive can be read back.  After a successful edit in the older
    revision, [GetArchivedMessagesByID], when the engine answers, lists a
    row with the text and update time the message had before the edit; what
    it lists belongs to the message asked for and comes oldest first; for
    the nil id it returns the empty list without asking the engine. *)
Theorem archive_read_back id text w w' :
  Legacy.UpdateMessage id text w = (Ok tt, w') ->
  exists old,
    find (fun m => hasID id m && live m) (messages (db w)) = Some old
    /\ forall wq,
        db wq = db w' -> fault (env wq) (tick wq) = None ->
        exists rows a,
          fst (Legacy.GetArchivedMessagesByID id wq) = (rows, None)
          /\ In a rows /\ am_Text a = Text old
          /\ am_DateTime a = UpdatedAt old
          /\ Forall (fun r => am_MessageID r = id) rows
          /\ StronglySorted (fun x y => (am_DateTime x <= am_DateTime y)%Z) rows
          /\ Legacy.GetArchivedMessagesByID uuid_Nil wq = (([], None), wq).
Proof.
  intros H.
  assert (Ht : text <> "").
  { intros ->. unfold Legacy.UpdateMessage in H.
    destruct (N.eqb id uuid_Nil); discriminate. }
  rewrite (Legacy_UpdateMessage_eq _ _ _ Ht) in H.
  apply UpdateMessage_Ok in H.
  destruct H as (Hid & old & Fo & Hio & D & _). cbv zeta in D.
  exists old. split; [exact Fo|]. intros wq Dq F.
  apply N.eqb_neq in Hid.
  unfold Legacy.GetArchivedMessagesByID at 1, scanInto. rewrite Hid.
  rewrite (exec_reliable _ _ _ _ F). cbn [fst].
  eexists _, (mkArchivedMessage (N.pos (rand (env w) (drawn w))) (ID old)
                                (UserID old) (Text old) (UpdatedAt old)).
  split; [reflexivity|]. split.
  { apply In_archivedRows. rewrite Dq, D. simpl.
    split; [apply in_or_app; right; left; reflexivity | exact Hio]. }
  split; [reflexivity|]. split; [reflexivity|]. split.
  { apply Forall_forall. intros r Hr. apply In_archivedRows in Hr. tauto. }
  split; [|reflexivity].
  unfold Legacy.archivedRows. apply sortBy_asc_sorted.
Qed.

Lemma archive_read_back_witness :
  exists rows a,
    fst (Legacy.GetArchivedMessagesByID 5%N
           (snd (Legacy.UpdateMessage 5%N "bye" sampleWorld))) = (rows, None)
    /\ In a rows /\ am_Text a = "hi".
Proof.
  assert (H : Legacy.UpdateMessage 5%N "bye" sampleWorld
              = (Ok tt, snd (Legacy.UpdateMessage 5%N "bye" sampleWorld)))
    by (apply run_eq; vm_compute; reflexivity).
  assert (E : env (snd (Legacy.UpdateMessage 5%N "bye" sampleWorld)) = calmEnv)
    by (vm_compute; reflexivity).
  destruct (archive_read_back _ _ _ _ H) as (old & Fo & R).
  assert (Eo : old = mkMessage 5%N 1%N 2%N "hi" 10%Z 10%Z None).
  { vm_compute in Fo. injection Fo as <-. reflexivity. }
  destruct (R (snd (Legacy.UpdateMessage 5%N "bye" sampleWorld)) eq_refl)
    as (rows & a & G & Hin & Ta & _).
  { rewrite E. reflexivity. }
  exists rows, a. split; [exact G|]. split; [exact Hin|].
  rewrite Ta, Eo. reflexivity.
Defined.

Lemma firstOrCreateUnread_reliable u m w :
  reliable w 2 ->
  exists w',
    Legacy.firstOrCreateUnread u m w
    = (Ok match find (unreadOf u m) (unreads (db w)) with
          | Some x => x
          | None => mkUnread u m false
          end, w')
    /\ unreads (db w')
       = (if existsb (unreadOf u m) (unreads (db w)) then unreads (db w)
          else unreads (db w) ++ [mkUnread u m false])
    /\ messages (db w') = messages (db w)
    /\ published w' = published w /\ env w' = env w
    /\ tick w' = (if existsb (unreadOf u m) (unreads (db w)) then 1 else 2)
                 + tick w.
Proof.
  intros R. apply reliable_2 in R. destruct R as [F0 F1].
  unfold Legacy.firstOrCreateUnread, firstUnread.
  rewrite (exec_reliable _ _ _ _ F0).
  destruct (find (unreadOf u m) (unreads (db w))) as [x|] eqn:Fx.
  - assert (X : existsb (unreadOf u m) (unreads (db w)) = true).
    { apply existsb_exists. exists x. exact (find_some _ _ Fx). }
    rewrite X. eexists. split; [reflexivity|].
    repeat split. unfold published. simpl. rewrite events_app. simpl.
    apply app_nil_r.
  - assert (X : existsb (unreadOf u m) (unreads (db w)) = false).
    { apply not_true_is_false. intros T. apply existsb_exists in T.
      destruct T as (y & Hy & Py). pose proof (find_none _ _ Fx y Hy).
      congruence. }
    rewrite X. unfold bind, insertUnread.
    rewrite exec_reliable by exact F1. simpl db. simpl ur_UserID.
    simpl ur_MessageID. rewrite X. unfold ret.
    eexists. split; [reflexivity|]. repeat split.
    unfold published. simpl. rewrite !events_app. simpl.
    rewrite !app_nil_r. reflexivity.
Qed.

(** X27: marking unread in the older revision.  [SetMessageUnread] of the
    older revision, the engine answering, inserts a marker for the pair
    when it had none and otherwise writes nothing; it never publishes,
    and a second call changes nothing.  A following
    [DeleteUnreadsByMessageID], when answered, removes every marker on the
    message, for every user, and keeps the markers on other messages. *)
Theorem legacy_marker_round_trip u m w :
  u <> uuid_Nil -> m <> uuid_Nil -> reliable w 4 ->
  exists w1 w2 w3,
    Legacy.SetMessageUnread u m w = (Ok tt, w1)
    /\ unreads (db w1)
       = (if existsb (unreadOf u m) (unreads (db w)) then unreads (db w)
          else unreads (db w) ++ [mkUnread u m false])
    /\ Legacy.SetMessageUnread u m w1 = (Ok tt, w2)
    /\ unreads (db w2) = unreads (db w1)
    /\ Legacy.DeleteUnreadsByMessageID m w2 = (Ok tt, w3)
    /\ (forall x, In x (unreads (db w3)) <->
                  In x (unreads (db w)) /\ ur_MessageID x <> m)
    /\ published w3 = published w.
Proof.
  intros Hu Hm R. apply N.eqb_neq in Hu, Hm.
  destruct (firstOrCreateUnread_reliable u m w (reliable_less _ 4 2 ltac:(lia) R))
    as (w1 & S1 & U1 & _ & P1 & E1 & T1).
  assert (X1 : existsb (unreadOf u m) (unreads (db w1)) = true).
  { rewrite U1. destruct (existsb (unreadOf u m) (unreads (db w))) eqn:X;
      [exact X|].
    rewrite existsb_app. simpl. unfold unreadOf at 2. simpl.
    rewrite !N.eqb_refl. apply orb_true_r. }
  assert (R1 : reliable w1 2).
  { intros i Hi. rewrite E1, T1.
    destruct (existsb (unreadOf u m) (unreads (db w)));
      [replace (1 + tick w + i) with (tick w + (1 + i)) by lia
      |replace (2 + tick w + i) with (tick w + (2 + i)) by lia];
      apply R; lia. }
  destruct (firstOrCreateUnread_reliable u m w1 R1)
    as (w2 & S2 & U2 & _ & P2 & E2 & T2).
  rewrite X1 in U2, T2.
  assert (F2 : fault (env w2) (tick w2) = None).
  { rewrite E2, T2, E1, T1.
    destruct (existsb (unreadOf u m) (unreads (db w)));
      [replace (1 + (1 + tick w)) with (tick w + 2) by lia
      |replace (1 + (2 + tick w)) with (tick w + 3) by lia];
      apply R; lia. }
  exists w1, w2.
  eexists. unfold Legacy.SetMessageUnread, Legacy.DeleteUnreadsByMessageID.
  rewrite Hu, Hm. cbn [orb]. unfold bind at 1 2. rewrite S1, S2.
  unfold ret, deleteUnreads. rewrite (exec_reliable _ _ _ _ F2).
  split; [reflexivity|]. split; [exact U1|]. split; [reflexivity|].
  split; [exact U2|]. split; [reflexivity|]. split.
  - intros x. simpl. rewrite filter_In, U2, U1.
    unfold unreadOfMessage.
    destruct (existsb (unreadOf u m) (unreads (db w))).
    + split; intros [H1 H2]; (split; [exact H1|]).
      * apply negb_true_iff in H2. apply N.eqb_neq. exact H2.
      * apply negb_true_iff. apply N.eqb_neq. exact H2.
    + rewrite in_app_iff. split.
      * intros [[H1 | [H1 | []]] H2]; apply negb_true_iff, N.eqb_neq in H2.
        -- auto.
        -- subst x. simpl in H2. contradiction.
      * intros [H1 H2]. split; [auto|].
        apply negb_true_iff, N.eqb_neq. exact H2.
  - unfold published in *. simpl. rewrite events_app. simpl.
    rewrite app_nil_r. congruence.
Qed.

Lemma legacy_marker_round_trip_witness :
  exists w1 w2 w3,
    Legacy.SetMessageUnread 1%N 5%N sampleWorld = (Ok tt, w1)
    /\ Legacy.SetMessageUnread 1%N 5%N w1 = (Ok tt, w2)
    /\ unreads (db w2) = unreads (db w1)
    /\ Legacy.DeleteUnreadsByMessageID 5%N w2 = (Ok tt, w3)
    /\ published w3 = published sampleWorld.
Proof.
  destruct (legacy_marker_round_trip 1%N 5%N sampleWorld)
    as (w1 & w2 & w3 & S1 & _ & S2 & U2 & D3 & _ & P3); try discriminate.
  { intros i _. reflexivity. }
  exists w1, w2, w3. auto.
Defined.
